(** * mood-detection: the webcam mood visualizer of [script.js]

    A shallow embedding of [script.js] and the properties of its per-frame
    rendering, its camera control and its device plumbing.

    - JavaScript numbers are the finite rationals together with the two
      infinities and NaN. A finite result of [-], [*] and [/] is rounded
      as binary64 rounds it, to the nearest number with a significand of
      53 bits, a tie going to the even significand ([round53]). The range
      of the exponent is not bounded: overflow to an infinity and the
      coarser steps of the subnormal numbers are not represented, nor is
      the negative zero.
    - The state of the script, of the page and of the host is one record,
      [world], passed explicitly; every call into the browser or into the
      Human library is appended to its [log], in program order.
    - [async] functions are cut at their [await]s into segments that run to
      completion; a suspended segment is a [task] of the host, and the host
      decides in which order tasks settle, frames fire and the user acts
      ([event], [handle], [run]). *)

From Stdlib Require Import ZArith QArith Qminmax Qround Qabs Qpower Lqa Ascii String DecimalString.
From stdpp Require Import base option list strings functions gmap.

Local Open Scope Z_scope.

(** ** Numbers *)

Inductive number := Fin (q : Q) | PInf | NInf | NaN.

Definition Qltb (a b : Q) : bool := negb (Qle_bool b a).

(** The infinity carrying the sign of a comparison with zero; NaN for zero. *)
Definition inf_of_sign (c : comparison) : number :=
  match c with Gt => PInf | Lt => NInf | Eq => NaN end.

(** *** Rounding to 53 bits

    The [l] with [2^l <= x < 2^(l+1)], for a positive [x]. *)
Definition Qlog2 (x : Q) : Z :=
  let l := Z.log2 (Qnum x) - Z.log2 (Zpos (Qden x)) in
  if Qle_bool (2 ^ l) x then l else l - 1.

(** The integer nearest to [s], the even one of two. *)
Definition nearest_even (s : Q) : Z :=
  let f := Qfloor s in
  match (s - inject_Z f ?= 1 # 2)%Q with
  | Lt => f
  | Gt => f + 1
  | Eq => if Z.even f then f else f + 1
  end.

(** A positive [x] is scaled by a power of two into [[2^52, 2^53)], rounded
    to an integer there and scaled back. *)
Definition round53_pos (x : Q) : Q :=
  let e := Qlog2 x - 52 in
  (inject_Z (nearest_even (x / 2 ^ e)) * 2 ^ e)%Q.

(** The number with a 53-bit significand nearest to [x], ties to even. *)
Definition round53 (x : Q) : Q :=
  match (x ?= 0)%Q with
  | Eq => 0%Q
  | Gt => round53_pos x
  | Lt => (- round53_pos (- x))%Q
  end.

(** [a - b] *)
Definition sub (a b : number) : number :=
  match a, b with
  | NaN, _ | _, NaN => NaN
  | Fin x, Fin y => Fin (round53 (x - y))
  | PInf, PInf | NInf, NInf => NaN
  | PInf, _ | _, NInf => PInf
  | NInf, _ | _, PInf => NInf
  end.

(** [a * b] *)
Definition mul (a b : number) : number :=
  match a, b with
  | NaN, _ | _, NaN => NaN
  | Fin x, Fin y => Fin (round53 (x * y))
  | Fin x, PInf | PInf, Fin x => inf_of_sign (x ?= 0)%Q
  | Fin x, NInf | NInf, Fin x => inf_of_sign (0 ?= x)%Q
  | PInf, PInf | NInf, NInf => PInf
  | PInf, NInf | NInf, PInf => NInf
  end.

(** [a / b]; a zero divisor is the positive zero. *)
Definition div (a b : number) : number :=
  match a, b with
  | NaN, _ | _, NaN => NaN
  | Fin x, Fin y =>
      if Qeq_bool y 0 then inf_of_sign (x ?= 0)%Q else Fin (round53 (x / y))
  | Fin _, (PInf | NInf) => Fin 0
  | PInf, Fin y => if Qle_bool 0 y then PInf else NInf
  | NInf, Fin y => if Qle_bool 0 y then NInf else PInf
  | (PInf | NInf), (PInf | NInf) => NaN
  end.

(** [Math.min(a, b)] and [Math.max(a, b)] *)
Definition Math_min (a b : number) : number :=
  match a, b with
  | NaN, _ | _, NaN => NaN
  | NInf, _ | _, NInf => NInf
  | PInf, x | x, PInf => x
  | Fin x, Fin y => Fin (Qmin x y)
  end.

Definition Math_max (a b : number) : number :=
  match a, b with
  | NaN, _ | _, NaN => NaN
  | PInf, _ | _, PInf => PInf
  | NInf, x | x, NInf => x
  | Fin x, Fin y => Fin (Qmax x y)
  end.

(** [v > 0], the test [Array.prototype.sort] applies to what its comparator
    returns (NaN counts as zero). *)
Definition positive_number (v : number) : bool :=
  match v with
  | Fin q => Qltb 0 q
  | PInf => true
  | NInf | NaN => false
  end.

Definition of_nat (n : nat) : number := Fin (inject_Z (Z.of_nat n)).
Definition of_Z (z : Z) : number := Fin (inject_Z z).

(** [const clamp01 = v => Math.max(0, Math.min(1, v));] *)
Definition clamp01 (v : number) : number :=
  Math_max (Fin 0) (Math_min (Fin 1) v).

(** ** [Array.prototype.sort]

    The sort is stable: an element moves behind another only when the
    comparator called on the two is positive. *)
Section Sort.

Context {A : Type} (cmp : A → A → number).

Fixpoint sort_insert (x : A) (l : list A) : list A :=
  match l with
  | [] => [x]
  | y :: l' =>
      if positive_number (cmp x y) then y :: sort_insert x l' else x :: l
  end.

Definition sort (l : list A) : list A := foldr sort_insert [] l.

End Sort.

(** ** Number to string *)

(** Decimal digits of a natural number given as an integer. *)
Definition digits (z : Z) : string :=
  NilZero.string_of_uint (N.to_uint (Z.to_N z)).

Definition ten21 : Q := inject_Z (10 ^ 21).

Definition is_integer (q : Q) : bool := Qeq_bool q (inject_Z (Qfloor q)).

Definition sign_prefix (q : Q) : string :=
  if Qltb q 0 then "-" else EmptyString.

(** ** The page and the host *)

(** The keys of [els]. *)
Inductive elem :=
  | video | overlay | moodBadge | cameraSelect | startBtn | stopBtn
  | snapBtn | mirrorToggle | themeToggle | topMood | topConf | fpsBar
  | fpsText | facesBar | facesText | emotionList.

#[global] Instance elem_eq_dec : EqDecision elem.
Proof. solve_decision. Defined.

(** What the detector returns, as far as the script reads it. A missing
    [face] or [emotion] property is [None]; a score is a finite number. *)
Record emotion_entry := { emotion : string; score : Q }.
Record face := { emotions : option (list emotion_entry) }.
Record result := { faces_of : option (list face) }.

(** A [MediaDeviceInfo]. *)
Record device := { kind : string; deviceId : string; label : string }.

(** A value that is an object or one of the two empty values. *)
Inductive ref := undefined | null | object (id : nat).

Definition truthy (r : ref) : bool :=
  match r with object _ => true | _ => false end.

(** One operation on the pixels of a canvas. *)
Inductive drawop :=
  | draw_canvas
  | draw_face (fs : option (list face)) (labels : bool)
  | drawImage (src : elem) (dx dy : Z) (dsize : option (Z * Z))
  | cleared (x y w h : Z).

(** A canvas, with the operations painted on it since it was last blank.
    Canvases have pixels here: both dimensions are positive. *)
Record canvas := { width : positive; height : positive; painted : list drawop }.

(** An [<option>]; [opt_value] is its [value] attribute. *)
Record option_el :=
  { opt_value : option string; opt_text : string; opt_disabled : bool }.

(** [els.cameraSelect]: its options and the index of the selected one. *)
Record select_el := { options : list option_el; selectedIndex : option nat }.

(** A child appended to [els.emotionList]. *)
Record row_el := { className : string; innerHTML : string }.

(** [els.emotionList]: the markup assigned to [innerHTML], then the
    children appended after it. *)
Record list_el := { markup : string; rows : list row_el }.

(** The constraint passed as [video] to [getUserMedia]. *)
Inductive video_constraint :=
  | any_camera
  | exact_device (id : string)
  | user_facing (ideal_width ideal_height : Z).

(** A file handed to the user by a click on an [<a download>]. *)
Record download :=
  { file_name : string; file_type : string; file_image : canvas }.

(** Calls into the browser and into the Human library. *)
Inductive call :=
  | localStorage_getItem (key : string)
  | localStorage_setItem (key value : string)
  | new_Human
  | human_load
  | human_warmup
  | human_detect (input : elem)
  | human_draw_canvas (target : elem)
  | human_draw_face (target : elem) (fs : option (list face)) (labels : bool)
  | clearRect (target : elem) (x y w h : Z)
  | getUserMedia (v : video_constraint)
  | enumerateDevices
  | video_play
  | track_stop (stream track : nat)
  | requestAnimationFrame (id : positive)
  | cancelAnimationFrame (id : positive)
  | anchor_click (d : download)
  | console_error (msg : string)
  | console_warn (msg : string)
  | alert (msg : string).

(** An [async] function suspended at an [await]. *)
Inductive task :=
  | init_load
  | init_warmup
  | init_getUserMedia
  | listCameras_enumerateDevices
  | startCamera_getUserMedia
  | startCamera_play
  | loop_detect (t0 : Q).

(** The state of the script, of its page and of the host.

    - [els] tells which elements [document.getElementById] found. Only
      [snapshot] asks; the other functions are followed on pages that have
      the elements they use.
    - [tracks] maps each stream handed out so far to the state of its
      tracks, [true] for live.
    - [frames] are the identifiers of the pending animation-frame callbacks,
      all of them [loop]; [tasks] are the suspended [async] functions.
    - [lastFrameTime] is never read and is left out. *)
Record world := {
  (* [let human, stream, running = false, rafId = null;] *)
  running : bool;
  rafId : option positive;
  stream : ref;
  (* the page *)
  els : elem → bool;
  textContent : elem → string;
  style_width : elem → string;
  style_transform : elem → string;
  overlay_canvas : canvas;
  srcObject : option nat;
  videoSize : N * N;
  emotions_el : list_el;
  select : select_el;
  checked : bool;
  data_theme : option string;
  (* the host *)
  localStorage : gmap string string;
  tracks : gmap nat (list bool);
  next_stream : nat;
  frames : list positive;
  next_frame : positive;
  tasks : list task;
  performance_now : Q;
  Date_now : Z;
  log : list call
}.


(** ** Assignments to one field of the world *)

Definition set_running (v : bool) (w : world) : world :=
  {| running := v; rafId := rafId w; stream := stream w; els := els w;
     textContent := textContent w; style_width := style_width w;
     style_transform := style_transform w; overlay_canvas := overlay_canvas
     w; srcObject := srcObject w; videoSize := videoSize w; emotions_el :=
     emotions_el w; select := select w; checked := checked w; data_theme :=
     data_theme w; localStorage := localStorage w; tracks := tracks w;
     next_stream := next_stream w; frames := frames w; next_frame :=
     next_frame w; tasks := tasks w; performance_now := performance_now w;
     Date_now := Date_now w; log := log w |}.

Definition set_rafId (v : option positive) (w : world) : world :=
  {| running := running w; rafId := v; stream := stream w; els := els w;
     textContent := textContent w; style_width := style_width w;
     style_transform := style_transform w; overlay_canvas := overlay_canvas
     w; srcObject := srcObject w; videoSize := videoSize w; emotions_el :=
     emotions_el w; select := select w; checked := checked w; data_theme :=
     data_theme w; localStorage := localStorage w; tracks := tracks w;
     next_stream := next_stream w; frames := frames w; next_frame :=
     next_frame w; tasks := tasks w; performance_now := performance_now w;
     Date_now := Date_now w; log := log w |}.

Definition set_stream (v : ref) (w : world) : world :=
  {| running := running w; rafId := rafId w; stream := v; els := els w;
     textContent := textContent w; style_width := style_width w;
     style_transform := style_transform w; overlay_canvas := overlay_canvas
     w; srcObject := srcObject w; videoSize := videoSize w; emotions_el :=
     emotions_el w; select := select w; checked := checked w; data_theme :=
     data_theme w; localStorage := localStorage w; tracks := tracks w;
     next_stream := next_stream w; frames := frames w; next_frame :=
     next_frame w; tasks := tasks w; performance_now := performance_now w;
     Date_now := Date_now w; log := log w |}.

Definition set_els (v : elem → bool) (w : world) : world :=
  {| running := running w; rafId := rafId w; stream := stream w; els := v;
     textContent := textContent w; style_width := style_width w;
     style_transform := style_transform w; overlay_canvas := overlay_canvas
     w; srcObject := srcObject w; videoSize := videoSize w; emotions_el :=
     emotions_el w; select := select w; checked := checked w; data_theme :=
     data_theme w; localStorage := localStorage w; tracks := tracks w;
     next_stream := next_stream w; frames := frames w; next_frame :=
     next_frame w; tasks := tasks w; performance_now := performance_now w;
     Date_now := Date_now w; log := log w |}.

Definition set_textContent (v : elem → string) (w : world) : world :=
  {| running := running w; rafId := rafId w; stream := stream w; els := els
     w; textContent := v; style_width := style_width w; style_transform :=
     style_transform w; overlay_canvas := overlay_canvas w; srcObject :=
     srcObject w; videoSize := videoSize w; emotions_el := emotions_el w;
     select := select w; checked := checked w; data_theme := data_theme w;
     localStorage := localStorage w; tracks := tracks w; next_stream :=
     next_stream w; frames := frames w; next_frame := next_frame w; tasks :=
     tasks w; performance_now := performance_now w; Date_now := Date_now w;
     log := log w |}.

Definition set_style_width (v : elem → string) (w : world) : world :=
  {| running := running w; rafId := rafId w; stream := stream w; els := els
     w; textContent := textContent w; style_width := v; style_transform :=
     style_transform w; overlay_canvas := overlay_canvas w; srcObject :=
     srcObject w; videoSize := videoSize w; emotions_el := emotions_el w;
     select := select w; checked := checked w; data_theme := data_theme w;
     localStorage := localStorage w; tracks := tracks w; next_stream :=
     next_stream w; frames := frames w; next_frame := next_frame w; tasks :=
     tasks w; performance_now := performance_now w; Date_now := Date_now w;
     log := log w |}.

Definition set_style_transform (v : elem → string) (w : world) : world :=
  {| running := running w; rafId := rafId w; stream := stream w; els := els
     w; textContent := textContent w; style_width := style_width w;
     style_transform := v; overlay_canvas := overlay_canvas w; srcObject :=
     srcObject w; videoSize := videoSize w; emotions_el := emotions_el w;
     select := select w; checked := checked w; data_theme := data_theme w;
     localStorage := localStorage w; tracks := tracks w; next_stream :=
     next_stream w; frames := frames w; next_frame := next_frame w; tasks :=
     tasks w; performance_now := performance_now w; Date_now := Date_now w;
     log := log w |}.

Definition set_overlay_canvas (v : canvas) (w : world) : world :=
  {| running := running w; rafId := rafId w; stream := stream w; els := els
     w; textContent := textContent w; style_width := style_width w;
     style_transform := style_transform w; overlay_canvas := v; srcObject :=
     srcObject w; videoSize := videoSize w; emotions_el := emotions_el w;
     select := select w; checked := checked w; data_theme := data_theme w;
     localStorage := localStorage w; tracks := tracks w; next_stream :=
     next_stream w; frames := frames w; next_frame := next_frame w; tasks :=
     tasks w; performance_now := performance_now w; Date_now := Date_now w;
     log := log w |}.

Definition set_srcObject (v : option nat) (w : world) : world :=
  {| running := running w; rafId := rafId w; stream := stream w; els := els
     w; textContent := textContent w; style_width := style_width w;
     style_transform := style_transform w; overlay_canvas := overlay_canvas
     w; srcObject := v; videoSize := videoSize w; emotions_el := emotions_el
     w; select := select w; checked := checked w; data_theme := data_theme
     w; localStorage := localStorage w; tracks := tracks w; next_stream :=
     next_stream w; frames := frames w; next_frame := next_frame w; tasks :=
     tasks w; performance_now := performance_now w; Date_now := Date_now w;
     log := log w |}.

Definition set_videoSize (v : N * N) (w : world) : world :=
  {| running := running w; rafId := rafId w; stream := stream w; els := els
     w; textContent := textContent w; style_width := style_width w;
     style_transform := style_transform w; overlay_canvas := overlay_canvas
     w; srcObject := srcObject w; videoSize := v; emotions_el := emotions_el
     w; select := select w; checked := checked w; data_theme := data_theme
     w; localStorage := localStorage w; tracks := tracks w; next_stream :=
     next_stream w; frames := frames w; next_frame := next_frame w; tasks :=
     tasks w; performance_now := performance_now w; Date_now := Date_now w;
     log := log w |}.

Definition set_emotions_el (v : list_el) (w : world) : world :=
  {| running := running w; rafId := rafId w; stream := stream w; els := els
     w; textContent := textContent w; style_width := style_width w;
     style_transform := style_transform w; overlay_canvas := overlay_canvas
     w; srcObject := srcObject w; videoSize := videoSize w; emotions_el :=
     v; select := select w; checked := checked w; data_theme := data_theme
     w; localStorage := localStorage w; tracks := tracks w; next_stream :=
     next_stream w; frames := frames w; next_frame := next_frame w; tasks :=
     tasks w; performance_now := performance_now w; Date_now := Date_now w;
     log := log w |}.

Definition set_select (v : select_el) (w : world) : world :=
  {| running := running w; rafId := rafId w; stream := stream w; els := els
     w; textContent := textContent w; style_width := style_width w;
     style_transform := style_transform w; overlay_canvas := overlay_canvas
     w; srcObject := srcObject w; videoSize := videoSize w; emotions_el :=
     emotions_el w; select := v; checked := checked w; data_theme :=
     data_theme w; localStorage := localStorage w; tracks := tracks w;
     next_stream := next_stream w; frames := frames w; next_frame :=
     next_frame w; tasks := tasks w; performance_now := performance_now w;
     Date_now := Date_now w; log := log w |}.

Definition set_checked (v : bool) (w : world) : world :=
  {| running := running w; rafId := rafId w; stream := stream w; els := els
     w; textContent := textContent w; style_width := style_width w;
     style_transform := style_transform w; overlay_canvas := overlay_canvas
     w; srcObject := srcObject w; videoSize := videoSize w; emotions_el :=
     emotions_el w; select := select w; checked := v; data_theme :=
     data_theme w; localStorage := localStorage w; tracks := tracks w;
     next_stream := next_stream w; frames := frames w; next_frame :=
     next_frame w; tasks := tasks w; performance_now := performance_now w;
     Date_now := Date_now w; log := log w |}.

Definition set_data_theme (v : option string) (w : world) : world :=
  {| running := running w; rafId := rafId w; stream := stream w; els := els
     w; textContent := textContent w; style_width := style_width w;
     style_transform := style_transform w; overlay_canvas := overlay_canvas
     w; srcObject := srcObject w; videoSize := videoSize w; emotions_el :=
     emotions_el w; select := select w; checked := checked w; data_theme :=
     v; localStorage := localStorage w; tracks := tracks w; next_stream :=
     next_stream w; frames := frames w; next_frame := next_frame w; tasks :=
     tasks w; performance_now := performance_now w; Date_now := Date_now w;
     log := log w |}.

Definition set_localStorage (v : gmap string string) (w : world) : world :=
  {| running := running w; rafId := rafId w; stream := stream w; els := els
     w; textContent := textContent w; style_width := style_width w;
     style_transform := style_transform w; overlay_canvas := overlay_canvas
     w; srcObject := srcObject w; videoSize := videoSize w; emotions_el :=
     emotions_el w; select := select w; checked := checked w; data_theme :=
     data_theme w; localStorage := v; tracks := tracks w; next_stream :=
     next_stream w; frames := frames w; next_frame := next_frame w; tasks :=
     tasks w; performance_now := performance_now w; Date_now := Date_now w;
     log := log w |}.

Definition set_tracks (v : gmap nat (list bool)) (w : world) : world :=
  {| running := running w; rafId := rafId w; stream := stream w; els := els
     w; textContent := textContent w; style_width := style_width w;
     style_transform := style_transform w; overlay_canvas := overlay_canvas
     w; srcObject := srcObject w; videoSize := videoSize w; emotions_el :=
     emotions_el w; select := select w; checked := checked w; data_theme :=
     data_theme w; localStorage := localStorage w; tracks := v; next_stream
     := next_stream w; frames := frames w; next_frame := next_frame w; tasks
     := tasks w; performance_now := performance_now w; Date_now := Date_now
     w; log := log w |}.

Definition set_next_stream (v : nat) (w : world) : world :=
  {| running := running w; rafId := rafId w; stream := stream w; els := els
     w; textContent := textContent w; style_width := style_width w;
     style_transform := style_transform w; overlay_canvas := overlay_canvas
     w; srcObject := srcObject w; videoSize := videoSize w; emotions_el :=
     emotions_el w; select := select w; checked := checked w; data_theme :=
     data_theme w; localStorage := localStorage w; tracks := tracks w;
     next_stream := v; frames := frames w; next_frame := next_frame w; tasks
     := tasks w; performance_now := performance_now w; Date_now := Date_now
     w; log := log w |}.

Definition set_frames (v : list positive) (w : world) : world :=
  {| running := running w; rafId := rafId w; stream := stream w; els := els
     w; textContent := textContent w; style_width := style_width w;
     style_transform := style_transform w; overlay_canvas := overlay_canvas
     w; srcObject := srcObject w; videoSize := videoSize w; emotions_el :=
     emotions_el w; select := select w; checked := checked w; data_theme :=
     data_theme w; localStorage := localStorage w; tracks := tracks w;
     next_stream := next_stream w; frames := v; next_frame := next_frame w;
     tasks := tasks w; performance_now := performance_now w; Date_now :=
     Date_now w; log := log w |}.

Definition set_next_frame (v : positive) (w : world) : world :=
  {| running := running w; rafId := rafId w; stream := stream w; els := els
     w; textContent := textContent w; style_width := style_width w;
     style_transform := style_transform w; overlay_canvas := overlay_canvas
     w; srcObject := srcObject w; videoSize := videoSize w; emotions_el :=
     emotions_el w; select := select w; checked := checked w; data_theme :=
     data_theme w; localStorage := localStorage w; tracks := tracks w;
     next_stream := next_stream w; frames := frames w; next_frame := v;
     tasks := tasks w; performance_now := performance_now w; Date_now :=
     Date_now w; log := log w |}.

Definition set_tasks (v : list task) (w : world) : world :=
  {| running := running w; rafId := rafId w; stream := stream w; els := els
     w; textContent := textContent w; style_width := style_width w;
     style_transform := style_transform w; overlay_canvas := overlay_canvas
     w; srcObject := srcObject w; videoSize := videoSize w; emotions_el :=
     emotions_el w; select := select w; checked := checked w; data_theme :=
     data_theme w; localStorage := localStorage w; tracks := tracks w;
     next_stream := next_stream w; frames := frames w; next_frame :=
     next_frame w; tasks := v; performance_now := performance_now w;
     Date_now := Date_now w; log := log w |}.

Definition set_performance_now (v : Q) (w : world) : world :=
  {| running := running w; rafId := rafId w; stream := stream w; els := els
     w; textContent := textContent w; style_width := style_width w;
     style_transform := style_transform w; overlay_canvas := overlay_canvas
     w; srcObject := srcObject w; videoSize := videoSize w; emotions_el :=
     emotions_el w; select := select w; checked := checked w; data_theme :=
     data_theme w; localStorage := localStorage w; tracks := tracks w;
     next_stream := next_stream w; frames := frames w; next_frame :=
     next_frame w; tasks := tasks w; performance_now := v; Date_now :=
     Date_now w; log := log w |}.

Definition set_Date_now (v : Z) (w : world) : world :=
  {| running := running w; rafId := rafId w; stream := stream w; els := els
     w; textContent := textContent w; style_width := style_width w;
     style_transform := style_transform w; overlay_canvas := overlay_canvas
     w; srcObject := srcObject w; videoSize := videoSize w; emotions_el :=
     emotions_el w; select := select w; checked := checked w; data_theme :=
     data_theme w; localStorage := localStorage w; tracks := tracks w;
     next_stream := next_stream w; frames := frames w; next_frame :=
     next_frame w; tasks := tasks w; performance_now := performance_now w;
     Date_now := v; log := log w |}.

Definition set_log (v : list call) (w : world) : world :=
  {| running := running w; rafId := rafId w; stream := stream w; els := els
     w; textContent := textContent w; style_width := style_width w;
     style_transform := style_transform w; overlay_canvas := overlay_canvas
     w; srcObject := srcObject w; videoSize := videoSize w; emotions_el :=
     emotions_el w; select := select w; checked := checked w; data_theme :=
     data_theme w; localStorage := localStorage w; tracks := tracks w;
     next_stream := next_stream w; frames := frames w; next_frame :=
     next_frame w; tasks := tasks w; performance_now := performance_now w;
     Date_now := Date_now w; log := v |}.

Section Host.
(** [Number::toString] of the host on the finite values that are not
    integers below [10^21]: the shortest digits that read back as the
    same binary64, which the rationals do not determine. *)
Variable NumberToString : Q → string.

(** [String(v)], [`${v}`] *)
Definition ToString (v : number) : string :=
  match v with
  | NaN => "NaN"
  | PInf => "Infinity"
  | NInf => "-Infinity"
  | Fin q =>
      if is_integer q && Qltb (Qabs q) ten21
      then sign_prefix q +:+ digits (Qfloor (Qabs q))
      else NumberToString q
  end.

(** The integer [n] for which [n / 10 - x] is closest to zero, the larger
    one of two. *)
Definition nearest_tenth (x : Q) : Z := Qfloor (x * 10 + (1 # 2)).

(** [v.toFixed(1)] *)
Definition toFixed1 (v : number) : string :=
  match v with
  | NaN => "NaN"
  | PInf => "Infinity"
  | NInf => "-Infinity"
  | Fin q =>
      let x := Qabs q in
      if Qle_bool ten21 x then sign_prefix q +:+ NumberToString x
      else
        let n := nearest_tenth x in
        sign_prefix q +:+ digits (n / 10) +:+ "." +:+ digits (n mod 10)
  end.

(** [const pct = v => `${(v * 100).toFixed(1)}%`;] *)
Definition pct (v : number) : string :=
  toFixed1 (mul v (Fin 100)) +:+ "%".

(** ** Host operations *)

Definition host_call (c : call) (w : world) : world :=
  set_log (log w ++ [c]) w.

Definition suspend (t : task) (w : world) : world :=
  set_tasks (tasks w ++ [t]) w.

(** [requestAnimationFrame(loop)]: the callback joins the pending ones under
    a fresh identifier, which is returned. *)
Definition host_requestAnimationFrame (w : world) : positive * world :=
  let id := next_frame w in
  (id, host_call (requestAnimationFrame id)
         (set_next_frame (Pos.succ id) (set_frames (frames w ++ [id]) w))).

Definition host_cancelAnimationFrame (id : positive) (w : world) : world :=
  host_call (cancelAnimationFrame id)
    (set_frames (filter (λ i, i ≠ id) (frames w)) w).

(** A stream handed out by [getUserMedia], with [n] live tracks. *)
Definition new_stream (n : nat) (w : world) : nat * world :=
  let s := next_stream w in
  (s, set_next_stream (S s) (set_tracks (<[s := replicate n true]> (tracks w)) w)).

(** [s.getTracks().forEach(t => t.stop())] *)
Definition stop_tracks (s : nat) (w : world) : world :=
  let n := length (default [] (tracks w !! s)) in
  set_log (log w ++ (track_stop s <$> seq 0 n))
    (set_tracks (alter (fmap (λ _, false)) s (tracks w)) w).

(** ** Canvases *)

Definition covers (x y w h : Z) (c : canvas) : bool :=
  (x <=? 0) && (y <=? 0) && (Zpos (width c) <=? x + w) && (Zpos (height c) <=? y + h).

(** [ctx.clearRect(x, y, w, h)]: a rectangle over the whole canvas leaves it
    blank. *)
Definition canvas_clearRect (x y w h : Z) (c : canvas) : canvas :=
  {| width := width c; height := height c;
     painted := if covers x y w h c then [] else painted c ++ [cleared x y w h] |}.

Definition canvas_paint (d : drawop) (c : canvas) : canvas :=
  {| width := width c; height := height c; painted := painted c ++ [d] |}.

(** Assigning a dimension of a canvas blanks it. *)
Definition canvas_set_width (p : positive) (c : canvas) : canvas :=
  {| width := p; height := height c; painted := [] |}.

Definition canvas_set_height (p : positive) (c : canvas) : canvas :=
  {| width := width c; height := p; painted := [] |}.

(** [n || d] on a dimension of the video. *)
Definition or_default (n : N) (d : positive) : positive :=
  match n with N0 => d | Npos p => p end.

(** ** The camera select *)

Definition option_value (o : option_el) : string :=
  default (opt_text o) (opt_value o).

(** [els.cameraSelect.value] *)
Definition select_value (s : select_el) : string :=
  match selectedIndex s with
  | Some i => from_option option_value EmptyString (options s !! i)
  | None => EmptyString
  end.

(** [els.cameraSelect.appendChild(o)]: while no option is selected, the
    first one that is not disabled becomes the selected one. *)
Definition select_append (o : option_el) (s : select_el) : select_el :=
  let os := options s ++ [o] in
  {| options := os;
     selectedIndex :=
       match selectedIndex s with
       | Some i => Some i
       | None => fst <$> list_find (λ o, opt_disabled o = false) os
       end |}.

(** ** Strings *)

Definition dq : string := String "034"%char EmptyString.
Definition nl : string := String "010"%char EmptyString.

Definition lower (c : ascii) : ascii :=
  let n := nat_of_ascii c in
  if (65 <=? n)%nat && (n <=? 90)%nat then ascii_of_nat (n + 32) else c.

Fixpoint toLowerCase (s : string) : string :=
  match s with
  | EmptyString => EmptyString
  | String c s' => String (lower c) (toLowerCase s')
  end.

(** ** [stopCamera], [applyMirror], the theme *)

Definition stopCamera (w : world) : world :=
  let w := set_running false w in
  let w := match rafId w with
           | Some id => host_cancelAnimationFrame id w
           | None => w
           end in
  let w := set_rafId None w in
  let w := match stream w with
           | object s => stop_tracks s w
           | _ => w
           end in
  set_stream null w.

Definition applyMirror (w : world) : world :=
  let mirrored := checked w in
  let scale := if mirrored then "scaleX(-1)" else "scaleX(1)" in
  let w := set_style_transform (<[video := scale]> (style_transform w)) w in
  set_style_transform (<[overlay := scale]> (style_transform w)) w.

(** The click handler of [els.themeToggle]. *)
Definition toggle_theme (w : world) : world :=
  let cur := data_theme w in
  let next := if decide (cur = Some "dark") then "light" else "dark" in
  let w := set_data_theme (Some next) w in
  host_call (localStorage_setItem "theme" next)
    (set_localStorage (<["theme" := next]> (localStorage w)) w).

(** ** [loop], up to its [await] *)

Definition loop (w : world) : world :=
  if negb (running w) then w
  else
    let t0 := performance_now w in
    suspend (loop_detect t0) (host_call (human_detect video) w).

(** ** [startCamera] *)

Definition startCamera (w : world) : world :=
  let w := stopCamera w in
  let deviceId := select_value (select w) in
  let v := if decide (deviceId = EmptyString) then user_facing 1280 720
           else exact_device deviceId in
  suspend startCamera_getUserMedia (host_call (getUserMedia v) w).

(** [stream = await ...getUserMedia(...)] fulfilled with the stream [s]. *)
Definition startCamera_stream (s : nat) (w : world) : world :=
  let w := set_stream (object s) w in
  let w := set_srcObject (Some s) w in
  suspend startCamera_play (host_call video_play w).

(** [await els.video.play()] fulfilled. *)
Definition startCamera_playing (w : world) : world :=
  let c := overlay_canvas w in
  let c := canvas_set_width (or_default (fst (videoSize w)) 1280) c in
  let c := canvas_set_height (or_default (snd (videoSize w)) 720) c in
  let w := set_overlay_canvas c w in
  let w := applyMirror w in
  let w := set_running true w in
  loop w.

(** The [catch] of [startCamera]. *)
Definition startCamera_catch (w : world) : world :=
  host_call
    (alert "Unable to access camera. Check permissions and that no other app is using it.")
    (host_call (console_error "Camera error:") w).

(** The change handler of [els.cameraSelect]. *)
Definition camera_changed (w : world) : world :=
  if truthy (stream w) then startCamera w else w.

(** ** [renderEmotions] *)

Definition no_face_markup : string :=
  "<div class=" +:+ dq +:+ "muted" +:+ dq +:+ ">No face detected.</div>".

(** The element built for one entry of the list. *)
Definition emotion_row (e : emotion_entry) : row_el :=
  {| className := "emotion";
     innerHTML :=
       nl +:+ "      <div class=" +:+ dq +:+ "row" +:+ dq +:+ ">" +:+
       nl +:+ "        <span class=" +:+ dq +:+ "name" +:+ dq +:+ ">" +:+
         emotion e +:+ "</span>" +:+
       nl +:+ "        <span class=" +:+ dq +:+ "pct" +:+ dq +:+ ">" +:+
         pct (Fin (score e)) +:+ "</span>" +:+
       nl +:+ "      </div>" +:+
       nl +:+ "      <div class=" +:+ dq +:+ "bar" +:+ dq +:+ "><div class=" +:+
         dq +:+ "fill" +:+ dq +:+ " style=" +:+ dq +:+ "width:" +:+
         pct (Fin (score e)) +:+ dq +:+ "></div></div>" +:+
       nl +:+ "    " |}.

Definition append_row (r : row_el) (w : world) : world :=
  set_emotions_el
    {| markup := markup (emotions_el w); rows := rows (emotions_el w) ++ [r] |} w.

Definition renderEmotions (list : list emotion_entry) (w : world) : world :=
  let w := set_emotions_el {| markup := EmptyString; rows := [] |} w in
  if (length list =? 0)%nat then
    set_emotions_el {| markup := no_face_markup; rows := [] |} w
  else
    foldl (λ w e, append_row (emotion_row e) w) w list.

(** ** [loop], after its [await] *)

(** [(a, b) => b.score - a.score] *)
Definition by_score (a b : emotion_entry) : number :=
  sub (Fin (score b)) (Fin (score a)).

(** [faces[0]?.emotion || []] *)
Definition primary_emotions (faces : list face) : list emotion_entry :=
  match faces with
  | f :: _ => default [] (emotions f)
  | [] => []
  end.

Definition set_text (e : elem) (s : string) (w : world) : world :=
  set_textContent (<[e := s]> (textContent w)) w.

Definition set_width (e : elem) (s : string) (w : world) : world :=
  set_style_width (<[e := s]> (style_width w)) w.

(** The share of [n] in [d], as a percentage capped at 100. *)
Definition capped_percent (n d : number) : number :=
  Math_min (Fin 100) (mul (div n d) (Fin 100)).

(** The part of [loop] from [// draw overlays] to [// summarize]. *)
Definition draw_overlays (r : result) (w : world) : world :=
  let c := overlay_canvas w in
  let w := host_call (clearRect overlay 0 0 (Zpos (width c)) (Zpos (height c))) w in
  let w := set_overlay_canvas
             (canvas_clearRect 0 0 (Zpos (width c)) (Zpos (height c)) c) w in
  let w := host_call (human_draw_canvas overlay) w in
  let w := set_overlay_canvas (canvas_paint draw_canvas (overlay_canvas w)) w in
  let w := host_call (human_draw_face overlay (faces_of r) false) w in
  set_overlay_canvas
    (canvas_paint (draw_face (faces_of r) false) (overlay_canvas w)) w.

(** The part of [loop] from [// summarize] to [// FPS]. *)
Definition summarize (r : result) (w : world) : world :=
  let faces := default [] (faces_of r) in
  let w := set_text facesText (ToString (of_nat (length faces))) w in
  let w := set_width facesBar
             (ToString (capped_percent (of_nat (length faces)) (Fin 5)) +:+ "%") w in
  let emotions := primary_emotions faces in
  let w := renderEmotions emotions w in
  if negb (length emotions =? 0)%nat then
    match sort by_score emotions with
    | top :: _ =>
        let w := set_text moodBadge
                   ("Mood: " +:+ emotion top +:+ " (" +:+ pct (Fin (score top)) +:+ ")") w in
        let w := set_text topMood (emotion top) w in
        set_width topConf (pct (clamp01 (Fin (score top)))) w
    | [] => w
    end
  else
    let w := set_text moodBadge "Mood: —" w in
    let w := set_text topMood "—" w in
    set_width topConf "0%" w.

(** [loop] resumed with the detector's result; [t0] is the time taken
    before the detector was called. *)
Definition loop_resume (t0 : Q) (r : result) (w : world) : world :=
  let w := draw_overlays r w in
  let w := summarize r w in
  let dt := sub (Fin (performance_now w)) (Fin t0) in
  let fps := div (Fin 1000) dt in
  let w := set_text fpsText (toFixed1 fps +:+ " fps") w in
  let w := set_width fpsBar (ToString (capped_percent fps (Fin 60)) +:+ "%") w in
  let '(id, w) := host_requestAnimationFrame w in
  set_rafId (Some id) w.

(** ** [snapshot] *)

Definition snapshot (w : world) : world :=
  if negb (els w video) || negb (els w overlay) then w
  else
    let cw := width (overlay_canvas w) in
    let ch := height (overlay_canvas w) in
    let c := {| width := cw; height := ch; painted := [] |} in
    let c := canvas_paint (drawImage video 0 0 (Some (Zpos cw, Zpos ch))) c in
    let c := canvas_paint (drawImage overlay 0 0 None) c in
    host_call
      (anchor_click
         {| file_name := "mood-" +:+ ToString (of_Z (Date_now w)) +:+ ".png";
            file_type := "image/png";
            file_image := c |}) w.

(** ** [listCameras] *)

Definition listCameras (w : world) : world :=
  suspend listCameras_enumerateDevices (host_call enumerateDevices w).

Definition camera_option (i : nat) (c : device) : option_el :=
  {| opt_value := Some (deviceId c);
     opt_text := if decide (label c = EmptyString)
                 then "Camera " +:+ ToString (of_nat (i + 1))
                 else label c;
     opt_disabled := false |}.

Definition append_option (o : option_el) (w : world) : world :=
  set_select (select_append o (select w)) w.

(** [listCameras] resumed with the enumerated devices. *)
Definition listCameras_devices (devices : list device) (w : world) : world :=
  let cams := filter (λ d, kind d = "videoinput") devices in
  let w := set_select {| options := []; selectedIndex := None |} w in
  if (length cams =? 0)%nat then
    append_option
      {| opt_value := None; opt_text := "No camera found"; opt_disabled := true |} w
  else
    foldl (λ w o, append_option o w) w (imap camera_option cams).

Definition listCameras_catch (w : world) : world :=
  host_call (console_warn "enumerateDevices failed") w.

(** ** [init] *)

Definition init (w : world) : world :=
  let savedTheme := localStorage w !! "theme" in
  let w := host_call (localStorage_getItem "theme") w in
  let w := match savedTheme with
           | Some t => if decide (t = EmptyString) then w
                       else set_data_theme (Some t) w
           | None => w
           end in
  let w := host_call new_Human w in
  suspend init_load (host_call human_load w).

Definition init_loaded (w : world) : world :=
  suspend init_warmup (host_call human_warmup w).

Definition init_catch (w : world) : world :=
  host_call (alert "Failed to load AI models. Check your internet and refresh.")
    (host_call (console_error "Model load error:") w).

Definition init_warmed (w : world) : world :=
  suspend init_getUserMedia (host_call (getUserMedia any_camera) w).

(** [tmp.getTracks().forEach(t => t.stop())], then [listCameras()]. *)
Definition init_permitted (tmp : nat) (w : world) : world :=
  listCameras (stop_tracks tmp w).

(** ** Events *)

(** How an awaited promise settles. *)
Inductive outcome :=
  | rejected
  | fulfilled
  | fulfilled_stream (ntracks : nat)
  | fulfilled_devices (devices : list device)
  | fulfilled_result (r : result).

Inductive event :=
  | click (target : elem)
  | change_camera (i : nat)
  | change_mirror
  | keydown (key : string)
  | animation_frame (id : positive)
  | settle (i : nat) (o : outcome)
  | loadedmetadata (videoWidth videoHeight : N)
  | clock (performance_now : Q) (Date_now : Z).

(** The listeners added under [// Events] and [// Theme toggle]. *)
Definition on_click (target : elem) (w : world) : world :=
  match target with
  | startBtn => startCamera w
  | stopBtn => stopCamera w
  | snapBtn => snapshot w
  | themeToggle => toggle_theme w
  | _ => w
  end.

(** The listener added under [// Keyboard shortcuts]. *)
Definition on_keydown (k : string) (w : world) : world :=
  let key := toLowerCase k in
  let w := if decide (key = "s") then startCamera w else w in
  let w := if decide (key = "x") then stopCamera w else w in
  let w := if decide (key = "c") then snapshot w else w in
  let w := if decide (key = "m")
           then applyMirror (set_checked (negb (checked w)) w) else w in
  if decide (key = "t") then on_click themeToggle w else w.

(** The continuation of a task for an outcome; [None] when the promise the
    task waits for cannot settle that way. *)
Definition resume (t : task) (o : outcome) (w : world) : option world :=
  match t, o with
  | init_load, fulfilled => Some (init_loaded w)
  | init_warmup, fulfilled => Some (init_warmed w)
  | (init_load | init_warmup), rejected => Some (init_catch w)
  | init_getUserMedia, fulfilled_stream n =>
      let '(tmp, w) := new_stream n w in Some (init_permitted tmp w)
  | init_getUserMedia, rejected => Some (listCameras w)
  | listCameras_enumerateDevices, fulfilled_devices ds =>
      Some (listCameras_devices ds w)
  | listCameras_enumerateDevices, rejected => Some (listCameras_catch w)
  | startCamera_getUserMedia, fulfilled_stream n =>
      let '(s, w) := new_stream n w in Some (startCamera_stream s w)
  | startCamera_play, fulfilled => Some (startCamera_playing w)
  | (startCamera_getUserMedia | startCamera_play), rejected =>
      Some (startCamera_catch w)
  | loop_detect t0, fulfilled_result r => Some (loop_resume t0 r w)
  | loop_detect _, rejected => Some w
  | _, _ => None
  end.

(** One turn of the event loop; [None] when the event cannot happen in
    this world. *)
Definition handle (e : event) (w : world) : option world :=
  match e with
  | click target => Some (on_click target w)
  | change_camera i =>
      match options (select w) !! i with
      | Some o =>
          if opt_disabled o then None
          else Some (camera_changed
                       (set_select {| options := options (select w);
                                      selectedIndex := Some i |} w))
      | None => None
      end
  | change_mirror => Some (applyMirror (set_checked (negb (checked w)) w))
  | keydown k => Some (on_keydown k w)
  | animation_frame id =>
      if decide (id ∈ frames w)
      then Some (loop (set_frames (filter (λ i, i ≠ id) (frames w)) w))
      else None
  | settle i o =>
      t ← tasks w !! i;
      resume t o (set_tasks (delete i (tasks w)) w)
  | loadedmetadata vw vh => Some (set_videoSize (vw, vh) w)
  | clock p d => Some (set_Date_now d (set_performance_now p w))
  end.

Fixpoint run (es : list event) (w : world) : option world :=
  match es with
  | [] => Some w
  | e :: es' => w' ← handle e w; run es' w'
  end.

(** ** The script from its first line *)

(** A page that has just been parsed: nothing is pending and nothing has
    been called. *)
Record pristine (w : world) : Prop := {
  pristine_tasks : tasks w = [];
  pristine_frames : frames w = [];
  pristine_tracks : tracks w = ∅;
  pristine_log : log w = []
}.

(** The top level of the script: the variables, then [init] up to its
    first [await]. *)
Definition script (w : world) : world :=
  init (set_rafId None (set_running false (set_stream undefined w))).

(** ** Notions the properties are stated with *)

(** An entry of [l] that no entry of [l] beats. *)
Definition top_of (t : emotion_entry) (l : list emotion_entry) : Prop :=
  t ∈ l ∧ ∀ e, e ∈ l → (score e <= score t)%Q.

(** The three widgets that show the top mood. *)
Record top_widgets := { badge : string; mood : string; confidence : string }.

Definition top_widgets_of (w : world) : top_widgets :=
  {| badge := textContent w moodBadge;
     mood := textContent w topMood;
     confidence := style_width w topConf |}.

(** The percentage [n / 10], written with one decimal. *)
Definition percent_text (n : Z) : string :=
  digits (n / 10) +:+ "." +:+ digits (n mod 10) +:+ "%".

(** ** Reading the log and the events *)

Definition is_storage (c : call) : bool :=
  match c with
  | localStorage_getItem _ | localStorage_setItem _ _ => true
  | _ => false
  end.

(** The calls to [localStorage], in order. *)
Definition storage_calls (l : list call) : list call :=
  filter (λ c, is_storage c) l.

Definition is_detect (c : call) : bool :=
  match c with human_detect _ => true | _ => false end.

(** The events whose listener toggles the theme. *)
Definition toggles_theme (e : event) : bool :=
  match e with
  | click themeToggle => true
  | keydown k => bool_decide (toLowerCase k = "t")
  | _ => false
  end.

(** The events whose listener calls [startCamera] whatever the state. *)
Definition calls_startCamera (e : event) : bool :=
  match e with
  | click startBtn => true
  | keydown k => bool_decide (toLowerCase k = "s")
  | _ => false
  end.

(** The stream [s] still has a live track. *)
Definition live (w : world) (s : nat) : Prop :=
  ∃ ts, tracks w !! s = Some ts ∧ true ∈ ts.

(** [w'] has the storage of [w], and no call to it was made in between. *)
Record quiet (w w' : world) : Prop := {
  quiet_storage : localStorage w' = localStorage w;
  quiet_calls : storage_calls (log w') = storage_calls (log w)
}.

(** From [w] to [w'] the theme was written [n] times, each time as [dark]
    or [light], the storage holds the last value written, and nothing else
    in the storage was read or written. *)
Definition wrote_theme (n : nat) (w w' : world) : Prop :=
  ∃ values : list string,
    length values = n
    ∧ Forall (λ v, v = "dark" ∨ v = "light") values
    ∧ storage_calls (log w') =
        storage_calls (log w) ++ (localStorage_setItem "theme" <$> values)
    ∧ localStorage w' !! "theme" =
        match last values with
        | Some v => Some v
        | None => localStorage w !! "theme"
        end
    ∧ ∀ k, k ≠ "theme" → localStorage w' !! k = localStorage w !! k.

(** The calls to the detector, in order. *)
Definition detections (l : list call) : list call :=
  filter (λ c, is_detect c) l.

(** The tasks that are a suspended [startCamera]. *)
Definition is_startCamera (t : task) : bool :=
  match t with
  | startCamera_getUserMedia | startCamera_play => true
  | _ => false
  end.

(** The camera is off and no call of [startCamera] is suspended. *)
Record stopped (w : world) : Prop := {
  stopped_running : running w = false;
  stopped_stream : truthy (stream w) = false;
  stopped_tasks : Forall (λ t, is_startCamera t = false) (tasks w)
}.

(** [w'] is stopped and the detector was not called since [w]. *)
Definition still_stopped (w w' : world) : Prop :=
  stopped w' ∧ detections (log w') = detections (log w).

(** ** A page to run the script on *)

(** A page with every element of [els], a 300 by 150 overlay, an empty
    storage and nothing pending. *)
Definition page0 : world :=
  {| running := false; rafId := None; stream := undefined;
     els := λ _, true;
     textContent := λ _, EmptyString;
     style_width := λ _, EmptyString;
     style_transform := λ _, EmptyString;
     overlay_canvas := {| width := 300; height := 150; painted := [] |};
     srcObject := None; videoSize := (0%N, 0%N);
     emotions_el := {| markup := EmptyString; rows := [] |};
     select := {| options := []; selectedIndex := None |};
     checked := true; data_theme := None;
     localStorage := ∅; tracks := ∅; next_stream := 0;
     frames := []; next_frame := 1; tasks := [];
     performance_now := 0; Date_now := 0; log := [] |}.

(** A detection result without faces, and one with a face. *)
Definition no_faces : result := {| faces_of := Some [] |}.

Definition one_face : result :=
  {| faces_of :=
       Some [ {| emotions := Some [ {| emotion := "sad"; score := 1 # 4 |};
                                    {| emotion := "happy"; score := 3 # 5 |};
                                    {| emotion := "angry"; score := 3 # 20 |} ] |} ] |}.

(** A page in the middle of a session: stream 0 with two live tracks, two
    frames requested, the second one recorded in [rafId]. *)
Definition page_streaming : world :=
  set_rafId (Some 2%positive)
    (set_frames [1; 2]%positive
       (set_stream (object 0)
          (set_tracks {[ 0%nat := [true; true] ]} page0))).

(** A page with a stream and two cameras in the select, the first one
    chosen. *)
Definition page_two_cameras : world :=
  set_stream (object 0)
    (set_select
       {| options :=
            [ {| opt_value := Some "v1"; opt_text := "Front"; opt_disabled := false |};
              {| opt_value := Some "v2"; opt_text := "Camera 2"; opt_disabled := false |} ];
          selectedIndex := Some 0%nat |} page0).

(** A stand-in for the host's [Number::toString]: numerator, slash,
    denominator. *)
Definition ratio_toString (q : Q) : string :=
  sign_prefix q +:+ digits (Z.abs (Qnum q)) +:+ "/" +:+ digits (Zpos (Qden q)).

(** At most one frame callback is pending and at most one stream is live. *)
Definition single_session (w : world) : Prop :=
  (length (frames w) ≤ 1)%nat ∧ ∀ s1 s2, live w s1 → live w s2 → s1 = s2.

(** The tasks that belong to a capture session: a suspended [startCamera]
    or a suspended [loop]. *)
Definition is_session (t : task) : bool :=
  match t with
  | startCamera_getUserMedia | startCamera_play | loop_detect _ => true
  | _ => false
  end.

(** What can still run of the capture sessions: their suspended tasks and
    their pending frame callbacks. *)
Definition chains (w : world) : nat :=
  length (filter (λ t, is_session t) (tasks w)) + length (frames w).

(** No task of a capture session is suspended. *)
Definition idle (w : world) : Prop :=
  Forall (λ t, is_session t = false) (tasks w).

(** The listener of [e] calls [startCamera] in the world [w]. *)
Definition starts (e : event) (w : world) : bool :=
  calls_startCamera e
  || match e with change_camera _ => truthy (stream w) | _ => false end.

(** A run in which [startCamera] is only called while no task of a capture
    session is suspended. *)
Fixpoint orderly (es : list event) (w : world) : Prop :=
  match es with
  | [] => True
  | e :: es' =>
      (starts e w = true → idle w)
      ∧ match handle e w with
        | Some w' => orderly es' w'
        | None => True
        end
  end.

(** What holds of the capture sessions along an orderly run. *)
Record session_inv (w : world) : Prop := {
  inv_chains : (chains w ≤ 1)%nat;
  inv_rafId : ∀ f, f ∈ frames w → rafId w = Some f;
  inv_live : ∀ s, live w s → stream w = object s;
  inv_acquiring : startCamera_getUserMedia ∈ tasks w → ∀ s, ¬ live w s
}.

(** [w'] differs from [w] in nothing a capture session depends on, except
    for tracks stopped and tasks of [init] and [listCameras] suspended in
    between. *)
Record harmless (w w' : world) : Prop := {
  harmless_frames : frames w' = frames w;
  harmless_rafId : rafId w' = rafId w;
  harmless_stream : stream w' = stream w;
  harmless_live : ∀ s, live w' s → live w s;
  harmless_tasks : ∃ ts, tasks w' = tasks w ++ ts
                         ∧ Forall (λ t, is_session t = false) ts
}.

(** * Properties *)

#[local] Arguments ToString : simpl never.
#[local] Arguments toFixed1 : simpl never.
#[local] Arguments pct : simpl never.
#[local] Arguments capped_percent : simpl never.
#[local] Arguments clamp01 : simpl never.
#[local] Arguments sort : simpl never.
#[local] Arguments round53 : simpl never.

(** ** The script on small inputs *)

Example pct_of_a_score : pct (Fin (57 # 100)) = "57.0%".
Proof. by vm_compute. Qed.

Example pct_rounds_half_up : pct (Fin (1 # 400)) = "0.3%".
Proof. by vm_compute. Qed.

(** The binary64 number nearest to 0.0015: a hundred times it is above
    0.15, the product as binary64 rounds it is the number nearest to 0.15,
    which is below it. *)
Example pct_rounds_the_product :
  pct (Fin (3458764513820541 # 2305843009213693952)) = "0.1%"
  ∧ (15 # 100 < (3458764513820541 # 2305843009213693952) * 100)%Q
  ∧ (round53 ((3458764513820541 # 2305843009213693952) * 100) < 15 # 100)%Q.
Proof. by vm_compute. Qed.

Example pct_of_a_small_negative : pct (Fin (-1 # 5000)) = "-0.0%".
Proof. by vm_compute. Qed.

Example clamp01_above : clamp01 (Fin (3 # 2)) = Fin 1.
Proof. by vm_compute. Qed.

Example clamp01_NaN : clamp01 NaN = NaN.
Proof. reflexivity. Qed.

Example fps_of_no_time : toFixed1 (div (Fin 1000) (sub (Fin 16) (Fin 16))) = "Infinity".
Proof. by vm_compute. Qed.

Example sort_is_stable :
  emotion <$> sort by_score
    [ {| emotion := "sad"; score := 1 # 4 |};
      {| emotion := "happy"; score := 3 # 5 |};
      {| emotion := "neutral"; score := 6 # 10 |};
      {| emotion := "angry"; score := 3 # 20 |} ]
  = ["happy"; "neutral"; "sad"; "angry"].
Proof. by vm_compute. Qed.

Example one_frame_on_page0 :
  let w := loop_resume 0 one_face (set_performance_now 16 page0) in
  textContent w moodBadge = "Mood: happy (60.0%)"
  ∧ textContent w topMood = "happy"
  ∧ style_width w topConf = "60.0%"
  ∧ textContent w facesText = "1"
  ∧ style_width w facesBar = "20%"
  ∧ textContent w fpsText = "62.5 fps"
  ∧ style_width w fpsBar = "100%"
  ∧ rafId w = Some 1%positive.
Proof. by vm_compute. Qed.

Example cameras_on_page0 :
  options (select (listCameras_devices
    [ {| kind := "audioinput"; deviceId := "a1"; label := "Microphone" |};
      {| kind := "videoinput"; deviceId := "v1"; label := "Front" |};
      {| kind := "videoinput"; deviceId := "v2"; label := EmptyString |} ] page0))
  = [ {| opt_value := Some "v1"; opt_text := "Front"; opt_disabled := false |};
      {| opt_value := Some "v2"; opt_text := "Camera 2"; opt_disabled := false |} ].
Proof. by vm_compute. Qed.

Example snapshot_without_overlay :
  snapshot (set_els (λ e, bool_decide (e ≠ overlay)) page0)
  = set_els (λ e, bool_decide (e ≠ overlay)) page0.
Proof. reflexivity. Qed.

Example snapshot_file_name :
  log (snapshot (set_Date_now 1700000000000 page0)) =
    [ anchor_click
        {| file_name := "mood-1700000000000.png"; file_type := "image/png";
           file_image :=
             {| width := 300; height := 150;
                painted := [ drawImage video 0 0 (Some (300, 150));
                             drawImage overlay 0 0 None ] |} |} ].
Proof. by vm_compute. Qed.

(** ** Numbers and sorting *)

Lemma Qltb_lt (a b : Q) : Qltb a b = true ↔ (a < b)%Q.
Proof.
  unfold Qltb. rewrite negb_true_iff, <- not_true_iff_false, Qle_bool_iff.
  split; [apply Qnot_le_lt | apply Qlt_not_le].
Qed.

Lemma Qltb_ge (a b : Q) : Qltb a b = false ↔ (b <= a)%Q.
Proof. unfold Qltb. by rewrite negb_false_iff, Qle_bool_iff. Qed.

(** ** Rounding to 53 bits

    Powers of two. *)
Lemma Qpow2_pos (e : Z) : (0 < 2 ^ e)%Q.
Proof. apply Qpower_0_lt. reflexivity. Qed.

Lemma Qpow2_plus (n m : Z) : (2 ^ (n + m) == 2 ^ n * 2 ^ m)%Q.
Proof. apply Qpower_plus. discriminate. Qed.

Lemma Qpow2_le (n m : Z) : n <= m -> (2 ^ n <= 2 ^ m)%Q.
Proof. intros H. apply Qpower_le_compat_l; [exact H | discriminate]. Qed.

Lemma Qpow2_lt_inv (n m : Z) : (2 ^ n < 2 ^ m)%Q -> n < m.
Proof. intros H. apply (Qpower_lt_compat_l_inv 2); [exact H | reflexivity]. Qed.

Lemma Qpow2_Z (n : Z) : 0 <= n -> (inject_Z (2 ^ n) == 2 ^ n)%Q.
Proof. intros H. apply (Zpower_Qpower 2 n H). Qed.

Lemma Qlog2_spec (x : Q) :
  (0 < x)%Q -> (2 ^ Qlog2 x <= x)%Q /\ (x < 2 ^ (Qlog2 x + 1))%Q.
Proof.
  intros Hx. destruct x as [a b].
  assert (0 < a) as Ha.
  { unfold Qlt in Hx. simpl in Hx. lia. }
  unfold Qlog2. cbn [Qnum Qden].
  set (la := Z.log2 a). set (lb := Z.log2 (Z.pos b)).
  destruct (Z.log2_spec a Ha) as [Ha1 Ha2]. fold la in Ha1, Ha2.
  destruct (Z.log2_spec (Z.pos b) eq_refl) as [Hb1 Hb2]. fold lb in Hb1, Hb2.
  assert (0 <= la) as Hla by apply Z.log2_nonneg.
  assert (0 <= lb) as Hlb by apply Z.log2_nonneg.
  assert (inject_Z (2 ^ la) <= inject_Z a)%Q as QA1 by (rewrite <- Zle_Qle; exact Ha1).
  assert (inject_Z a < inject_Z (2 ^ Z.succ la))%Q as QA2 by (rewrite <- Zlt_Qlt; exact Ha2).
  assert (inject_Z (2 ^ lb) <= inject_Z (Z.pos b))%Q as QB1 by (rewrite <- Zle_Qle; exact Hb1).
  assert (inject_Z (Z.pos b) < inject_Z (2 ^ Z.succ lb))%Q as QB2 by (rewrite <- Zlt_Qlt; exact Hb2).
  rewrite Qpow2_Z in QA1, QA2, QB1, QB2 by lia.
  unfold Z.succ in QA2, QB2. rewrite Qpow2_plus in QA2, QB2.
  change (2 ^ 1)%Q with 2%Q in QA2, QB2.
  assert (0 < inject_Z (Z.pos b))%Q as HB by reflexivity.
  assert (a # b == inject_Z a / inject_Z (Z.pos b))%Q as Hab by apply Qmake_Qdiv.
  assert ((a # b) * inject_Z (Z.pos b) == inject_Z a)%Q as Hmul.
  { rewrite Hab. field. intros H0. rewrite H0 in HB. discriminate. }
  pose proof (Qpow2_pos la) as Pla. pose proof (Qpow2_pos lb) as Plb.
  pose proof (Qpow2_pos (la - lb)) as Pl.
  assert (2 ^ la == 2 ^ (la - lb) * 2 ^ lb)%Q as Hsplit.
  { rewrite <- Qpow2_plus. replace (la - lb + lb) with la by lia. reflexivity. }
  assert (2 ^ (la - lb) == 2 * 2 ^ (la - lb - 1))%Q as Hhalf.
  { change 2%Q with (2 ^ 1)%Q at 2. rewrite <- Qpow2_plus.
    replace (1 + (la - lb - 1)) with (la - lb) by lia. reflexivity. }
  assert (2 ^ (la - lb + 1) == 2 ^ (la - lb) * 2)%Q as Hdbl.
  { rewrite Qpow2_plus. reflexivity. }
  set (X := (a # b)%Q) in *. set (A := inject_Z a) in *.
  set (B := inject_Z (Z.pos b)) in *.
  set (PA := (2 ^ la)%Q) in *. set (PB := (2 ^ lb)%Q) in *.
  set (PL := (2 ^ (la - lb))%Q) in *.
  assert (X < PL * 2)%Q as Hup.
  { apply Qnot_le_lt. intros Hc. clearbody X A B PA PB PL. nra. }
  destruct (Qle_bool PL X) eqn:Hle.
  - apply Qle_bool_iff in Hle. split; [exact Hle |]. fold PL. rewrite Hdbl. exact Hup.
  - assert (X < PL)%Q as Hlt.
    { apply Qnot_le_lt. intros Hc. apply Qle_bool_iff in Hc. congruence. }
    replace (la - lb - 1 + 1) with (la - lb) by lia. fold PL.
    split; [| exact Hlt].
    set (PH := (2 ^ (la - lb - 1))%Q) in *.
    pose proof (Qpow2_pos (la - lb - 1)) as PHpos. fold PH in PHpos.
    apply Qnot_lt_le. intros Hc. clearbody X A B PA PB PL PH. nra.
Qed.

Lemma Qlog2_unique (x : Q) (l : Z) :
  (2 ^ l <= x)%Q -> (x < 2 ^ (l + 1))%Q -> Qlog2 x = l.
Proof.
  intros H1 H2.
  assert (0 < x)%Q as Hx.
  { eapply Qlt_le_trans; [apply (Qpow2_pos l) | exact H1]. }
  destruct (Qlog2_spec x Hx) as [H3 H4].
  assert (l < Qlog2 x + 1).
  { apply Qpow2_lt_inv. eapply Qle_lt_trans; [exact H1 | exact H4]. }
  assert (Qlog2 x < l + 1).
  { apply Qpow2_lt_inv. eapply Qle_lt_trans; [exact H3 | exact H2]. }
  lia.
Qed.

Lemma Qlog2_comp (x y : Q) : (0 < x)%Q -> (x == y)%Q -> Qlog2 x = Qlog2 y.
Proof.
  intros Hx Hxy. symmetry. destruct (Qlog2_spec x Hx) as [H1 H2].
  apply Qlog2_unique; rewrite <- Hxy; assumption.
Qed.

Lemma Qlog2_mono (x y : Q) : (0 < x)%Q -> (x <= y)%Q -> Qlog2 x <= Qlog2 y.
Proof.
  intros Hx Hxy.
  assert (0 < y)%Q as Hy by (eapply Qlt_le_trans; eassumption).
  destruct (Qlog2_spec x Hx) as [H1 _]. destruct (Qlog2_spec y Hy) as [_ H2].
  assert (Qlog2 x < Qlog2 y + 1); [| lia].
  apply Qpow2_lt_inv. eapply Qle_lt_trans; [exact H1 |].
  eapply Qle_lt_trans; [exact Hxy | exact H2].
Qed.

(** The nearest integer, ties to even. *)
Lemma nearest_even_bounds (s : Q) :
  Qfloor s <= nearest_even s <= Qfloor s + 1.
Proof.
  unfold nearest_even.
  destruct (s - inject_Z (Qfloor s) ?= 1 # 2)%Q; [destruct (Z.even _) | |]; lia.
Qed.

Lemma nearest_even_close (s : Q) :
  (inject_Z (nearest_even s) - s <= 1 # 2)%Q /\ (s - inject_Z (nearest_even s) <= 1 # 2)%Q.
Proof.
  unfold nearest_even.
  pose proof (Qfloor_le s) as Hlo. pose proof (Qlt_floor s) as Hhi.
  rewrite inject_Z_plus in Hhi. change (inject_Z 1) with 1%Q in Hhi.
  destruct (Qcompare_spec (s - inject_Z (Qfloor s)) (1 # 2)) as [He | Hl | Hg].
  - destruct (Z.even (Qfloor s)).
    + split; lra.
    + rewrite inject_Z_plus. change (inject_Z 1) with 1%Q. split; lra.
  - split; lra.
  - rewrite inject_Z_plus. change (inject_Z 1) with 1%Q. split; lra.
Qed.

Lemma nearest_even_comp (s t : Q) : (s == t)%Q -> nearest_even s = nearest_even t.
Proof.
  intros H. unfold nearest_even. rewrite (Qfloor_comp _ _ H).
  assert (s - inject_Z (Qfloor t) == t - inject_Z (Qfloor t))%Q as -> by (rewrite H; reflexivity).
  reflexivity.
Qed.

Lemma nearest_even_Z (z : Z) : nearest_even (inject_Z z) = z.
Proof.
  unfold nearest_even. rewrite Qfloor_Z.
  destruct (Qcompare_spec (inject_Z z - inject_Z z) (1 # 2)) as [He | Hl | Hg].
  - exfalso. lra.
  - reflexivity.
  - exfalso. lra.
Qed.

Lemma nearest_even_mono (s t : Q) : (s <= t)%Q -> nearest_even s <= nearest_even t.
Proof.
  intros Hst. pose proof (Qfloor_resp_le _ _ Hst) as Hf.
  destruct (Z.eq_dec (Qfloor s) (Qfloor t)) as [Heq | Hne].
  - unfold nearest_even. rewrite Heq.
    destruct (Qcompare_spec (s - inject_Z (Qfloor t)) (1 # 2)) as [He | Hl | Hg];
      destruct (Qcompare_spec (t - inject_Z (Qfloor t)) (1 # 2)) as [He' | Hl' | Hg'];
      try destruct (Z.even (Qfloor t)); try lia; exfalso; lra.
  - pose proof (nearest_even_bounds s). pose proof (nearest_even_bounds t). lia.
Qed.

(** The significand lies between [2^52] and [2^53]. *)
Lemma scaled_bounds (x : Q) :
  (0 < x)%Q ->
  (inject_Z (2 ^ 52) <= x / 2 ^ (Qlog2 x - 52))%Q
  /\ (x / 2 ^ (Qlog2 x - 52) <= inject_Z (2 ^ 53))%Q.
Proof.
  intros Hx. destruct (Qlog2_spec x Hx) as [H1 H2].
  pose proof (Qpow2_pos (Qlog2 x - 52)) as He.
  assert (2 ^ Qlog2 x == inject_Z (2 ^ 52) * 2 ^ (Qlog2 x - 52))%Q as E1.
  { rewrite Qpow2_Z by lia. rewrite <- Qpow2_plus.
    replace (52 + (Qlog2 x - 52)) with (Qlog2 x) by lia. reflexivity. }
  assert (2 ^ (Qlog2 x + 1) == inject_Z (2 ^ 53) * 2 ^ (Qlog2 x - 52))%Q as E2.
  { rewrite Qpow2_Z by lia. rewrite <- Qpow2_plus.
    replace (53 + (Qlog2 x - 52)) with (Qlog2 x + 1) by lia. reflexivity. }
  split.
  - apply Qle_shift_div_l; [exact He |]. rewrite <- E1. exact H1.
  - apply Qle_shift_div_r; [exact He |]. rewrite <- E2. apply Qlt_le_weak. exact H2.
Qed.

Lemma significand_bounds (x : Q) :
  (0 < x)%Q ->
  2 ^ 52 <= nearest_even (x / 2 ^ (Qlog2 x - 52)) <= 2 ^ 53.
Proof.
  intros Hx. destruct (scaled_bounds x Hx) as [H1 H2].
  apply nearest_even_mono in H1, H2. rewrite nearest_even_Z in H1, H2. lia.
Qed.

Lemma round53_pos_positive (x : Q) : (0 < x)%Q -> (0 < round53_pos x)%Q.
Proof.
  intros Hx. unfold round53_pos. cbv zeta.
  destruct (significand_bounds x Hx) as [Hm _].
  apply Qmult_lt_0_compat; [| apply Qpow2_pos].
  change 0%Q with (inject_Z 0). rewrite <- Zlt_Qlt.
  assert (0 < 2 ^ 52) by reflexivity. lia.
Qed.

Lemma round53_pos_comp (x y : Q) :
  (0 < x)%Q -> (x == y)%Q -> round53_pos x = round53_pos y.
Proof.
  intros Hx Hxy. unfold round53_pos. cbv zeta.
  rewrite (Qlog2_comp x y Hx Hxy).
  rewrite (nearest_even_comp (x / 2 ^ (Qlog2 y - 52)) (y / 2 ^ (Qlog2 y - 52)));
    [reflexivity |].
  rewrite Hxy. reflexivity.
Qed.

Lemma round53_pos_mono (x y : Q) :
  (0 < x)%Q -> (x <= y)%Q -> (round53_pos x <= round53_pos y)%Q.
Proof.
  intros Hx Hxy.
  assert (0 < y)%Q as Hy by (eapply Qlt_le_trans; eassumption).
  pose proof (Qlog2_mono x y Hx Hxy) as Hl.
  unfold round53_pos. cbv zeta.
  destruct (Z.eq_dec (Qlog2 x) (Qlog2 y)) as [Heq | Hne].
  - rewrite Heq. pose proof (Qpow2_pos (Qlog2 y - 52)) as He.
    apply Qmult_le_compat_r; [| apply Qlt_le_weak; exact He].
    rewrite <- Zle_Qle. apply nearest_even_mono.
    apply Qmult_le_compat_r; [exact Hxy |].
    apply Qlt_le_weak, Qinv_lt_0_compat. exact He.
  - destruct (significand_bounds x Hx) as [_ Hmx].
    destruct (significand_bounds y Hy) as [Hmy _].
    set (mx := nearest_even (x / 2 ^ (Qlog2 x - 52))) in *.
    set (my := nearest_even (y / 2 ^ (Qlog2 y - 52))) in *.
    pose proof (Qpow2_pos (Qlog2 x - 52)) as Hex.
    pose proof (Qpow2_pos (Qlog2 y - 52)) as Hey.
    apply Qle_trans with (inject_Z (2 ^ 53) * 2 ^ (Qlog2 x - 52))%Q.
    { apply Qmult_le_compat_r; [| apply Qlt_le_weak; exact Hex].
      rewrite <- Zle_Qle. exact Hmx. }
    apply Qle_trans with (inject_Z (2 ^ 52) * 2 ^ (Qlog2 y - 52))%Q.
    { rewrite !Qpow2_Z by lia. rewrite <- !Qpow2_plus. apply Qpow2_le. lia. }
    apply Qmult_le_compat_r; [| apply Qlt_le_weak; exact Hey].
    rewrite <- Zle_Qle. exact Hmy.
Qed.

Lemma round53_pos_error (x : Q) :
  (0 < x)%Q ->
  (Qabs (round53_pos x - x) <= x / inject_Z (2 ^ 53))%Q.
Proof.
  intros Hx. destruct (Qlog2_spec x Hx) as [H1 _].
  unfold round53_pos. cbv zeta.
  set (e := Qlog2 x - 52) in *.
  pose proof (Qpow2_pos e) as He.
  destruct (nearest_even_close (x / 2 ^ e)) as [Hc1 Hc2].
  set (m := inject_Z (nearest_even (x / 2 ^ e))) in *.
  assert (x / 2 ^ e * 2 ^ e == x)%Q as Hs.
  { field. intros H0. rewrite H0 in He. discriminate. }
  assert (2 ^ Qlog2 x == inject_Z (2 ^ 53) * (2 ^ e * (1 # 2)))%Q as E1.
  { rewrite Qpow2_Z by lia.
    assert (2 ^ 53 == 2 ^ 52 * 2)%Q as -> by reflexivity.
    assert (2 ^ 52 * 2 * (2 ^ e * (1 # 2)) == 2 ^ 52 * 2 ^ e)%Q as -> by ring.
    rewrite <- Qpow2_plus. unfold e.
    replace (52 + (Qlog2 x - 52)) with (Qlog2 x) by lia. reflexivity. }
  apply Qle_shift_div_l; [reflexivity |].
  apply Qle_trans with (2 ^ Qlog2 x)%Q; [| exact H1].
  rewrite E1, (Qmult_comm (inject_Z (2 ^ 53))).
  apply Qmult_le_compat_r; [| discriminate].
  apply Qabs_Qle_condition.
  set (s := (x / 2 ^ e)%Q) in *. set (p := (2 ^ e)%Q) in *.
  clearbody m s p. split; nra.
Qed.

(** [round53] respects equality of rationals, keeps the sign and the
    order, and errs by at most one part in [2^53]. *)
Lemma round53_comp (x y : Q) : (x == y)%Q -> round53 x = round53 y.
Proof.
  intros Hxy. unfold round53. rewrite (Qcompare_comp x y Hxy 0%Q 0%Q (Qeq_refl 0%Q)).
  destruct (Qcompare_spec y 0) as [He | Hl | Hg].
  - reflexivity.
  - f_equal. apply round53_pos_comp; [rewrite Hxy; lra | rewrite Hxy; reflexivity].
  - apply round53_pos_comp; [rewrite Hxy; exact Hg | exact Hxy].
Qed.

Lemma round53_0 (x : Q) : (x == 0)%Q -> round53 x = 0%Q.
Proof. intros H. rewrite (round53_comp x 0 H). reflexivity. Qed.

Lemma round53_sign (x : Q) : (0 < round53 x)%Q <-> (0 < x)%Q.
Proof.
  unfold round53. destruct (Qcompare_spec x 0) as [He | Hl | Hg].
  - split; intros H; [discriminate | lra].
  - assert (0 < round53_pos (- x))%Q by (apply round53_pos_positive; lra).
    split; intros H'; lra.
  - split; intros _; [exact Hg | apply round53_pos_positive; exact Hg].
Qed.

Lemma round53_nonneg (x : Q) : (0 <= x)%Q -> (0 <= round53 x)%Q.
Proof.
  intros Hx. unfold round53. destruct (Qcompare_spec x 0) as [He | Hl | Hg].
  - discriminate.
  - lra.
  - apply Qlt_le_weak, round53_pos_positive, Hg.
Qed.

Lemma round53_mono (x y : Q) : (x <= y)%Q -> (round53 x <= round53 y)%Q.
Proof.
  intros Hxy. unfold round53.
  destruct (Qcompare_spec x 0) as [Hx | Hx | Hx];
    destruct (Qcompare_spec y 0) as [Hy | Hy | Hy]; try (exfalso; lra).
  - discriminate.
  - apply Qlt_le_weak, round53_pos_positive, Hy.
  - assert (0 < round53_pos (- x))%Q by (apply round53_pos_positive; lra). lra.
  - assert (round53_pos (- y) <= round53_pos (- x))%Q
      by (apply round53_pos_mono; lra). lra.
  - assert (0 < round53_pos (- x))%Q by (apply round53_pos_positive; lra).
    assert (0 < round53_pos y)%Q by (apply round53_pos_positive; lra). lra.
  - apply round53_pos_mono; assumption.
Qed.

Lemma round53_error (x : Q) :
  (Qabs (round53 x - x) <= Qabs x / inject_Z (2 ^ 53))%Q.
Proof.
  unfold round53. destruct (Qcompare_spec x 0) as [Hx | Hx | Hx].
  - rewrite Hx. discriminate.
  - assert (0 < - x)%Q as Hn by lra.
    pose proof (round53_pos_error (- x) Hn) as H.
    assert (- round53_pos (- x) - x == - (round53_pos (- x) - - x))%Q as -> by ring.
    rewrite Qabs_opp. rewrite (Qabs_neg x) by lra. exact H.
  - rewrite (Qabs_pos x) by lra. apply round53_pos_error; exact Hx.
Qed.

(** A natural number below [10^21] is printed as its decimal digits. *)
Lemma ToString_natural (z : Z) :
  0 ≤ z < 10 ^ 21 → ToString (of_Z z) = digits z.
Proof.
  intros [H0 H21]. unfold ToString, of_Z.
  assert (Qabs (inject_Z z) = inject_Z z) as ->.
  { unfold inject_Z, Qabs. by rewrite Z.abs_eq. }
  assert (is_integer (inject_Z z) = true) as ->.
  { unfold is_integer. rewrite Qfloor_Z. apply Qeq_bool_refl. }
  assert (Qltb (inject_Z z) ten21 = true) as ->.
  { apply Qltb_lt. unfold ten21. by rewrite <- Zlt_Qlt. }
  assert (sign_prefix (inject_Z z) = EmptyString) as ->.
  { unfold sign_prefix.
    assert (Qltb (inject_Z z) 0 = false) as ->; [| done].
    apply Qltb_ge. change 0%Q with (inject_Z 0). by rewrite <- Zle_Qle. }
  by rewrite Qfloor_Z.
Qed.

Lemma clamp01_finite (q : Q) : clamp01 (Fin q) = Fin (Qmax 0 (Qmin 1 q)).
Proof. reflexivity. Qed.

Lemma clamp01_bounds (q : Q) :
  (0 <= Qmax 0 (Qmin 1 q))%Q ∧ (Qmax 0 (Qmin 1 q) <= 1)%Q.
Proof.
  split; [apply Q.le_max_l |].
  apply Q.max_lub; [done | apply Q.le_min_l].
Qed.

Lemma by_score_positive (a b : emotion_entry) :
  positive_number (by_score a b) = true ↔ (score a < score b)%Q.
Proof.
  unfold by_score; simpl. rewrite Qltb_lt, round53_sign.
  split; intros H.
  - apply Qlt_minus_iff. exact H.
  - apply Qlt_minus_iff in H. exact H.
Qed.

Lemma sort_insert_top (x t : emotion_entry) (rest l : list emotion_entry) :
  top_of t l →
  ∃ t' rest', sort_insert by_score x (t :: rest) = t' :: rest'
              ∧ top_of t' (x :: l).
Proof.
  intros [Hin Hmax]. cbn [sort_insert].
  destruct (positive_number (by_score x t)) eqn:Hc.
  - apply by_score_positive in Hc.
    exists t, (sort_insert by_score x rest). split; [done |].
    split; [by apply list_elem_of_further |].
    intros e [-> | He]%elem_of_cons; [by apply Qlt_le_weak | by apply Hmax].
  - exists x, (t :: rest). split; [done |].
    split; [apply list_elem_of_here |].
    assert (score t <= score x)%Q as Htx.
    { apply Qnot_lt_le. intros Hlt. apply by_score_positive in Hlt. congruence. }
    intros e [-> | He]%elem_of_cons; [apply Qle_refl |].
    eapply Qle_trans; [by apply Hmax | done].
Qed.

Lemma sort_top (l : list emotion_entry) :
  l ≠ [] → ∃ t rest, sort by_score l = t :: rest ∧ top_of t l.
Proof.
  induction l as [| x l IH]; [done | intros _].
  destruct l as [| y l].
  - exists x, []. split; [done |]. split; [apply list_elem_of_here |].
    intros e ->%list_elem_of_singleton. apply Qle_refl.
  - destruct IH as (t & rest & Hs & Ht); [done |].
    change (sort by_score (x :: y :: l))
      with (sort_insert by_score x (sort by_score (y :: l))).
    rewrite Hs. by apply sort_insert_top.
Qed.

(** ** What [renderEmotions] and [summarize] write *)

Lemma append_rows_eq (es : list emotion_entry) (w : world) :
  foldl (λ w e, append_row (emotion_row e) w) w es =
    set_emotions_el
      {| markup := markup (emotions_el w);
         rows := rows (emotions_el w) ++ (emotion_row <$> es) |} w.
Proof.
  revert w. induction es as [| e es IH]; intros w; simpl.
  - rewrite app_nil_r. by destruct w as [? ? ? ? ? ? ? ? ? ? [] ? ? ? ? ? ? ? ? ? ? ? ?].
  - rewrite IH. unfold append_row, set_emotions_el. simpl. by rewrite <- app_assoc.
Qed.

Lemma renderEmotions_eq (es : list emotion_entry) (w : world) :
  renderEmotions es w =
    set_emotions_el
      (if decide (es = []) then {| markup := no_face_markup; rows := [] |}
       else {| markup := EmptyString; rows := emotion_row <$> es |}) w.
Proof.
  unfold renderEmotions. destruct es as [| e es]; [done |].
  change (length (e :: es) =? 0)%nat with false. cbv iota.
  by rewrite append_rows_eq.
Qed.

Lemma summarize_top (r : result) (w : world) :
  let es := primary_emotions (default [] (faces_of r)) in
  top_widgets_of (summarize r w) =
    match sort by_score es with
    | top :: _ =>
        {| badge := "Mood: " +:+ emotion top +:+ " (" +:+ pct (Fin (score top)) +:+ ")";
           mood := emotion top;
           confidence := pct (clamp01 (Fin (score top))) |}
    | [] =>
        if decide (es = [])
        then {| badge := "Mood: —"; mood := "—"; confidence := "0%" |}
        else top_widgets_of w
    end.
Proof.
  intros es. unfold summarize. fold es. rewrite renderEmotions_eq.
  destruct es as [| e es'] eqn:Hes; [done |].
  change (negb (length (e :: es') =? 0)%nat) with true. cbv iota.
  by destruct (sort by_score (e :: es')).
Qed.

Lemma summarize_emotions_el (r : result) (w : world) :
  let es := primary_emotions (default [] (faces_of r)) in
  emotions_el (summarize r w) =
    if decide (es = []) then {| markup := no_face_markup; rows := [] |}
    else {| markup := EmptyString; rows := emotion_row <$> es |}.
Proof.
  intros es. unfold summarize. fold es. rewrite renderEmotions_eq.
  destruct (negb (length es =? 0)%nat); [destruct (sort by_score es) |]; done.
Qed.

Lemma summarize_facesBar (r : result) (w : world) :
  style_width (summarize r w) facesBar =
    ToString (capped_percent (of_nat (length (default [] (faces_of r)))) (Fin 5)) +:+ "%".
Proof.
  unfold summarize. rewrite renderEmotions_eq.
  destruct (negb (length _ =? 0)%nat); [destruct (sort by_score _) |]; done.
Qed.

Lemma summarize_performance_now (r : result) (w : world) :
  performance_now (summarize r w) = performance_now w.
Proof.
  unfold summarize. rewrite renderEmotions_eq.
  destruct (negb (length _ =? 0)%nat); [destruct (sort by_score _) |]; done.
Qed.

Lemma loop_resume_fpsBar (t0 : Q) (r : result) (w : world) :
  style_width (loop_resume t0 r w) fpsBar =
    ToString
      (capped_percent (div (Fin 1000) (Fin (round53 (performance_now w - t0))))
         (Fin 60))
    +:+ "%".
Proof.
  change (style_width (loop_resume t0 r w) fpsBar)
    with (ToString
            (capped_percent
               (div (Fin 1000)
                  (Fin (round53
                          (performance_now (summarize r (draw_overlays r w)) - t0))))
               (Fin 60)) +:+ "%").
  by rewrite summarize_performance_now.
Qed.

Lemma loop_resume_top (t0 : Q) (r : result) (w : world) :
  top_widgets_of (loop_resume t0 r w) = top_widgets_of (summarize r (draw_overlays r w)).
Proof. reflexivity. Qed.

Lemma loop_resume_emotions_el (t0 : Q) (r : result) (w : world) :
  emotions_el (loop_resume t0 r w) = emotions_el (summarize r (draw_overlays r w)).
Proof. reflexivity. Qed.

(** ** One decimal *)

Lemma string_app_assoc (a b c : string) : (a +:+ b) +:+ c = a +:+ b +:+ c.
Proof.
  induction a as [| x a IH]; [done |].
  change (String x ((a +:+ b) +:+ c) = String x (a +:+ b +:+ c)).
  by rewrite IH.
Qed.

Lemma nearest_tenth_close (x : Q) :
  let n := inject_Z (nearest_tenth x) in
  (n / 10 - x <= 1 # 20)%Q ∧ (x - n / 10 < 1 # 20)%Q.
Proof.
  unfold nearest_tenth.
  pose proof (Qfloor_le (x * 10 + (1 # 2))) as Hlo.
  pose proof (Qlt_floor (x * 10 + (1 # 2))) as Hhi.
  rewrite inject_Z_plus in Hhi. change (inject_Z 1) with 1%Q in Hhi.
  set (n := inject_Z (Qfloor (x * 10 + (1 # 2)))) in *. clearbody n.
  simpl. unfold Qdiv. change (/ 10)%Q with (1 # 10)%Q. split; lra.
Qed.

Lemma nearest_tenth_range (x : Q) :
  (0 <= x)%Q → (x <= 100)%Q → 0 ≤ nearest_tenth x ≤ 1000.
Proof.
  intros H0 H100. unfold nearest_tenth. split.
  - change 0 with (Qfloor 0). apply Qfloor_resp_le. lra.
  - change 1000 with (Qfloor (1000 + (1 # 2))). apply Qfloor_resp_le. lra.
Qed.

Lemma toFixed1_percentage (x : Q) :
  (0 <= x)%Q → (x <= 100)%Q →
  toFixed1 (Fin x) +:+ "%" = percent_text (nearest_tenth x).
Proof.
  intros H0 H100.
  assert (Qabs x == x)%Q as Habs by by apply Qabs_pos.
  unfold toFixed1, percent_text.
  assert (Qle_bool ten21 (Qabs x) = false) as ->.
  { apply not_true_iff_false. rewrite Qle_bool_iff. unfold ten21.
    intros Hle. assert (inject_Z (10 ^ 21) <= 100)%Q as Hbad by lra.
    revert Hbad. by vm_compute. }
  assert (sign_prefix x = EmptyString) as ->.
  { unfold sign_prefix. by apply Qltb_ge in H0 as ->. }
  assert (nearest_tenth (Qabs x) = nearest_tenth x) as ->.
  { unfold nearest_tenth. apply Qfloor_comp. by rewrite Habs. }
  change (EmptyString +:+ ?s) with s. by rewrite !string_app_assoc.
Qed.

Lemma round53_1 : (round53 1 == 1)%Q.
Proof. by vm_compute. Qed.

Lemma round53_100 : (round53 100 == 100)%Q.
Proof. by vm_compute. Qed.

Lemma round53_ge_1 (x : Q) : (1 <= x)%Q → (1 <= round53 x)%Q.
Proof.
  intros H. apply Qle_trans with (round53 1); [| by apply round53_mono].
  apply Qle_lteq. right. symmetry. exact round53_1.
Qed.

Lemma round53_ge_100 (x : Q) : (100 <= x)%Q → (100 <= round53 x)%Q.
Proof.
  intros H. apply Qle_trans with (round53 100); [| by apply round53_mono].
  apply Qle_lteq. right. symmetry. exact round53_100.
Qed.

Lemma round53_le_100 (x : Q) : (x <= 100)%Q → (round53 x <= 100)%Q.
Proof.
  intros H. apply Qle_trans with (round53 100); [by apply round53_mono |].
  apply Qle_lteq. right. exact round53_100.
Qed.

(** The rounded product of a score between 0 and 1 and 100 lies between 0
    and 100. *)
Lemma percentage_range (q : Q) :
  (0 <= q)%Q → (q <= 1)%Q →
  (0 <= round53 (q * 100))%Q ∧ (round53 (q * 100) <= 100)%Q.
Proof.
  intros H0 H1. split.
  - apply round53_nonneg. lra.
  - apply round53_le_100. lra.
Qed.

(** For a score between 0 and 1, [pct] writes the tenths of a percent
    nearest to the rounded product of the score and 100, the upper one of
    two, with one digit after the point. *)
Lemma pct_of_probability (q : Q) :
  (0 <= q)%Q → (q <= 1)%Q →
  let x := round53 (q * 100) in
  let n := nearest_tenth x in
  pct (Fin q) = percent_text n
  ∧ 0 ≤ n ≤ 1000
  ∧ 0 ≤ n mod 10 < 10
  ∧ (inject_Z n / 10 - x <= 1 # 20)%Q
  ∧ (x - inject_Z n / 10 < 1 # 20)%Q
  ∧ (Qabs (x - q * 100) <= q * 100 / inject_Z (2 ^ 53))%Q.
Proof.
  intros H0 H1 x n. destruct (percentage_range q H0 H1) as [Hx0 Hx100].
  fold x in Hx0, Hx100. unfold pct, mul. fold x.
  split; [by apply toFixed1_percentage |].
  split; [by apply nearest_tenth_range |].
  split; [by apply Z.mod_pos_bound |].
  destruct (nearest_tenth_close x) as [Hc1 Hc2].
  split; [exact Hc1 |]. split; [exact Hc2 |].
  pose proof (round53_error (q * 100)) as He. fold x in He.
  rewrite (Qabs_pos (q * 100)) in He by lra. exact He.
Qed.

Lemma pct_clamp01 (q : Q) :
  ∃ n, 0 ≤ n ≤ 1000 ∧ pct (clamp01 (Fin q)) = percent_text n.
Proof.
  destruct (clamp01_bounds q) as [H0 H1].
  rewrite clamp01_finite.
  destruct (pct_of_probability _ H0 H1) as (Hp & Hn & _).
  eexists. split; [exact Hn | exact Hp].
Qed.

Lemma capped_percent_range (x y : Q) :
  (0 <= x)%Q → (0 < y)%Q →
  ∃ p, capped_percent (Fin x) (Fin y) = Fin p ∧ (0 <= p)%Q ∧ (p <= 100)%Q.
Proof.
  intros Hx Hy. unfold capped_percent, div.
  assert (Qeq_bool y 0 = false) as ->.
  { apply not_true_iff_false. intros Heq%Qeq_bool_iff. lra. }
  simpl. eexists; split; [done |]. split; [| apply Q.le_min_l].
  apply Q.min_glb; [done |].
  apply round53_nonneg, Qmult_le_0_compat; [| done].
  apply round53_nonneg, Qle_shift_div_l; [done | lra].
Qed.

Lemma capped_fps_le_100 (dt : Q) :
  ∃ p, capped_percent (div (Fin 1000) (Fin dt)) (Fin 60) = Fin p ∧ (p <= 100)%Q.
Proof.
  unfold div. destruct (Qeq_bool dt 0).
  - by exists 100%Q.
  - eexists. split; [reflexivity |]. apply Q.le_min_l.
Qed.

(** ** The top mood (C1, C9, C10) *)

(** The percentage of a score between 0 and 1 as the badge and the bar
    show it: [n] tenths of a percent with one digit after the point, where
    [n / 10] is within half a tenth of a hundred times the score, up to the
    rounding of that product. *)
Lemma pct_one_decimal (q : Q) :
  (0 <= q)%Q → (q <= 1)%Q →
  ∃ n : Z,
    0 ≤ n ≤ 1000
    ∧ (Qabs (inject_Z n / 10 - q * 100)
         <= (1 # 20) + q * 100 / inject_Z (2 ^ 53))%Q
    ∧ pct (Fin q) = digits (n / 10) +:+ "." +:+ digits (n mod 10) +:+ "%"
    ∧ pct (clamp01 (Fin q)) = digits (n / 10) +:+ "." +:+ digits (n mod 10) +:+ "%".
Proof.
  intros H0 H1.
  destruct (pct_of_probability q H0 H1) as (Hp & Hn & _ & Hc1 & Hc2 & He).
  exists (nearest_tenth (round53 (q * 100))).
  split; [exact Hn |]. split; [| split; [exact Hp |]].
  - apply Qabs_Qle_condition in He. destruct He as [He1 He2].
    apply Qabs_Qle_condition.
    set (x := round53 (q * 100)) in *.
    set (n := inject_Z (nearest_tenth x)) in *.
    set (err := (q * 100 / inject_Z (2 ^ 53))%Q) in *.
    revert Hc1 Hc2. unfold Qdiv. change (/ 10)%Q with (1 # 10)%Q.
    clearbody x n err. intros Hc1 Hc2. split; lra.
  - transitivity (pct (Fin q)); [| exact Hp].
    rewrite clamp01_finite. unfold pct, mul. do 3 f_equal.
    apply round53_comp.
    assert (Qmax 0 (Qmin 1 q) == q)%Q as ->; [| reflexivity].
    rewrite Q.min_r by exact H1. by rewrite Q.max_r.
Qed.

(** C1. When the first face of a detection result has a non-empty emotion
    list, the mood badge, the top-mood label and the confidence bar all
    show one entry [top] of that list that no entry beats on score: the
    badge reads [Mood: <emotion> (<pct of the score>)], the label is the
    emotion and the bar is as wide as [pct] of the clamped score. For a
    score between 0 and 1 that percentage has one decimal: the badge reads
    [Mood: <emotion> (<d>.<d>%)] and the bar is [<d>.<d>%] wide, for the
    number [n] of tenths of a percent, at most 1000, that is within half a
    tenth of a hundred times the score, up to the binary64 rounding of that
    product. *)
Theorem C1_badge_shows_top_emotion
    (t0 : Q) (r : result) (w : world)
    (f : face) (fs : list face) (es : list emotion_entry) :
  faces_of r = Some (f :: fs) →
  emotions f = Some es →
  es ≠ [] →
  ∃ top, top_of top es ∧
    textContent (loop_resume t0 r w) moodBadge =
      "Mood: " +:+ emotion top +:+ " (" +:+ pct (Fin (score top)) +:+ ")"
    ∧ textContent (loop_resume t0 r w) topMood = emotion top
    ∧ style_width (loop_resume t0 r w) topConf = pct (clamp01 (Fin (score top)))
    ∧ ((0 <= score top)%Q → (score top <= 1)%Q →
       ∃ n : Z,
         0 ≤ n ≤ 1000
         ∧ (Qabs (inject_Z n / 10 - score top * 100)
              <= (1 # 20) + score top * 100 / inject_Z (2 ^ 53))%Q
         ∧ textContent (loop_resume t0 r w) moodBadge =
             "Mood: " +:+ emotion top +:+ " (" +:+
             digits (n / 10) +:+ "." +:+ digits (n mod 10) +:+ "%)"
         ∧ style_width (loop_resume t0 r w) topConf =
             digits (n / 10) +:+ "." +:+ digits (n mod 10) +:+ "%").
Proof.
  intros Hr Hf Hes.
  destruct (sort_top es Hes) as (top & rest & Hsort & Htop).
  exists top. split; [done |].
  pose proof (loop_resume_top t0 r w) as Hw.
  rewrite summarize_top in Hw. cbv zeta in Hw.
  rewrite Hr in Hw. simpl in Hw. rewrite Hf in Hw. simpl in Hw.
  rewrite Hsort in Hw.
  assert (textContent (loop_resume t0 r w) moodBadge =
            "Mood: " +:+ emotion top +:+ " (" +:+ pct (Fin (score top)) +:+ ")")
    as Hb by exact (f_equal badge Hw).
  assert (textContent (loop_resume t0 r w) topMood = emotion top)
    as Hm by exact (f_equal mood Hw).
  assert (style_width (loop_resume t0 r w) topConf = pct (clamp01 (Fin (score top))))
    as Hc by exact (f_equal confidence Hw).
  split; [exact Hb |]. split; [exact Hm |]. split; [exact Hc |].
  intros H0 H1. destruct (pct_one_decimal (score top) H0 H1) as (n & Hn & Hclose & Hp & Hpc).
  exists n. split; [exact Hn |]. split; [exact Hclose |]. split.
  - rewrite Hb, Hp. by rewrite !string_app_assoc.
  - by rewrite Hc, Hpc.
Qed.

(** C9. When the detection result has no faces, or its first face has an
    empty emotion list, the emotion list holds the single message
    [No face detected.] in a [div] of class [muted] and no row, the badge
    reads [Mood: —], the label [—] and the confidence bar is [0%] wide. *)
Theorem C9_no_face_empty_state (t0 : Q) (r : result) (w : world) :
  default [] (faces_of r) = []
  ∨ (∃ f fs, default [] (faces_of r) = f :: fs ∧ default [] (emotions f) = []) →
  emotions_el (loop_resume t0 r w) =
    {| markup := "<div class=" +:+ String "034"%char "muted" +:+
                 String "034"%char ">No face detected.</div>";
       rows := [] |}
  ∧ textContent (loop_resume t0 r w) moodBadge = "Mood: —"
  ∧ textContent (loop_resume t0 r w) topMood = "—"
  ∧ style_width (loop_resume t0 r w) topConf = "0%".
Proof.
  intros H.
  assert (primary_emotions (default [] (faces_of r)) = []) as Hes.
  { destruct H as [-> | (f & fs & -> & Hf)]; [done | exact Hf]. }
  pose proof (loop_resume_top t0 r w) as Hw.
  rewrite summarize_top in Hw. cbv zeta in Hw. rewrite Hes in Hw.
  change (sort by_score []) with (@nil emotion_entry) in Hw.
  rewrite decide_True in Hw by done.
  split.
  - rewrite loop_resume_emotions_el, summarize_emotions_el. cbv zeta.
    rewrite Hes. rewrite decide_True by done. reflexivity.
  - exact (conj (f_equal badge Hw) (conj (f_equal mood Hw) (f_equal confidence Hw))).
Qed.

(** C10. [clamp01] sends every finite number into [[0, 1]]; the width the
    loop gives the confidence bar is a percentage between 0 and 100 with
    one decimal, or [0%]; the width of the faces bar is a percentage
    between 0 and 100 for every number of faces, and the width of the fps
    bar is a percentage of at most 100 for every frame duration. *)
Theorem C10_bar_widths_bounded (q : Q) (t0 : Q) (r : result) (w : world) :
  (∃ c, clamp01 (Fin q) = Fin c ∧ (0 <= c)%Q ∧ (c <= 1)%Q)
  ∧ (style_width (loop_resume t0 r w) topConf = "0%"
     ∨ ∃ n, 0 ≤ n ≤ 1000
            ∧ style_width (loop_resume t0 r w) topConf = percent_text n)
  ∧ (∃ p, (0 <= p)%Q ∧ (p <= 100)%Q
          ∧ style_width (loop_resume t0 r w) facesBar = ToString (Fin p) +:+ "%")
  ∧ (∃ p, (p <= 100)%Q
          ∧ style_width (loop_resume t0 r w) fpsBar = ToString (Fin p) +:+ "%").
Proof.
  split; [| split; [| split]].
  - exists (Qmax 0 (Qmin 1 q)). split; [apply clamp01_finite | apply clamp01_bounds].
  - pose proof (loop_resume_top t0 r w) as Hw.
    rewrite summarize_top in Hw. cbv zeta in Hw.
    destruct (sort by_score _) as [| top rest] eqn:Hsort.
    + destruct (decide _) as [Hes | Hes].
      * left. exact (f_equal confidence Hw).
      * destruct (sort_top _ Hes) as (? & ? & Hs & _). congruence.
    + right. destruct (pct_clamp01 (score top)) as (n & Hn & Hp).
      exists n. split; [done |]. rewrite <- Hp. exact (f_equal confidence Hw).
  - destruct (capped_percent_range
                (inject_Z (Z.of_nat (length (default [] (faces_of r))))) 5)
      as (p & Hp & H0 & H100); [| done |].
    { change 0%Q with (inject_Z 0). rewrite <- Zle_Qle. lia. }
    exists p. split; [done |]. split; [done |].
    change (style_width (loop_resume t0 r w) facesBar)
      with (style_width (summarize r (draw_overlays r w)) facesBar).
    rewrite summarize_facesBar. unfold of_nat. by rewrite Hp.
  - rewrite loop_resume_fpsBar.
    destruct (capped_fps_le_100 (round53 (performance_now w - t0))) as (p & -> & Hp).
    by exists p.
Qed.

Lemma summarize_frame (r : result) (w : world) :
  ∃ t s e, summarize r w = set_emotions_el e (set_style_width s (set_textContent t w)).
Proof.
  unfold summarize. rewrite renderEmotions_eq.
  destruct (negb (length _ =? 0)%nat); [destruct (sort by_score _) |];
    do 3 eexists; reflexivity.
Qed.

(** ** The render loop (C2) *)

(** C2. An iteration of the render loop entered while [running] is true
    calls the detector exactly once, on the video element, and suspends.
    Resumed with the result [r], in whatever world [w2] the page is by
    then, it first clears the whole overlay (a rectangle from the origin of
    the overlay's full width and height), then draws, and what is on the
    overlay afterwards is what this iteration drew for [r] and nothing
    older. *)
Theorem C2_detect_once_then_clear (w : world) (r : result) (w2 : world) :
  running w = true →
  log (loop w) = log w ++ [human_detect video]
  ∧ tasks (loop w) = tasks w ++ [loop_detect (performance_now w)]
  ∧ log (loop_resume (performance_now w) r w2) =
      log w2 ++ [clearRect overlay 0 0 (Zpos (width (overlay_canvas w2)))
                                      (Zpos (height (overlay_canvas w2)));
                 human_draw_canvas overlay;
                 human_draw_face overlay (faces_of r) false;
                 requestAnimationFrame (next_frame w2)]
  ∧ covers 0 0 (Zpos (width (overlay_canvas w2)))
             (Zpos (height (overlay_canvas w2))) (overlay_canvas w2) = true
  ∧ painted (overlay_canvas (loop_resume (performance_now w) r w2)) =
      [draw_canvas; draw_face (faces_of r) false].
Proof.
  intros Hrun. unfold loop. rewrite Hrun. simpl.
  split; [done |]. split; [done |].
  assert (covers 0 0 (Zpos (width (overlay_canvas w2)))
            (Zpos (height (overlay_canvas w2))) (overlay_canvas w2) = true) as Hc.
  { unfold covers. simpl. by rewrite !Z.leb_refl. }
  unfold loop_resume.
  destruct (summarize_frame r (draw_overlays r w2)) as (t & s & e & ->).
  simpl. rewrite Hc. simpl. by rewrite <- !app_assoc.
Qed.

(** ** [stopCamera] (C8) *)

Lemma stopCamera_post (w : world) :
  running (stopCamera w) = false
  ∧ rafId (stopCamera w) = None
  ∧ stream (stopCamera w) = null.
Proof.
  unfold stopCamera. simpl.
  destruct (rafId w); simpl; destruct (stream w); done.
Qed.

(** With the camera off, [stopCamera] does nothing at all. *)
Lemma stopCamera_off (w : world) :
  running w = false → rafId w = None → stream w = null → stopCamera w = w.
Proof. destruct w; simpl. by intros -> -> ->. Qed.

(** C8. Calling [stopCamera] a second time changes nothing: [running],
    [rafId] and [stream] are as the first call left them ([false], [null],
    [null]), and so is everything else, whatever the state before the
    first call. *)
Theorem C8_stopCamera_idempotent (w : world) :
  running (stopCamera (stopCamera w)) = running (stopCamera w)
  ∧ rafId (stopCamera (stopCamera w)) = rafId (stopCamera w)
  ∧ stream (stopCamera (stopCamera w)) = stream (stopCamera w)
  ∧ stopCamera (stopCamera w) = stopCamera w.
Proof.
  destruct (stopCamera_post w) as (Hr & Hf & Hs).
  rewrite (stopCamera_off (stopCamera w) Hr Hf Hs). by repeat split.
Qed.

(** ** [listCameras] (C6) *)

Lemma append_options_eq (os : list option_el) (w : world) :
  options (select (foldl (λ w o, append_option o w) w os)) =
    options (select w) ++ os.
Proof.
  revert w. induction os as [| o os IH]; intros w; simpl.
  - by rewrite app_nil_r.
  - rewrite IH. simpl. by rewrite <- app_assoc.
Qed.

(** C6. Resumed with the enumerated devices, [listCameras] replaces the
    options of the camera select, whatever they were: when no device is a
    video input, by the single disabled option [No camera found];
    otherwise by one enabled option per video input, in order, whose value
    is the device's id and whose text is its label, or [Camera <i+1>] for
    the [i]-th video input when the label is empty. *)
Theorem C6_listCameras_options (devices : list device) (w : world) :
  options (select (listCameras_devices devices w)) =
    let cams := filter (λ d, kind d = "videoinput") devices in
    if decide (cams = []) then
      [ {| opt_value := None; opt_text := "No camera found"; opt_disabled := true |} ]
    else
      imap (λ i c, {| opt_value := Some (deviceId c);
                      opt_text := if decide (label c = EmptyString)
                                  then "Camera " +:+ ToString (of_nat (i + 1))
                                  else label c;
                      opt_disabled := false |}) cams.
Proof.
  unfold listCameras_devices. cbv zeta.
  destruct (filter _ devices) as [| c cams]; [done |].
  change (length (c :: cams) =? 0)%nat with false. cbv iota.
  rewrite append_options_eq. by rewrite decide_False.
Qed.

(** ** [snapshot] (C7) *)

(** C7. With both the video and the overlay element on the page,
    [snapshot] makes exactly one call to the host: a click on a download
    link named [mood-<Date.now()>.png] for a PNG of a canvas as wide and as
    high as the overlay, on which the video was drawn first, from the
    origin and scaled to the canvas, and the overlay second, at the origin.
    With either element missing it leaves the world as it is. *)
Theorem C7_snapshot (w : world) :
  snapshot w =
    if els w video && els w overlay then
      host_call
        (anchor_click
           {| file_name := "mood-" +:+ ToString (of_Z (Date_now w)) +:+ ".png";
              file_type := "image/png";
              file_image :=
                {| width := width (overlay_canvas w);
                   height := height (overlay_canvas w);
                   painted :=
                     [ drawImage video 0 0
                         (Some (Zpos (width (overlay_canvas w)),
                                Zpos (height (overlay_canvas w))));
                       drawImage overlay 0 0 None ] |} |}) w
    else w.
Proof. unfold snapshot. by destruct (els w video), (els w overlay). Qed.

(** ** Storage (C5) *)

Lemma storage_calls_app (l k : list call) :
  storage_calls (l ++ k) = storage_calls l ++ storage_calls k.
Proof. apply filter_app. Qed.

Lemma storage_calls_track_stop (s : nat) (l : list nat) :
  storage_calls (track_stop s <$> l) = [].
Proof. induction l; [done | by simpl]. Qed.

#[local] Instance quiet_refl : Reflexive quiet.
Proof. by split. Qed.

#[local] Instance quiet_trans : Transitive quiet.
Proof. intros w1 w2 w3 [] []. split; congruence. Qed.

Ltac quiet_step :=
  repeat (simpl; case_match);
  split; simpl;
  rewrite ?storage_calls_app, ?storage_calls_track_stop, ?app_nil_r;
  try done.

Lemma quiet_stopCamera (w : world) : quiet w (stopCamera w).
Proof. unfold stopCamera. quiet_step. Qed.

Lemma quiet_startCamera (w : world) : quiet w (startCamera w).
Proof.
  etrans; [apply quiet_stopCamera |]. unfold startCamera. quiet_step.
Qed.

Lemma quiet_snapshot (w : world) : quiet w (snapshot w).
Proof. unfold snapshot. quiet_step. Qed.

Lemma quiet_applyMirror (w : world) : quiet w (applyMirror w).
Proof. quiet_step. Qed.

Lemma quiet_loop (w : world) : quiet w (loop w).
Proof. unfold loop. quiet_step. Qed.

Lemma quiet_loop_resume (t0 : Q) (r : result) (w : world) :
  quiet w (loop_resume t0 r w).
Proof.
  unfold loop_resume.
  destruct (summarize_frame r (draw_overlays r w)) as (t & s & e & ->).
  quiet_step.
Qed.

Lemma append_options_frame (os : list option_el) (w : world) :
  ∃ s, foldl (λ w o, append_option o w) w os = set_select s w.
Proof.
  revert w. induction os as [| o os IH]; intros w; simpl.
  - exists (select w). by destruct w.
  - destruct (IH (append_option o w)) as [s ->]. by exists s.
Qed.

Lemma quiet_listCameras_devices (ds : list device) (w : world) :
  quiet w (listCameras_devices ds w).
Proof.
  unfold listCameras_devices. cbv zeta.
  destruct (length _ =? 0)%nat; [quiet_step |].
  destruct (append_options_frame
              (imap camera_option (filter (λ d, kind d = "videoinput") ds))
              (set_select {| options := []; selectedIndex := None |} w))
    as [s ->].
  quiet_step.
Qed.

Lemma quiet_resume (t : task) (o : outcome) (w w' : world) :
  resume t o w = Some w' → quiet w w'.
Proof.
  destruct t, o; simpl; intros [= <-];
    try apply quiet_loop_resume; try apply quiet_listCameras_devices;
    try (unfold startCamera_playing; etrans; [| apply quiet_loop]);
    quiet_step.
Qed.

Lemma quiet_wrote (w w' : world) : quiet w w' → wrote_theme 0 w w'.
Proof.
  intros [Hs Hl]. exists []. split; [done |]. split; [done |].
  rewrite Hl, Hs, app_nil_r. done.
Qed.

Lemma wrote_theme_trans (n m : nat) (w1 w2 w3 : world) :
  wrote_theme n w1 w2 → wrote_theme m w2 w3 → wrote_theme (n + m) w1 w3.
Proof.
  intros (v1 & Hn & Hv1 & Hl1 & Ht1 & Hs1) (v2 & Hm & Hv2 & Hl2 & Ht2 & Hs2).
  exists (v1 ++ v2). split; [rewrite length_app; lia |].
  split; [by apply Forall_app |]. split; [| split].
  - by rewrite Hl2, Hl1, fmap_app, app_assoc.
  - rewrite last_app, Ht2. destruct (last v2); [done | exact Ht1].
  - intros k Hk. by rewrite Hs2, Hs1.
Qed.

Lemma toggle_theme_wrote (w : world) : wrote_theme 1 w (toggle_theme w).
Proof.
  unfold toggle_theme. cbv zeta.
  exists [if decide (data_theme w = Some "dark") then "light" else "dark"].
  split; [done |]. split; [| split; [| split]].
  - apply Forall_singleton.
    destruct (decide (data_theme w = Some "dark")); [by right | by left].
  - simpl. by rewrite storage_calls_app.
  - simpl. by rewrite lookup_insert_eq.
  - intros k Hk. simpl. by rewrite lookup_insert_ne.
Qed.

Lemma on_click_storage (target : elem) (w : world) :
  wrote_theme (if toggles_theme (click target) then 1 else 0) w (on_click target w).
Proof.
  destruct target; simpl; try (by apply quiet_wrote);
    [apply quiet_wrote, quiet_startCamera | apply quiet_wrote, quiet_stopCamera
    | apply quiet_wrote, quiet_snapshot | apply toggle_theme_wrote].
Qed.

Lemma on_keydown_storage (k : string) (w : world) :
  wrote_theme (if toggles_theme (keydown k) then 1 else 0) w (on_keydown k w).
Proof.
  unfold on_keydown, toggles_theme. cbv zeta.
  set (key := toLowerCase k).
  set (w1 := if decide (key = "s") then startCamera w else w).
  set (w2 := if decide (key = "x") then stopCamera w1 else w1).
  set (w3 := if decide (key = "c") then snapshot w2 else w2).
  set (w4 := if decide (key = "m")
             then applyMirror (set_checked (negb (checked w3)) w3) else w3).
  assert (quiet w w4) as Hq.
  { etrans; [| etrans; [| etrans]].
    - instantiate (1 := w1). unfold w1. case_decide; [apply quiet_startCamera | done].
    - instantiate (1 := w2). unfold w2. case_decide; [apply quiet_stopCamera | done].
    - instantiate (1 := w3). unfold w3. case_decide; [apply quiet_snapshot | done].
    - unfold w4. case_decide; [| done]. quiet_step. }
  case_bool_decide; rewrite ?decide_True, ?decide_False by done.
  - apply (wrote_theme_trans 0 1 w w4); [by apply quiet_wrote | apply toggle_theme_wrote].
  - by apply quiet_wrote.
Qed.

Lemma handle_storage (e : event) (w w' : world) :
  handle e w = Some w' →
  wrote_theme (if toggles_theme e then 1 else 0) w w'.
Proof.
  destruct e as [target | i | | k | id | i o | vw vh | p d]; simpl.
  - intros [= <-]. apply on_click_storage.
  - destruct (options (select w) !! i) as [o |]; [| done].
    destruct (opt_disabled o); [done |]. intros [= <-]. apply quiet_wrote.
    unfold camera_changed. simpl. destruct (truthy (stream w)); [| quiet_step].
    etrans; [| apply quiet_startCamera]. quiet_step.
  - intros [= <-]. apply quiet_wrote. quiet_step.
  - intros [= <-]. apply on_keydown_storage.
  - case_decide; [| done]. intros [= <-]. apply quiet_wrote.
    etrans; [| apply quiet_loop]. quiet_step.
  - destruct (tasks w !! i) as [t |]; [| done]. simpl.
    intros Hr%quiet_resume. apply quiet_wrote. etrans; [| exact Hr]. quiet_step.
  - intros [= <-]. apply quiet_wrote. quiet_step.
  - intros [= <-]. apply quiet_wrote. quiet_step.
Qed.

Lemma run_storage (es : list event) (w w' : world) :
  run es w = Some w' →
  wrote_theme (length (filter (λ e, toggles_theme e) es)) w w'.
Proof.
  revert w. induction es as [| e es IH]; intros w; simpl.
  - intros [= <-]. by apply quiet_wrote.
  - destruct (handle e w) as [w1 |] eqn:He; [| done]. simpl. intros Hrun.
    pose proof (handle_storage _ _ _ He) as Hstep.
    rewrite filter_cons. destruct (toggles_theme e); case_decide; try done.
    + apply (wrote_theme_trans 1 _ w w1); [done | by apply IH].
    + apply (wrote_theme_trans 0 _ w w1); [done | by apply IH].
Qed.

(** C5. From the first line of the script on, whatever the user and the
    host do: the calls to [localStorage] are one [getItem('theme')], made by
    [init], followed by one [setItem('theme', v)] per toggle of the theme,
    where every [v] is [dark] or [light]; under the key [theme] the storage
    holds the last value written, or what it held when the page was loaded
    if the theme was never toggled; every other key keeps the value it had
    when the page was loaded; and a loop iteration resumed with a detection
    result neither calls [localStorage] nor changes it. *)
Theorem C5_storage_holds_only_the_theme
    (w0 : world) (es : list event) (w : world) :
  pristine w0 →
  run es (script w0) = Some w →
  (∃ values : list string,
     length values = length (filter (λ e, toggles_theme e) es)
     ∧ Forall (λ v, v = "dark" ∨ v = "light") values
     ∧ storage_calls (log w) =
         localStorage_getItem "theme" :: (localStorage_setItem "theme" <$> values)
     ∧ localStorage w !! "theme" =
         match last values with
         | Some v => Some v
         | None => localStorage w0 !! "theme"
         end)
  ∧ (∀ k, k ≠ "theme" → localStorage w !! k = localStorage w0 !! k)
  ∧ (∀ t0 r w1, localStorage (loop_resume t0 r w1) = localStorage w1
                ∧ storage_calls (log (loop_resume t0 r w1)) = storage_calls (log w1)).
Proof.
  intros [_ _ _ Hlog] Hrun.
  destruct (run_storage es _ _ Hrun) as (values & Hn & Hvs & Hcalls & Hth & Hkeys).
  assert (storage_calls (log (script w0)) = [localStorage_getItem "theme"]
          ∧ localStorage (script w0) = localStorage w0) as [Hinit Hsame].
  { unfold script, init. simpl.
    destruct (localStorage w0 !! "theme") as [t |]; [case_decide |];
      simpl; by rewrite Hlog. }
  split; [| split].
  - exists values. split; [done |]. split; [done |].
    split; [by rewrite Hcalls, Hinit | by rewrite Hth, Hsame].
  - intros k Hk. by rewrite Hkeys, Hsame.
  - intros t0 r w1. by destruct (quiet_loop_resume t0 r w1).
Qed.

(** ** What [stopCamera] does guarantee *)

Lemma loop_guard (w : world) : running w = false → loop w = w.
Proof. unfold loop. by intros ->. Qed.

Lemma stopCamera_stops_tracks (w : world) (s : nat) (ts : list bool) :
  stream w = object s →
  tracks (stopCamera w) !! s = Some ts →
  Forall (λ live, live = false) ts.
Proof.
  intros Hs. unfold stopCamera. simpl.
  assert (∀ w0, tracks (stop_tracks s w0) !! s = Some ts →
                Forall (λ live, live = false) ts) as Hstop.
  { intros w0. unfold stop_tracks. simpl. rewrite lookup_alter_eq.
    destruct (tracks w0 !! s) as [ts0 |]; [| done]. simpl. intros [= <-].
    apply Forall_fmap. by apply Forall_true. }
  destruct (rafId w); simpl; rewrite Hs; apply Hstop.
Qed.

Lemma detections_app (l k : list call) :
  detections (l ++ k) = detections l ++ detections k.
Proof. apply filter_app. Qed.

Lemma detections_track_stop (s : nat) (l : list nat) :
  detections (track_stop s <$> l) = [].
Proof. induction l; [done | by simpl]. Qed.

Lemma Forall_delete {A} (P : A → Prop) (i : nat) (l : list A) :
  Forall P l → Forall P (delete i l).
Proof.
  intros H. revert i. induction H as [| x l Hx Hl IH]; intros [| i]; simpl;
    try done; by constructor.
Qed.

Ltac still_step :=
  repeat (simpl; case_match);
  (split; [split |]); simpl;
  rewrite ?detections_app, ?detections_track_stop, ?app_nil_r;
  try done;
  try (apply Forall_app; split; [done | by repeat constructor]).

Section Stopped.

Context (w : world) (Hw : stopped w).

Lemma still_refl : still_stopped w w.
Proof. by split. Qed.

Lemma still_stopCamera : still_stopped w (stopCamera w).
Proof. destruct Hw. unfold stopCamera. still_step. Qed.

Lemma still_snapshot : still_stopped w (snapshot w).
Proof. destruct Hw. unfold snapshot. still_step. Qed.

Lemma still_toggle_theme : still_stopped w (toggle_theme w).
Proof. destruct Hw. unfold toggle_theme. still_step. Qed.

Lemma still_applyMirror : still_stopped w (applyMirror w).
Proof. destruct Hw. still_step. Qed.

Lemma still_set_checked (b : bool) : still_stopped w (set_checked b w).
Proof. destruct Hw. still_step. Qed.

Lemma still_loop_resume (t0 : Q) (r : result) :
  still_stopped w (loop_resume t0 r w).
Proof.
  destruct Hw. unfold loop_resume.
  destruct (summarize_frame r (draw_overlays r w)) as (t & s & e & ->).
  still_step.
Qed.

Lemma still_listCameras_devices (ds : list device) :
  still_stopped w (listCameras_devices ds w).
Proof.
  destruct Hw. unfold listCameras_devices. cbv zeta.
  destruct (length _ =? 0)%nat; [still_step |].
  destruct (append_options_frame
              (imap camera_option (filter (λ d, kind d = "videoinput") ds))
              (set_select {| options := []; selectedIndex := None |} w))
    as [s ->].
  still_step.
Qed.

End Stopped.

Lemma still_trans (w1 w2 w3 : world) :
  still_stopped w1 w2 → still_stopped w2 w3 → still_stopped w1 w3.
Proof. intros [_ H12] [H3 H23]. split; [done | congruence]. Qed.

Lemma still_resume (t : task) (o : outcome) (w w' : world) :
  stopped w → is_startCamera t = false →
  resume t o w = Some w' → still_stopped w w'.
Proof.
  intros Hw Ht.
  destruct t, o; try done; simpl; intros [= <-];
    try (by apply still_loop_resume);
    try (by apply still_listCameras_devices);
    destruct Hw; still_step.
Qed.

Lemma still_on_click (target : elem) (w : world) :
  stopped w → calls_startCamera (click target) = false →
  still_stopped w (on_click target w).
Proof.
  intros Hw. destruct target; simpl; try done; intros _;
    auto using still_refl, still_stopCamera, still_snapshot, still_toggle_theme.
Qed.

Lemma still_on_keydown (k : string) (w : world) :
  stopped w → calls_startCamera (keydown k) = false →
  still_stopped w (on_keydown k w).
Proof.
  intros Hw Hk. unfold on_keydown. cbv zeta. simpl in Hk.
  apply bool_decide_eq_false in Hk. rewrite (decide_False _ _ Hk).
  set (key := toLowerCase k) in *.
  set (w2 := if decide (key = "x") then stopCamera w else w).
  assert (still_stopped w w2) as H2.
  { unfold w2. case_decide; [by apply still_stopCamera | by apply still_refl]. }
  set (w3 := if decide (key = "c") then snapshot w2 else w2).
  assert (still_stopped w w3) as H3.
  { apply (still_trans _ w2); [done |]. destruct H2 as [H2 _].
    unfold w3. case_decide; [by apply still_snapshot | by apply still_refl]. }
  set (w4 := if decide (key = "m")
             then applyMirror (set_checked (negb (checked w3)) w3) else w3).
  assert (still_stopped w w4) as H4.
  { apply (still_trans _ w3); [done |]. destruct H3 as [H3 _].
    unfold w4. case_decide; [| by apply still_refl].
    apply (still_trans _ (set_checked (negb (checked w3)) w3)).
    - by apply still_set_checked.
    - apply still_applyMirror. by apply still_set_checked. }
  apply (still_trans _ w4); [done |]. destruct H4 as [H4 _].
  case_decide; [by apply still_toggle_theme | by apply still_refl].
Qed.

Lemma still_handle (e : event) (w w' : world) :
  stopped w → calls_startCamera e = false →
  handle e w = Some w' → still_stopped w w'.
Proof.
  intros Hw He.
  destruct e as [target | i | | k | id | i o | vw vh | p d]; simpl.
  - intros [= <-]. by apply still_on_click.
  - destruct (options (select w) !! i) as [o |]; [| done].
    destruct (opt_disabled o); [done |]. intros [= <-].
    destruct Hw as [Hr Hs Ht]. unfold camera_changed. simpl. rewrite Hs.
    by still_step.
  - intros [= <-].
    apply (still_trans _ (set_checked (negb (checked w)) w)).
    + by apply still_set_checked.
    + apply still_applyMirror. by apply still_set_checked.
  - intros [= <-]. by apply still_on_keydown.
  - case_decide; [| done]. intros [= <-]. destruct Hw as [Hr Hs Ht].
    rewrite loop_guard by done. by still_step.
  - destruct (tasks w !! i) as [t |] eqn:Hi; [| done]. simpl. intros Hres.
    destruct Hw as [Hr Hs Ht].
    assert (is_startCamera t = false) as Hnot.
    { by apply (Forall_lookup_1 _ _ _ _ Ht Hi). }
    assert (stopped (set_tasks (delete i (tasks w)) w)) as Hw'.
    { split; simpl; [done | done | by apply Forall_delete]. }
    destruct (still_resume _ _ _ _ Hw' Hnot Hres) as [Hst Hd]. by split.
  - intros [= <-]. destruct Hw. by still_step.
  - intros [= <-]. destruct Hw. by still_step.
Qed.

(** While no call of [startCamera] is suspended and none is made, a stopped
    camera stays stopped and the detector is never called, whatever else
    happens: frames firing, detections settling, the user taking
    snapshots. *)
Lemma stopped_camera_stays_stopped (es : list event) (w w' : world) :
  stopped w →
  Forall (λ e, calls_startCamera e = false) es →
  run es w = Some w' →
  still_stopped w w'.
Proof.
  intros Hw Hes. revert w Hw.
  induction Hes as [| e es He Hes IH]; intros w Hw; simpl.
  - intros [= <-]. by apply still_refl.
  - destruct (handle e w) as [w1 |] eqn:Hh; [| done]. simpl. intros Hrun.
    pose proof (still_handle _ _ _ Hw He Hh) as H1.
    apply (still_trans _ w1); [done |]. apply IH; [by destruct H1 | done].
Qed.

(** After [stopCamera], unless a call of [startCamera] is suspended. *)
Lemma stopCamera_stopped (w : world) :
  Forall (λ t, is_startCamera t = false) (tasks w) → stopped (stopCamera w).
Proof.
  intros Ht. unfold stopCamera. repeat (simpl; case_match); by split.
Qed.

(** ** One session at a time, on orderly runs *)

Lemma filter_none {A} (P : A → Prop) `{∀ x, Decision (P x)} (l : list A) :
  (∀ x, x ∈ l → ¬ P x) → filter P l = [].
Proof.
  induction l as [| x l IH]; [done |]. intros Hl.
  rewrite filter_cons, decide_False by (apply Hl, list_elem_of_here).
  apply IH. intros y Hy. by apply Hl, list_elem_of_further.
Qed.

Lemma filter_session_none (ts : list task) :
  Forall (λ t, is_session t = false) ts → filter (λ t, is_session t) ts = [].
Proof.
  induction 1 as [| t ts Ht _ IH]; [done |].
  rewrite filter_cons. case_decide as Hd; [| done]. by rewrite Ht in Hd.
Qed.

Lemma filter_session_delete (i : nat) (t : task) (l : list task) :
  l !! i = Some t →
  (length (filter (λ t, is_session t) (delete i l)) + (if is_session t then 1 else 0)
   = length (filter (λ t, is_session t) l))%nat.
Proof.
  revert i. induction l as [| x l IH]; intros [| i]; simpl; try done.
  - intros [= ->]. rewrite filter_cons.
    destruct (is_session t); case_decide; simpl; try done; lia.
  - intros Hi. specialize (IH i Hi). rewrite !filter_cons.
    case_decide; simpl; lia.
Qed.

Lemma elem_of_delete {A} (x : A) (i : nat) (l : list A) :
  x ∈ delete i l → x ∈ l.
Proof.
  revert i. induction l as [| y l IH]; intros [| i]; simpl; try done.
  - apply list_elem_of_further.
  - intros [-> | Hx]%elem_of_cons; [apply list_elem_of_here |].
    apply list_elem_of_further. by apply (IH i).
Qed.

Lemma idle_chains (w : world) : idle w → chains w = length (frames w).
Proof. intros Hi. unfold chains. by rewrite filter_session_none. Qed.

Lemma no_chain_idle (w : world) : chains w = 0%nat → idle w ∧ frames w = [].
Proof.
  unfold chains, idle. intros H. split.
  - apply Forall_forall. intros t Ht. destruct (is_session t) eqn:Hs; [| done].
    assert (t ∈ filter (λ t, is_session t) (tasks w)) as Hin.
    { apply list_elem_of_filter. split; [by rewrite Hs | done]. }
    destruct (filter _ (tasks w)); [by apply elem_of_nil in Hin | simpl in H; lia].
  - destruct (frames w); [done | simpl in H; lia].
Qed.

Lemma harmless_refl (w : world) : harmless w w.
Proof. split; try done. exists []. by rewrite app_nil_r. Qed.

Lemma harmless_trans (w1 w2 w3 : world) :
  harmless w1 w2 → harmless w2 w3 → harmless w1 w3.
Proof.
  intros [Hf Hr Hs Hl (ts & Hts & Hn)] [Hf' Hr' Hs' Hl' (ts' & Hts' & Hn')].
  split; try congruence; [by auto |].
  exists (ts ++ ts'). split; [by rewrite Hts', Hts, app_assoc |].
  by apply Forall_app.
Qed.

Lemma harmless_inv (w w' : world) :
  harmless w w' → session_inv w → session_inv w'.
Proof.
  intros [Hf Hr Hs Hl (ts & Hts & Hn)] [Hc Hraf Hlive Hacq].
  split.
  - unfold chains in *. rewrite Hts, Hf, filter_app, length_app.
    rewrite (filter_session_none ts Hn). simpl. lia.
  - intros f. rewrite Hf, Hr. apply Hraf.
  - intros s Hs'. rewrite Hs. by apply Hlive, Hl.
  - rewrite Hts. intros [Hin | Hin]%elem_of_app s Hs'.
    + by apply (Hacq Hin s), Hl.
    + by apply (proj1 (Forall_forall _ _) Hn) in Hin.
Qed.

Ltac harmless_step :=
  repeat (simpl; case_match);
  split; simpl; try done;
  first [ by (exists []; rewrite app_nil_r; split; [reflexivity | constructor])
        | by (eexists [_]; split; [reflexivity | by repeat constructor]) ].

Lemma harmless_snapshot (w : world) : harmless w (snapshot w).
Proof. unfold snapshot. harmless_step. Qed.

Lemma harmless_toggle_theme (w : world) : harmless w (toggle_theme w).
Proof. unfold toggle_theme. harmless_step. Qed.

Lemma harmless_applyMirror (w : world) : harmless w (applyMirror w).
Proof. harmless_step. Qed.

Lemma harmless_set_checked (b : bool) (w : world) : harmless w (set_checked b w).
Proof. harmless_step. Qed.

Lemma harmless_listCameras_devices (ds : list device) (w : world) :
  harmless w (listCameras_devices ds w).
Proof.
  unfold listCameras_devices. cbv zeta.
  destruct (length _ =? 0)%nat; [harmless_step |].
  destruct (append_options_frame
              (imap camera_option (filter (λ d, kind d = "videoinput") ds))
              (set_select {| options := []; selectedIndex := None |} w))
    as [s ->].
  harmless_step.
Qed.

Lemma harmless_init_permitted (n : nat) (w : world) :
  harmless w (init_permitted (new_stream n w).1 (new_stream n w).2).
Proof.
  unfold init_permitted, listCameras, stop_tracks, new_stream.
  split; simpl; try done.
  - intros s (ts & Hts & Htrue). revert Hts. simpl.
    destruct (decide (s = next_stream w)) as [-> | Hne].
    + rewrite lookup_alter_eq, lookup_insert_eq. simpl. intros [= <-].
      apply list_elem_of_fmap in Htrue as (? & ? & _). done.
    + rewrite lookup_alter_ne, lookup_insert_ne by done. intros Hts.
      by exists ts.
  - eexists [_]. split; [done | by repeat constructor].
Qed.

Lemma harmless_resume (t : task) (o : outcome) (w w' : world) :
  is_session t = false → resume t o w = Some w' → harmless w w'.
Proof.
  intros Ht.
  destruct t, o; try done; simpl; intros [= <-];
    try (by apply harmless_listCameras_devices);
    try (by apply harmless_init_permitted);
    harmless_step.
Qed.

(** The session state after [stopCamera]. *)
Lemma stopCamera_session (w : world) :
  frames (stopCamera w) =
    match rafId w with
    | Some id => filter (λ i, i ≠ id) (frames w)
    | None => frames w
    end
  ∧ tasks (stopCamera w) = tasks w
  ∧ tracks (stopCamera w) =
      match stream w with
      | object s => alter (fmap (λ _, false)) s (tracks w)
      | _ => tracks w
      end.
Proof.
  unfold stopCamera. simpl.
  destruct (rafId w); simpl; destruct (stream w); done.
Qed.

Lemma inv_stopCamera (w : world) :
  session_inv w →
  session_inv (stopCamera w)
  ∧ frames (stopCamera w) = []
  ∧ ∀ s, ¬ live (stopCamera w) s.
Proof.
  intros [Hc Hraf Hlive Hacq].
  destruct (stopCamera_session w) as (Hf & Ht & Htr).
  destruct (stopCamera_post w) as (_ & Hr & Hs).
  assert (frames (stopCamera w) = []) as Hnil.
  { rewrite Hf. destruct (rafId w) as [id |] eqn:Hid.
    - apply filter_none. intros f Hin. apply Hraf in Hin.
      injection Hin as ->. tauto.
    - destruct (frames w) as [| f fs]; [done |].
      specialize (Hraf f (list_elem_of_here _ _)). done. }
  assert (∀ s, ¬ live (stopCamera w) s) as Hdead.
  { intros s (ts & Hts & Htrue). rewrite Htr in Hts.
    destruct (stream w) as [| | s0] eqn:Hs0.
    - assert (live w s) as Hl by by exists ts. apply Hlive in Hl. done.
    - assert (live w s) as Hl by by exists ts. apply Hlive in Hl. done.
    - destruct (decide (s = s0)) as [-> | Hne].
      + rewrite lookup_alter_eq in Hts.
        destruct (tracks w !! s0) as [ts0 |]; [| done]. simpl in Hts.
        injection Hts as <-. apply list_elem_of_fmap in Htrue as (? & ? & _). done.
      + rewrite lookup_alter_ne in Hts by done.
        assert (live w s) as Hl by by exists ts. apply Hlive in Hl. congruence. }
  split; [| done]. split.
  - unfold chains in *. rewrite Ht, Hnil. simpl. lia.
  - rewrite Hnil. by intros f ?%elem_of_nil.
  - intros s Hl. by apply Hdead in Hl.
  - intros _ s. apply Hdead.
Qed.

Lemma inv_one_more (w w' : world) (t : task) :
  idle w →
  frames w' = [] →
  tasks w' = tasks w ++ [t] →
  t ≠ startCamera_getUserMedia →
  (∀ s, live w' s → stream w' = object s) →
  session_inv w'.
Proof.
  intros Hidle Hf Ht Hne Hlive. split; [| | done |].
  - unfold chains. rewrite Ht, Hf, filter_app, length_app.
    rewrite (filter_session_none _ Hidle), filter_cons. case_decide; simpl; lia.
  - rewrite Hf. by intros f ?%elem_of_nil.
  - rewrite Ht. intros [Hin | Hin%list_elem_of_singleton]%elem_of_app; [| done].
    by apply (proj1 (Forall_forall _ _) Hidle) in Hin.
Qed.

Lemma inv_startCamera (w : world) :
  session_inv w → idle w → session_inv (startCamera w).
Proof.
  intros Hinv Hidle.
  destruct (inv_stopCamera w Hinv) as (_ & Hf & Hdead).
  destruct (stopCamera_session w) as (_ & Ht & _).
  assert (∀ s, ¬ live (startCamera w) s) as Hdead' by exact Hdead.
  split.
  - unfold chains.
    change (tasks (startCamera w))
      with (tasks (stopCamera w) ++ [startCamera_getUserMedia]).
    change (frames (startCamera w)) with (frames (stopCamera w)).
    rewrite Ht, Hf, filter_app, length_app, (filter_session_none _ Hidle).
    simpl. lia.
  - change (frames (startCamera w)) with (frames (stopCamera w)).
    rewrite Hf. by intros f ?%elem_of_nil.
  - intros s Hl. by apply Hdead' in Hl.
  - intros _. exact Hdead'.
Qed.

Lemma inv_settled (i : nat) (t : task) (w : world) :
  session_inv w →
  tasks w !! i = Some t →
  let w1 := set_tasks (delete i (tasks w)) w in
  session_inv w1
  ∧ (is_session t = true → idle w1 ∧ frames w1 = [])
  ∧ (t = startCamera_getUserMedia → ∀ s, ¬ live w1 s).
Proof.
  intros [Hc Hraf Hlive Hacq] Hi w1.
  pose proof (filter_session_delete i t _ Hi) as Hlen.
  assert (session_inv w1) as Hinv.
  { split; [| done | done |].
    - unfold chains in *. simpl. lia.
    - simpl. intros Hin%elem_of_delete. by apply Hacq. }
  split; [done |]. split.
  - intros Ht. apply no_chain_idle. unfold chains in *. simpl.
    rewrite Ht in Hlen. lia.
  - intros ->. apply Hacq. by apply (list_elem_of_lookup_2 _ i).
Qed.

Lemma inv_startCamera_stream (n : nat) (w : world) :
  idle w → frames w = [] → (∀ s, ¬ live w s) →
  session_inv (startCamera_stream (new_stream n w).1 (new_stream n w).2).
Proof.
  intros Hidle Hf Hdead.
  apply (inv_one_more w _ startCamera_play); try done.
  intros s (ts & Hts & Htrue). simpl in Hts.
  destruct (decide (s = next_stream w)) as [-> | Hne]; [done |].
  rewrite lookup_insert_ne in Hts by done.
  destruct (Hdead s). by exists ts.
Qed.

Lemma inv_startCamera_playing (w : world) :
  session_inv w → idle w → frames w = [] →
  session_inv (startCamera_playing w).
Proof.
  intros Hinv Hidle Hf.
  apply (inv_one_more w _ (loop_detect (performance_now w))); try done.
  exact (inv_live w Hinv).
Qed.

Lemma loop_resume_session (t0 : Q) (r : result) (w : world) :
  frames (loop_resume t0 r w) = frames w ++ [next_frame w]
  ∧ rafId (loop_resume t0 r w) = Some (next_frame w)
  ∧ tasks (loop_resume t0 r w) = tasks w
  ∧ tracks (loop_resume t0 r w) = tracks w
  ∧ stream (loop_resume t0 r w) = stream w.
Proof.
  unfold loop_resume.
  destruct (summarize_frame r (draw_overlays r w)) as (t & s & e & ->). done.
Qed.

Lemma inv_loop_resume (t0 : Q) (r : result) (w : world) :
  session_inv w → idle w → frames w = [] →
  session_inv (loop_resume t0 r w).
Proof.
  intros [Hc Hraf Hlive Hacq] Hidle Hf.
  destruct (loop_resume_session t0 r w) as (Hf' & Hr' & Ht' & Htr' & Hs').
  assert (∀ s, live (loop_resume t0 r w) s → live w s) as Hl.
  { intros s. unfold live. by rewrite Htr'. }
  split.
  - unfold chains. rewrite Ht', Hf', Hf, (filter_session_none _ Hidle). simpl. lia.
  - rewrite Hf', Hf, Hr'. by intros f ->%list_elem_of_singleton.
  - intros s Hs. rewrite Hs'. by apply Hlive, Hl.
  - rewrite Ht'. intros Hin s Hs. by apply (Hacq Hin s), Hl.
Qed.

Lemma inv_resume (i : nat) (t : task) (o : outcome) (w w' : world) :
  session_inv w →
  tasks w !! i = Some t →
  resume t o (set_tasks (delete i (tasks w)) w) = Some w' →
  session_inv w'.
Proof.
  intros Hinv Hi.
  destruct (inv_settled i t w Hinv Hi) as (Hinv1 & Hsess & Hacq).
  destruct (is_session t) eqn:Ht.
  - destruct Hsess as [Hidle Hf]; [done |].
    destruct t, o as [| | n | ds | r]; try done; simpl; intros [= <-].
    + eapply harmless_inv; [| exact Hinv1]; harmless_step.
    + exact (inv_startCamera_stream n _ Hidle Hf (Hacq eq_refl)).
    + eapply harmless_inv; [| exact Hinv1]; harmless_step.
    + by apply inv_startCamera_playing.
    + done.
    + by apply inv_loop_resume.
  - intros Hres. by apply (harmless_inv _ _ (harmless_resume _ _ _ _ Ht Hres)).
Qed.

Lemma inv_frame (id : positive) (w : world) :
  session_inv w → id ∈ frames w →
  session_inv (loop (set_frames (filter (λ i, i ≠ id) (frames w)) w)).
Proof.
  intros [Hc Hraf Hlive Hacq] Hid.
  assert (idle w ∧ filter (λ i, i ≠ id) (frames w) = []) as [Hidle Hnil].
  { unfold chains in Hc.
    destruct (frames w) as [| f [| f' fs]] eqn:Hfs; simpl in Hc;
      [by apply elem_of_nil in Hid | | lia].
    apply list_elem_of_singleton in Hid as ->.
    assert (chains (set_frames [] w) = 0%nat) as H0 by (unfold chains; simpl; lia).
    split; [by apply no_chain_idle in H0 as [? _] |].
    rewrite filter_cons, decide_False by tauto. done. }
  rewrite Hnil. unfold loop. simpl. destruct (running w); simpl.
  - apply (inv_one_more w _ (loop_detect (performance_now w))); done.
  - split; simpl; try done.
    + unfold chains. simpl. rewrite (filter_session_none _ Hidle). simpl. lia.
    + by intros f ?%elem_of_nil.
Qed.

Lemma inv_on_click (target : elem) (w : world) :
  session_inv w → (starts (click target) w = true → idle w) →
  session_inv (on_click target w).
Proof.
  intros Hinv Hstart. destruct target; simpl; try done.
  - by apply inv_startCamera, Hstart.
  - by apply inv_stopCamera.
  - by apply (harmless_inv _ _ (harmless_snapshot w)).
  - by apply (harmless_inv _ _ (harmless_toggle_theme w)).
Qed.

Lemma inv_on_keydown (k : string) (w : world) :
  session_inv w → (starts (keydown k) w = true → idle w) →
  session_inv (on_keydown k w).
Proof.
  intros Hinv Hstart. unfold on_keydown, starts in *. cbv zeta. simpl in Hstart.
  rewrite orb_false_r in Hstart.
  set (key := toLowerCase k) in *. clearbody key.
  destruct (decide (key = "s")) as [-> | Hs].
  - simpl. apply inv_startCamera; [done |]. apply Hstart. by apply bool_decide_eq_true.
  - destruct (decide (key = "x")) as [-> | Hx]; [simpl; by apply inv_stopCamera |].
    destruct (decide (key = "c")) as [-> | Hc].
    { simpl. by apply (harmless_inv _ _ (harmless_snapshot w)). }
    destruct (decide (key = "m")) as [-> | Hm].
    { simpl. apply (harmless_inv w); [| done].
      apply (harmless_trans _ (set_checked (negb (checked w)) w));
        [apply harmless_set_checked | apply harmless_applyMirror]. }
    cbv iota. destruct (decide (key = "t")); [| done].
    by apply (harmless_inv _ _ (harmless_toggle_theme w)).
Qed.

Lemma inv_handle (e : event) (w w' : world) :
  session_inv w → (starts e w = true → idle w) →
  handle e w = Some w' → session_inv w'.
Proof.
  intros Hinv Hstart.
  destruct e as [target | i | | k | id | i o | vw vh | p d]; simpl.
  - intros [= <-]. by apply inv_on_click.
  - destruct (options (select w) !! i) as [o |]; [| done].
    destruct (opt_disabled o); [done |]. intros [= <-].
    unfold camera_changed. simpl. unfold starts in Hstart. simpl in Hstart.
    destruct (truthy (stream w)).
    + apply inv_startCamera.
      * apply (harmless_inv w); [harmless_step | done].
      * exact (Hstart eq_refl).
    + apply (harmless_inv w); [harmless_step | done].
  - intros [= <-]. apply (harmless_inv w); [| done].
    apply (harmless_trans _ (set_checked (negb (checked w)) w));
      [apply harmless_set_checked | apply harmless_applyMirror].
  - intros [= <-]. by apply inv_on_keydown.
  - case_decide; [| done]. intros [= <-]. by apply inv_frame.
  - destruct (tasks w !! i) as [t |] eqn:Hi; [| done]. simpl.
    by apply inv_resume.
  - intros [= <-]. apply (harmless_inv w); [harmless_step | done].
  - intros [= <-]. apply (harmless_inv w); [harmless_step | done].
Qed.

Lemma inv_script (w0 : world) : pristine w0 → session_inv (script w0).
Proof.
  intros [Ht Hf Htr _].
  assert (tasks (script w0) = [init_load] ∧ frames (script w0) = []
          ∧ tracks (script w0) = ∅) as (Ht' & Hf' & Htr').
  { unfold script, init. simpl.
    destruct (localStorage w0 !! "theme") as [t |]; [case_decide |];
      simpl; by rewrite Ht, Hf, Htr. }
  assert (∀ s, ¬ live (script w0) s) as Hdead.
  { intros s (ts & Hts & _). by rewrite Htr', lookup_empty in Hts. }
  split.
  - unfold chains. rewrite Ht', Hf'. simpl. lia.
  - rewrite Hf'. by intros f ?%elem_of_nil.
  - intros s Hs. by apply Hdead in Hs.
  - intros _. exact Hdead.
Qed.

(** Along a run in which [startCamera] is only called while no earlier
    call of it and no loop iteration is suspended, there is at most one
    capture session at every point: at most one frame callback is pending
    and at most one stream is live, the one [stream] holds. *)
Theorem orderly_runs_have_one_session (w0 : world) (es : list event) (w : world) :
  pristine w0 →
  orderly es (script w0) →
  run es (script w0) = Some w →
  single_session w ∧ ∀ s, live w s → stream w = object s.
Proof.
  intros Hinv%inv_script. revert Hinv. generalize (script w0). clear w0.
  induction es as [| e es IH]; intros w1 Hinv; simpl.
  - intros _ [= <-]. destruct Hinv as [Hc _ Hlive _]. split; [split |].
    + unfold chains in Hc. lia.
    + intros s1 s2 H1%Hlive H2%Hlive. congruence.
    + done.
  - intros [Hstart Hrest]. destruct (handle e w1) as [w2 |] eqn:He; [| done].
    simpl. apply IH; [| done]. by apply (inv_handle e w1).
Qed.

(** A session that is started, runs for a frame, is restarted while its
    frame callback is pending and is then stopped is an orderly run. *)
Example a_restart_is_orderly :
  let es := [ keydown "s"; settle 1 (fulfilled_stream 1); settle 1 fulfilled;
              settle 1 (fulfilled_result one_face);
              click startBtn; settle 1 (fulfilled_stream 1); settle 1 fulfilled;
              settle 1 (fulfilled_result no_faces); animation_frame 2;
              click stopBtn; settle 1 (fulfilled_result no_faces);
              animation_frame 3 ] in
  orderly es (script page0)
  ∧ ∃ w, run es (script page0) = Some w ∧ frames w = [] ∧ tasks w = [init_load].
Proof.
  split.
  - vm_compute. repeat split; try (by intros [=]); intros _; by repeat constructor.
  - eexists. split; [by vm_compute |]. by vm_compute.
Qed.

(** Pressing [s] twice in a row is not. *)
Example a_double_start_is_not_orderly :
  ¬ orderly [keydown "s"; keydown "s"] (script page0).
Proof.
  vm_compute. intros (_ & Hidle & _). specialize (Hidle eq_refl).
  by inversion Hidle as [| ? ? ? Htail]; inversion Htail.
Qed.

(** ** Overlapping calls (C3, C4) *)

(** C3. A run in which [stopCamera] does not keep the detector quiet: the
    user presses [s], then [x] while [getUserMedia] is still pending. The
    [x] is exactly a call of [stopCamera], which leaves [running] false and
    [rafId] and [stream] null; no later event calls [startCamera]; yet when
    the camera and the video settle, the suspended [startCamera] sets
    [running] and the loop calls the detector. *)
Theorem C3_detector_called_after_stopCamera :
  ∃ w w',
    run [keydown "s"] (script page0) = Some w
    ∧ handle (keydown "x") w = Some (stopCamera w)
    ∧ running (stopCamera w) = false
    ∧ rafId (stopCamera w) = None
    ∧ stream (stopCamera w) = null
    ∧ calls_startCamera <$> [settle 1 (fulfilled_stream 1); settle 1 fulfilled]
        = [false; false]
    ∧ run [settle 1 (fulfilled_stream 1); settle 1 fulfilled] (stopCamera w) = Some w'
    ∧ running w' = true
    ∧ log w' = log (stopCamera w) ++ [video_play; human_detect video].
Proof.
  eexists _, _. split; [by vm_compute |]. split; [by vm_compute |].
  do 4 (split; [done |]). split; [by vm_compute |]. by vm_compute.
Qed.

(** C4. A run with two capture sessions at once: the user presses [s]
    twice before the first [getUserMedia] settles. Each call of
    [startCamera] begins with [stopCamera], which finds nothing to stop;
    then both streams arrive, both videos play and both loops run. In the
    end two frame callbacks are pending, and the first stream is still live
    although [stream] holds the second. *)
Theorem C4_two_sessions_at_once :
  ∃ w,
    pristine page0
    ∧ run [ keydown "s"; keydown "s";
            settle 1 (fulfilled_stream 1); settle 1 (fulfilled_stream 1);
            settle 1 fulfilled; settle 1 fulfilled;
            settle 1 (fulfilled_result no_faces);
            settle 1 (fulfilled_result no_faces) ] (script page0) = Some w
    ∧ frames w = [1; 2]%positive
    ∧ stream w = object 1
    ∧ tracks w !! 0%nat = Some [true]
    ∧ tracks w !! 1%nat = Some [true]
    ∧ ¬ single_session w.
Proof.
  eexists. split; [by split |]. split; [by vm_compute |].
  do 4 (split; [by vm_compute |]).
  intros [Hframes _]. revert Hframes. vm_compute. lia.
Qed.

(** Restarting while a detection is in flight doubles the loop as well:
    the resumed iteration of the old loop requests a frame after
    [stopCamera] has run, and that frame fires once the new session has set
    [running]. *)
Example a_restart_during_detection :
  ∃ w,
    run [ keydown "s"; settle 1 (fulfilled_stream 1); settle 1 fulfilled;
          click startBtn; settle 1 (fulfilled_result one_face);
          settle 1 (fulfilled_stream 1); settle 1 fulfilled;
          animation_frame 1;
          settle 1 (fulfilled_result one_face);
          settle 1 (fulfilled_result one_face) ] (script page0) = Some w
    ∧ frames w = [2; 3]%positive
    ∧ rafId w = Some 3%positive.
Proof. eexists. split; [by vm_compute |]. by vm_compute. Qed.

(** * Further properties of the script *)

(** ** Keyboard, mirror and theme *)

Lemma lower_idempotent (c : ascii) : lower (lower c) = lower c.
Proof. by destruct c as [[] [] [] [] [] [] [] []]. Qed.

Lemma toLowerCase_idempotent (s : string) :
  toLowerCase (toLowerCase s) = toLowerCase s.
Proof.
  induction s as [| c s IH]; [done |]. simpl. by rewrite lower_idempotent, IH.
Qed.

Lemma on_keydown_dispatch (k : string) (w : world) :
  on_keydown k w =
    if decide (toLowerCase k = "s") then on_click startBtn w
    else if decide (toLowerCase k = "x") then on_click stopBtn w
    else if decide (toLowerCase k = "c") then on_click snapBtn w
    else if decide (toLowerCase k = "m")
         then applyMirror (set_checked (negb (checked w)) w)
    else if decide (toLowerCase k = "t") then on_click themeToggle w
    else w.
Proof.
  unfold on_keydown. cbv zeta.
  set (key := toLowerCase k). clearbody key.
  destruct (decide (key = "s")) as [-> | Hs]; [done |].
  destruct (decide (key = "x")) as [-> | Hx]; [done |].
  destruct (decide (key = "c")) as [-> | Hc]; [done |].
  destruct (decide (key = "m")) as [-> | Hm]; [done |].
  done.
Qed.

(** X1. The keyboard shortcuts are the buttons, whatever the case of the
    letter: [s] is a click on Start, [x] on Stop, [c] on Snapshot, [t] on
    the theme toggle, and [m] flips the mirror checkbox and applies it.
    Every other key leaves the world as it is. *)
Theorem X1_shortcuts_are_the_buttons (k : string) (w : world) :
  on_keydown k w =
    (if decide (toLowerCase k = "s") then on_click startBtn w
     else if decide (toLowerCase k = "x") then on_click stopBtn w
     else if decide (toLowerCase k = "c") then on_click snapBtn w
     else if decide (toLowerCase k = "m")
          then applyMirror (set_checked (negb (checked w)) w)
     else if decide (toLowerCase k = "t") then on_click themeToggle w
     else w)
  ∧ on_keydown (toLowerCase k) w = on_keydown k w.
Proof.
  split; [apply on_keydown_dispatch |].
  unfold on_keydown. by rewrite toLowerCase_idempotent.
Qed.

(** X2. [applyMirror] gives the video and the overlay the same transform,
    [scaleX(-1)] when the mirror box is checked and [scaleX(1)] when it is
    not, and touches the transform of no other element; toggling the mirror
    twice brings back the box and both transforms. *)
Theorem X2_mirror_keeps_video_and_overlay_aligned (w : world) (e : elem) :
  style_transform (applyMirror w) e
    = (if decide (e = video ∨ e = overlay)
       then (if checked w then "scaleX(-1)" else "scaleX(1)")
       else style_transform w e)
  ∧ ∃ w2, run [change_mirror; change_mirror] w = Some w2
          ∧ checked w2 = checked w
          ∧ style_transform w2 e = style_transform (applyMirror w) e.
Proof.
  split.
  - case_decide as He.
    + by destruct He as [-> | ->].
    + destruct e; try done; exfalso; apply He; auto.
  - eexists. split; [reflexivity |]. simpl. rewrite negb_involutive.
    split; [done |]. by destruct e, (checked w).
Qed.

Lemma toggle_theme_theme (w : world) :
  data_theme (toggle_theme w)
    = Some (if decide (data_theme w = Some "dark") then "light" else "dark")
  ∧ localStorage (toggle_theme w) !! "theme" = data_theme (toggle_theme w).
Proof. unfold toggle_theme. simpl. by rewrite lookup_insert_eq. Qed.

(** X3. After a toggle the page's theme is [dark] or [light] and the
    stored theme is the one the page shows; from then on, two more toggles
    bring back the same theme. *)
Theorem X3_theme_toggle_alternates (w : world) :
  (data_theme (toggle_theme w) = Some "dark"
   ∨ data_theme (toggle_theme w) = Some "light")
  ∧ localStorage (toggle_theme w) !! "theme" = data_theme (toggle_theme w)
  ∧ data_theme (toggle_theme (toggle_theme (toggle_theme w)))
      = data_theme (toggle_theme w).
Proof.
  destruct (toggle_theme_theme w) as [H1 Hs].
  destruct (toggle_theme_theme (toggle_theme w)) as [H2 _].
  destruct (toggle_theme_theme (toggle_theme (toggle_theme w))) as [H3 _].
  split; [| split; [done |]].
  - rewrite H1. destruct (decide (data_theme w = Some "dark")); [right | left]; done.
  - rewrite H3, H2, H1. destruct (decide (data_theme w = Some "dark")); done.
Qed.

(** X4. The theme survives a reload: when the script starts on a page
    whose storage is the one a toggle left, [init] gives the page the theme
    that toggle chose, whatever theme the fresh page came with. *)
Theorem X4_theme_survives_reload (w w1 : world) :
  localStorage w1 = localStorage (toggle_theme w) →
  data_theme (script w1) = data_theme (toggle_theme w).
Proof.
  intros Hs. destruct (toggle_theme_theme w) as [Ht Hl].
  unfold script, init. simpl. rewrite Hs, Hl, Ht.
  by destruct (decide (data_theme w = Some "dark")).
Qed.

(** ** What a frame shows *)

Lemma summarize_facesText (r : result) (w : world) :
  textContent (summarize r w) facesText =
    ToString (of_nat (length (default [] (faces_of r)))).
Proof.
  unfold summarize. rewrite renderEmotions_eq.
  destruct (negb (length _ =? 0)%nat); [destruct (sort by_score _) |]; done.
Qed.

Lemma loop_resume_fpsText (t0 : Q) (r : result) (w : world) :
  textContent (loop_resume t0 r w) fpsText =
    toFixed1 (div (Fin 1000) (Fin (round53 (performance_now w - t0)))) +:+ " fps".
Proof.
  change (textContent (loop_resume t0 r w) fpsText)
    with (toFixed1
            (div (Fin 1000)
               (Fin (round53
                       (performance_now (summarize r (draw_overlays r w)) - t0))))
          +:+ " fps").
  by rewrite summarize_performance_now.
Qed.

Lemma Qmin_left (x y : Q) : (x <= y)%Q → Qmin x y = x.
Proof.
  intros H. unfold Qmin, GenericMinMax.gmin.
  pose proof (proj1 (Qle_alt x y) H) as Hc. by destruct (x ?= y)%Q.
Qed.

Lemma capped_percent_five_or_more (n : nat) :
  (5 ≤ n)%nat → capped_percent (of_nat n) (Fin 5) = Fin 100.
Proof.
  intros Hn. unfold capped_percent, of_nat, div, mul, Math_min.
  change (Qeq_bool 5 0) with false. cbv iota. f_equal.
  apply Qmin_left.
  assert (5 <= inject_Z (Z.of_nat n))%Q as H5.
  { change 5%Q with (inject_Z 5). rewrite <- Zle_Qle. lia. }
  assert (1 <= round53 (inject_Z (Z.of_nat n) / 5))%Q as H1.
  { apply round53_ge_1. unfold Qdiv. change (/ 5)%Q with (1 # 5)%Q. lra. }
  apply round53_ge_100. lra.
Qed.

(** X5. When the first face has emotions, the emotion list shows exactly
    one row per emotion, in the detector's order, each built from that
    entry alone; whatever the list showed before is gone, so rows never
    pile up from frame to frame. *)
Theorem X5_one_row_per_emotion
    (t0 : Q) (r : result) (w : world)
    (f : face) (fs : list face) (es : list emotion_entry) :
  faces_of r = Some (f :: fs) →
  emotions f = Some es →
  es ≠ [] →
  emotions_el (loop_resume t0 r w)
    = {| markup := EmptyString; rows := emotion_row <$> es |}
  ∧ length (rows (emotions_el (loop_resume t0 r w))) = length es.
Proof.
  intros Hr Hf Hes.
  rewrite loop_resume_emotions_el, summarize_emotions_el. cbv zeta.
  rewrite Hr. simpl. rewrite Hf. simpl.
  rewrite decide_False by done. split; [done |]. simpl. apply length_fmap.
Qed.

(** X6. The faces counter shows the number of faces in decimal, and the
    faces bar is 20% wide per face and full from five faces on. *)
Theorem X6_faces_counter_and_bar (t0 : Q) (r : result) (w : world) :
  let n := length (default [] (faces_of r)) in
  Z.of_nat n < 2 ^ 32 →
  textContent (loop_resume t0 r w) facesText = digits (Z.of_nat n)
  ∧ style_width (loop_resume t0 r w) facesBar
      = (if (n <? 5)%nat then digits (20 * Z.of_nat n) +:+ "%" else "100%").
Proof.
  intros n Hn. split.
  - change (textContent (loop_resume t0 r w) facesText)
      with (textContent (summarize r (draw_overlays r w)) facesText).
    rewrite summarize_facesText. fold n. apply ToString_natural.
    split; [lia |]. eapply Z.lt_trans; [exact Hn | done].
  - change (style_width (loop_resume t0 r w) facesBar)
      with (style_width (summarize r (draw_overlays r w)) facesBar).
    rewrite summarize_facesBar. fold n. clear Hn.
    destruct (n <? 5)%nat eqn:H5.
    + apply Nat.ltb_lt in H5.
      destruct n as [| [| [| [| [| n']]]]]; try lia; by vm_compute.
    + apply Nat.ltb_ge in H5. by rewrite capped_percent_five_or_more.
Qed.

(** X7. When no time has passed between the call of the detector and its
    result, the division by zero shows: the fps text reads [Infinity fps]
    and the fps bar is full. *)
Theorem X7_no_elapsed_time (t0 : Q) (r : result) (w : world) :
  (performance_now w == t0)%Q →
  textContent (loop_resume t0 r w) fpsText = "Infinity fps"
  ∧ style_width (loop_resume t0 r w) fpsBar = "100%".
Proof.
  intros Heq.
  assert (div (Fin 1000) (Fin (round53 (performance_now w - t0))) = PInf) as Hfps.
  { unfold div. rewrite (round53_0 (performance_now w - t0)) by lra. done. }
  rewrite loop_resume_fpsText, loop_resume_fpsBar, Hfps. by vm_compute.
Qed.

(** X8. For a score between 0 and 1, [pct] rounds twice. The product of
    the score and 100 is rounded as binary64 rounds it, to [x], which is
    off by at most one part in [2^53]; then [toFixed(1)] writes the tenths
    nearest to [x], the upper one of two, as an integer part, a point and
    exactly one digit. The tenths written are those nearest to [x], not
    always those nearest to a hundred times the score. *)
Theorem X8_pct_one_decimal (q : Q) :
  (0 <= q)%Q → (q <= 1)%Q →
  let x := round53 (q * 100) in
  let n := nearest_tenth x in
  pct (Fin q) = digits (n / 10) +:+ "." +:+ digits (n mod 10) +:+ "%"
  ∧ 0 ≤ n ≤ 1000
  ∧ 0 ≤ n mod 10 < 10
  ∧ (inject_Z n / 10 - x <= 1 # 20)%Q
  ∧ (x - inject_Z n / 10 < 1 # 20)%Q
  ∧ (Qabs (x - q * 100) <= q * 100 / inject_Z (2 ^ 53))%Q.
Proof. intros H0 H1. exact (pct_of_probability q H0 H1). Qed.

Lemma sort_first_top (l : list emotion_entry) :
  l ≠ [] →
  ∃ t rest pre post,
    sort by_score l = t :: rest
    ∧ l = pre ++ t :: post
    ∧ (∀ e, e ∈ pre → (score e < score t)%Q)
    ∧ (∀ e, e ∈ post → (score e <= score t)%Q).
Proof.
  induction l as [| x l IH]; [done | intros _].
  destruct l as [| y l].
  - exists x, [], [], []. repeat split; try done; by intros e ?%elem_of_nil.
  - destruct IH as (t & rest & pre & post & Hs & Hl & Hpre & Hpost); [done |].
    change (sort by_score (x :: y :: l))
      with (sort_insert by_score x (sort by_score (y :: l))).
    rewrite Hs, Hl. cbn [sort_insert].
    destruct (positive_number (by_score x t)) eqn:Hc.
    + apply by_score_positive in Hc.
      exists t, (sort_insert by_score x rest), (x :: pre), post.
      repeat split; try done.
      intros e [-> | He]%elem_of_cons; [done | by apply Hpre].
    + assert (score t <= score x)%Q as Htx.
      { apply Qnot_lt_le. intros Hlt. apply by_score_positive in Hlt. congruence. }
      exists x, (t :: rest), [], (pre ++ t :: post).
      repeat split; try done; [by intros e ?%elem_of_nil |].
      intros e [He | [-> | He]%elem_of_cons]%elem_of_app.
      * eapply Qle_trans; [apply Qlt_le_weak, Hpre, He | done].
      * done.
      * eapply Qle_trans; [apply Hpost, He | done].
Qed.

(** X9. Among entries with the same best score the badge names the one
    the detector listed first: every entry before the one shown has a
    strictly smaller score, and no entry after it has a larger one. *)
Theorem X9_ties_go_to_the_first
    (t0 : Q) (r : result) (w : world)
    (f : face) (fs : list face) (es : list emotion_entry) :
  faces_of r = Some (f :: fs) →
  emotions f = Some es →
  es ≠ [] →
  ∃ pre top post,
    es = pre ++ top :: post
    ∧ (∀ e, e ∈ pre → (score e < score top)%Q)
    ∧ (∀ e, e ∈ post → (score e <= score top)%Q)
    ∧ textContent (loop_resume t0 r w) topMood = emotion top.
Proof.
  intros Hr Hf Hes.
  destruct (sort_first_top es Hes) as (top & rest & pre & post & Hs & Hl & Hpre & Hpost).
  exists pre, top, post. do 3 (split; [done |]).
  pose proof (loop_resume_top t0 r w) as Hw.
  rewrite summarize_top in Hw. cbv zeta in Hw.
  rewrite Hr in Hw. simpl in Hw. rewrite Hf in Hw. simpl in Hw.
  rewrite Hs in Hw. exact (f_equal mood Hw).
Qed.

(** ** Stopping and not starting *)

(** X10. [stopCamera] with a frame recorded in [rafId] and a stream held:
    the recorded frame is no longer pending while the other pending frames
    stay; every track of the held stream is ended and the tracks of other
    streams are as they were; the host saw one [cancelAnimationFrame] and
    then one [stop] per track; and no suspended task is touched. *)
Theorem X10_stopCamera_releases
    (w : world) (id : positive) (s : nat) (ts : list bool) :
  rafId w = Some id →
  stream w = object s →
  tracks w !! s = Some ts →
  (id ∉ frames (stopCamera w))
  ∧ (∀ f, f ≠ id → f ∈ frames w → f ∈ frames (stopCamera w))
  ∧ tracks (stopCamera w) !! s = Some (replicate (length ts) false)
  ∧ (∀ s', s' ≠ s → tracks (stopCamera w) !! s' = tracks w !! s')
  ∧ log (stopCamera w)
      = log w ++ (cancelAnimationFrame id :: (track_stop s <$> seq 0 (length ts)))
  ∧ tasks (stopCamera w) = tasks w.
Proof.
  intros Hraf Hs Hts.
  destruct (stopCamera_session w) as (Hf & Ht & Htr).
  rewrite Hraf in Hf. rewrite Hs in Htr. rewrite Hf, Htr, Ht.
  split; [| split; [| split; [| split; [| split]]]]; [| | | | | done].
  - intros [Hne _]%list_elem_of_filter. done.
  - intros f Hne Hin. apply list_elem_of_filter. done.
  - rewrite lookup_alter_eq, Hts. simpl. f_equal.
    clear Hts. induction ts as [| b ts IH]; [done | simpl; f_equal; exact IH].
  - intros s' Hne. by rewrite lookup_alter_ne.
  - unfold stopCamera. simpl. rewrite Hraf. simpl. rewrite Hs. simpl.
    rewrite Hts. simpl. by rewrite <- app_assoc.
Qed.

(** X11. Once [stopCamera] has run with no call of [startCamera]
    suspended, the camera stays off as long as the user does not start it:
    whatever frames fire, promises settle, cameras are picked, snapshots
    are taken or themes toggled, [running] stays false and the detector is
    not called again. *)
Theorem X11_stop_is_final_until_start (w : world) (es : list event) (w' : world) :
  Forall (λ t, is_startCamera t = false) (tasks w) →
  Forall (λ e, calls_startCamera e = false) es →
  run es (stopCamera w) = Some w' →
  running w' = false
  ∧ truthy (stream w') = false
  ∧ detections (log w') = detections (log (stopCamera w)).
Proof.
  intros Ht Hes Hrun.
  destruct (stopped_camera_stays_stopped es _ _ (stopCamera_stopped w Ht) Hes Hrun)
    as [[Hr Hs _] Hd].
  done.
Qed.

(** X12. As long as [startCamera] is only called while no earlier call of
    it and no loop iteration is suspended at an [await], there is one
    capture session at most: at most one frame callback is pending, at most
    one stream is live, and a live stream is the one [stream] holds. *)
Theorem X12_one_session_on_orderly_runs
    (w0 : world) (es : list event) (w : world) :
  pristine w0 →
  orderly es (script w0) →
  run es (script w0) = Some w →
  (length (frames w) ≤ 1)%nat
  ∧ (∀ s1 s2, live w s1 → live w s2 → s1 = s2)
  ∧ (∀ s, live w s → stream w = object s).
Proof.
  intros Hp Ho Hrun.
  destruct (orderly_runs_have_one_session w0 es w Hp Ho Hrun) as [[Hf Hl] Hs].
  done.
Qed.

Lemma live_same (w w' : world) :
  tracks w' = tracks w → ∀ s, live w' s → live w s.
Proof. intros Ht s. unfold live. by rewrite Ht. Qed.

Lemma stopCamera_keeps_dead (w : world) :
  truthy (stream w) = false → ∀ s, live (stopCamera w) s → live w s.
Proof.
  intros Hs. apply live_same.
  destruct (stopCamera_session w) as (_ & _ & ->). by destruct (stream w).
Qed.

Lemma no_new_live_handle (e : event) (w w' : world) :
  stopped w → calls_startCamera e = false →
  handle e w = Some w' → ∀ s, live w' s → live w s.
Proof.
  intros [Hr Hs Ht] He.
  destruct e as [target | i | | k | id | i o | vw vh | p d]; simpl.
  - intros [= <-]. destruct target; try done; simpl;
      first [ by apply stopCamera_keeps_dead
            | apply (harmless_live _ _ (harmless_snapshot w))
            | apply (harmless_live _ _ (harmless_toggle_theme w)) ].
  - destruct (options (select w) !! i) as [o |]; [| done].
    destruct (opt_disabled o); [done |]. intros [= <-].
    unfold camera_changed. simpl. rewrite Hs. by apply live_same.
  - intros [= <-]. by apply live_same.
  - intros [= <-]. rewrite on_keydown_dispatch. simpl in He.
    apply bool_decide_eq_false in He. rewrite (decide_False _ _ He).
    repeat case_decide; try done;
      first [ by apply stopCamera_keeps_dead
            | apply (harmless_live _ _ (harmless_snapshot w))
            | apply (harmless_live _ _ (harmless_toggle_theme w))
            | by apply live_same ].
  - case_decide; [| done]. intros [= <-].
    rewrite loop_guard by done. by apply live_same.
  - destruct (tasks w !! i) as [t |] eqn:Hi; [| done]. simpl. intros Hres.
    assert (is_startCamera t = false) as Hnot.
    { by apply (Forall_lookup_1 _ _ _ _ Ht Hi). }
    destruct (is_session t) eqn:Hsess.
    + destruct t, o as [| | n | ds | r]; try done; simpl in Hres;
        injection Hres as <-; apply live_same; [done |].
      by destruct (loop_resume_session t0 r (set_tasks (delete i (tasks w)) w))
        as (_ & _ & _ & -> & _).
    + intros s Hl. by apply (harmless_live _ _ (harmless_resume _ _ _ _ Hsess Hres)).
  - intros [= <-]. by apply live_same.
  - intros [= <-]. by apply live_same.
Qed.

(** X13. Until the user starts the camera, the script keeps it off: along
    every run from the first line of the script in which [startCamera] is
    never called, [running] stays false, the detector is never called and
    no stream is left live, the stream [init] opens to obtain the device
    labels included. *)
Theorem X13_camera_off_until_started
    (w0 : world) (es : list event) (w : world) :
  pristine w0 →
  Forall (λ e, calls_startCamera e = false) es →
  run es (script w0) = Some w →
  running w = false
  ∧ detections (log w) = []
  ∧ ∀ s, ¬ live w s.
Proof.
  intros [Ht Hf Htr Hlog] Hes Hrun.
  assert (tasks (script w0) = [init_load] ∧ log (script w0) =
            [localStorage_getItem "theme"; new_Human; human_load]
          ∧ tracks (script w0) = ∅
          ∧ running (script w0) = false
          ∧ stream (script w0) = undefined) as (Ht' & Hlog' & Htr' & Hr' & Hs').
  { unfold script, init. simpl.
    destruct (localStorage w0 !! "theme") as [t |]; [case_decide |];
      simpl; by rewrite Ht, Hlog, Htr. }
  assert (stopped (script w0)) as Hstop.
  { split; [done | by rewrite Hs' |]. rewrite Ht'. by repeat constructor. }
  destruct (stopped_camera_stays_stopped es _ _ Hstop Hes Hrun) as [[Hr _ _] Hd].
  split; [done |]. split; [by rewrite Hd, Hlog' |].
  assert (∀ s, live w s → live (script w0) s) as Hlive.
  { clear Hd Hr Ht' Hlog' Htr' Hr' Hs'. revert Hstop Hrun. generalize (script w0).
    induction Hes as [| e es He Hes IH]; intros w1 Hstop; simpl.
    - by intros [= <-].
    - destruct (handle e w1) as [w2 |] eqn:Hh; [| done]. simpl. intros Hrun s Hl.
      apply (no_new_live_handle e w1 w2 Hstop He Hh).
      apply (IH w2); [by destruct (still_handle _ _ _ Hstop He Hh) | done | done]. }
  intros s (ts & Hts & _)%Hlive. by rewrite Htr', lookup_empty in Hts.
Qed.

(** ** Choosing and starting a camera *)

Lemma stopCamera_frame (w : world) :
  ∃ fr tr lg,
    stopCamera w =
      set_stream null
        (set_tracks tr (set_log lg (set_frames fr (set_rafId None (set_running false w))))).
Proof.
  exists (frames (stopCamera w)), (tracks (stopCamera w)), (log (stopCamera w)).
  unfold stopCamera. simpl.
  destruct (rafId w); simpl; destruct (stream w); reflexivity.
Qed.

Lemma append_options_selected (os : list option_el) (w : world) (i : nat) :
  selectedIndex (select w) = Some i →
  selectedIndex (select (foldl (λ w o, append_option o w) w os)) = Some i.
Proof.
  revert w. induction os as [| o os IH]; intros w Hi; simpl; [done |].
  apply IH. simpl. by rewrite Hi.
Qed.

Lemma listCameras_selects_first (ds : list device) (w : world) (c : device) (cams : list device) :
  filter (λ d, kind d = "videoinput") ds = c :: cams →
  selectedIndex (select (listCameras_devices ds w)) = Some 0%nat
  ∧ options (select (listCameras_devices ds w)) !! 0%nat = Some (camera_option 0 c).
Proof.
  intros Hc. unfold listCameras_devices. cbv zeta. rewrite Hc.
  change (length (c :: cams) =? 0)%nat with false. cbv iota. split.
  - simpl. by apply append_options_selected.
  - by rewrite append_options_eq.
Qed.

(** X14. After the cameras are listed, the first camera is the selected
    one, and a start asks [getUserMedia] for exactly that device; when the
    browser hides the device id (an empty string) the start asks for the
    user-facing camera at 1280 by 720 instead. *)
Theorem X14_start_uses_the_first_camera
    (ds : list device) (w : world) (c : device) (cams : list device) :
  filter (λ d, kind d = "videoinput") ds = c :: cams →
  select_value (select (listCameras_devices ds w)) = deviceId c
  ∧ log (startCamera (listCameras_devices ds w))
      = log (stopCamera (listCameras_devices ds w))
        ++ [getUserMedia (if decide (deviceId c = EmptyString)
                          then user_facing 1280 720
                          else exact_device (deviceId c))].
Proof.
  intros Hc.
  destruct (listCameras_selects_first ds w c cams Hc) as [Hsel Hopt].
  assert (select_value (select (listCameras_devices ds w)) = deviceId c) as Hv.
  { unfold select_value. by rewrite Hsel, Hopt. }
  split; [done |].
  destruct (stopCamera_frame (listCameras_devices ds w)) as (fr & tr & lg & Heq).
  unfold startCamera. rewrite Heq. simpl. rewrite Hv. by case_decide.
Qed.

Lemma handle_settle_last (w : world) (l : list task) (t : task) (o : outcome) :
  tasks w = l ++ [t] →
  handle (settle (length l) o) w = resume t o (set_tasks l w).
Proof.
  intros H. simpl. rewrite H, list_lookup_middle by done. simpl.
  by rewrite delete_middle, app_nil_r.
Qed.

(** X15. Picking another camera: the select takes the value of the picked
    option; while a stream is held the handler restarts the camera, that
    is, it stops as [stopCamera] does and asks [getUserMedia] for the
    picked device, leaving a suspended [startCamera]; while no stream is
    held nothing else happens. *)
Theorem X15_camera_change
    (w : world) (i : nat) (o : option_el) :
  options (select w) !! i = Some o →
  opt_disabled o = false →
  ∃ w', handle (change_camera i) w = Some w'
    ∧ select_value (select w') = option_value o
    ∧ if truthy (stream w) then
        running w' = false ∧ stream w' = null ∧ rafId w' = None
        ∧ tasks w' = tasks w ++ [startCamera_getUserMedia]
        ∧ ∃ calls, log (stopCamera w) = log w ++ calls
            ∧ log w' = log w ++ calls
                ++ [getUserMedia (if decide (option_value o = EmptyString)
                                  then user_facing 1280 720
                                  else exact_device (option_value o))]
      else
        running w' = running w ∧ stream w' = stream w ∧ rafId w' = rafId w
        ∧ tasks w' = tasks w ∧ log w' = log w.
Proof.
  intros Ho Hd. simpl. rewrite Ho, Hd. eexists. split; [reflexivity |].
  unfold camera_changed. simpl.
  assert (select_value {| options := options (select w); selectedIndex := Some i |}
          = option_value o) as Hv.
  { unfold select_value. simpl. by rewrite Ho. }
  destruct (truthy (stream w)) eqn:Ht; [| done].
  assert (∃ calls, log (stopCamera w) = log w ++ calls
            ∧ log (stopCamera
                     (set_select {| options := options (select w);
                                    selectedIndex := Some i |} w))
              = log w ++ calls
            ∧ select (stopCamera
                     (set_select {| options := options (select w);
                                    selectedIndex := Some i |} w))
              = {| options := options (select w); selectedIndex := Some i |}
            ∧ tasks (stopCamera
                     (set_select {| options := options (select w);
                                    selectedIndex := Some i |} w))
              = tasks w)
    as (calls & Hl & Hl' & Hsel & Htasks).
  { unfold stopCamera. simpl.
    destruct (rafId w); simpl; destruct (stream w); simpl;
      eexists; (split; [| split; [| split]]);
      try reflexivity; try (by rewrite app_nil_r);
      try (by rewrite <- app_assoc). }
  split.
  - change (select (startCamera ?x)) with (select (stopCamera x)).
    by rewrite Hsel.
  - split; [apply stopCamera_post |]. split; [apply stopCamera_post |].
    split; [apply stopCamera_post |]. split.
    + change (tasks (startCamera ?x))
        with (tasks (stopCamera x) ++ [startCamera_getUserMedia]).
      by rewrite Htasks.
    + exists calls. split; [done |].
      change (log (startCamera ?x))
        with (log (stopCamera x) ++
              [getUserMedia (if decide (select_value (select (stopCamera x)) = EmptyString)
                             then user_facing 1280 720
                             else exact_device (select_value (select (stopCamera x))))]).
      by rewrite Hl', Hsel, Hv, <- app_assoc.
Qed.

Lemma run_step (e : event) (es : list event) (w w1 : world) :
  handle e w = Some w1 → run (e :: es) w = run es w1.
Proof. intros H. cbn [run]. by rewrite H. Qed.

Lemma startCamera_state (w : world) :
  tasks (startCamera w) = tasks w ++ [startCamera_getUserMedia]
  ∧ running (startCamera w) = false
  ∧ stream (startCamera w) = null
  ∧ rafId (startCamera w) = None
  ∧ next_stream (startCamera w) = next_stream w
  ∧ videoSize (startCamera w) = videoSize w
  ∧ performance_now (startCamera w) = performance_now w
  ∧ checked (startCamera w) = checked w.
Proof.
  destruct (stopCamera_frame w) as (fr & tr & lg & Heq).
  unfold startCamera. rewrite Heq. done.
Qed.

Lemma start_path_rejected (w1 : world) (l : list task) :
  tasks w1 = l ++ [startCamera_getUserMedia] →
  ∃ w', handle (settle (length l) rejected) w1 = Some w'
    ∧ running w' = running w1 ∧ stream w' = stream w1 ∧ rafId w' = rafId w1
    ∧ tasks w' = l
    ∧ log w' = log w1
        ++ [ console_error "Camera error:";
             alert "Unable to access camera. Check permissions and that no other app is using it." ].
Proof.
  intros Ht. rewrite (handle_settle_last _ _ _ _ Ht). simpl.
  eexists. split; [reflexivity |]. simpl. by rewrite <- app_assoc.
Qed.

Lemma start_path_no_playback (w1 : world) (l : list task) (n : nat) :
  tasks w1 = l ++ [startCamera_getUserMedia] →
  ∃ w', run [ settle (length l) (fulfilled_stream n);
              settle (length l) rejected ] w1 = Some w'
    ∧ running w' = running w1
    ∧ stream w' = object (next_stream w1)
    ∧ tracks w' !! next_stream w1 = Some (replicate n true)
    ∧ tasks w' = l
    ∧ log w' = log w1
        ++ [ video_play; console_error "Camera error:";
             alert "Unable to access camera. Check permissions and that no other app is using it." ].
Proof.
  intros Ht. eexists. split.
  - erewrite run_step; [| rewrite (handle_settle_last _ _ _ _ Ht); reflexivity].
    erewrite run_step; [reflexivity |].
    by rewrite (handle_settle_last _ l startCamera_play).
  - simpl. rewrite lookup_insert_eq. by rewrite <- !app_assoc.
Qed.

Lemma start_path_success (w1 : world) (l : list task) (n : nat) :
  tasks w1 = l ++ [startCamera_getUserMedia] →
  ∃ w', run [ settle (length l) (fulfilled_stream n);
              settle (length l) fulfilled ] w1 = Some w'
    ∧ running w' = true
    ∧ stream w' = object (next_stream w1)
    ∧ srcObject w' = Some (next_stream w1)
    ∧ overlay_canvas w' =
        {| width := or_default (videoSize w1).1 1280;
           height := or_default (videoSize w1).2 720;
           painted := [] |}
    ∧ tasks w' = l ++ [loop_detect (performance_now w1)]
    ∧ log w' = log w1 ++ [video_play; human_detect video].
Proof.
  intros Ht. eexists. split.
  - erewrite run_step; [| rewrite (handle_settle_last _ _ _ _ Ht); reflexivity].
    erewrite run_step; [reflexivity |].
    by rewrite (handle_settle_last _ l startCamera_play).
  - unfold startCamera_playing, loop. simpl. by rewrite <- !app_assoc.
Qed.

(** X16. A start whose [getUserMedia] is rejected leaves the camera off:
    [running] is false, [stream] and [rafId] are null, nothing of the start
    stays suspended, and the user gets the error on the console and in an
    alert. *)
Theorem X16_start_without_camera (w : world) :
  ∃ w', handle (settle (length (tasks w)) rejected) (startCamera w) = Some w'
    ∧ running w' = false ∧ stream w' = null ∧ rafId w' = None
    ∧ tasks w' = tasks w
    ∧ log w' = log (startCamera w)
        ++ [ console_error "Camera error:";
             alert "Unable to access camera. Check permissions and that no other app is using it." ].
Proof.
  destruct (startCamera_state w) as (Ht & Hr & Hs & Hf & _).
  destruct (start_path_rejected _ _ Ht) as (w' & Hh & H1 & H2 & H3 & H4 & H5).
  exists w'. by rewrite H1, H2, H3, Hr, Hs, Hf.
Qed.

(** X17. A start whose stream arrives but whose [video.play()] is rejected
    keeps the stream: [running] is false and nothing is suspended, yet
    [stream] holds the new stream and all its tracks are still live. *)
Theorem X17_start_without_playback (w : world) (n : nat) :
  ∃ w', run [ settle (length (tasks w)) (fulfilled_stream n);
              settle (length (tasks w)) rejected ] (startCamera w) = Some w'
    ∧ running w' = false
    ∧ stream w' = object (next_stream w)
    ∧ tracks w' !! next_stream w = Some (replicate n true)
    ∧ tasks w' = tasks w
    ∧ log w' = log (startCamera w)
        ++ [ video_play; console_error "Camera error:";
             alert "Unable to access camera. Check permissions and that no other app is using it." ].
Proof.
  destruct (startCamera_state w) as (Ht & Hr & Hs & Hf & Hn & _).
  destruct (start_path_no_playback _ _ n Ht) as (w' & Hh & H1 & H2 & H3 & H4 & H5).
  exists w'. rewrite Hn in H2, H3. by rewrite H1, Hr.
Qed.

(** X18. A start that succeeds: the stream is held and shown by the video,
    the overlay is blank and as large as the video, or 1280 by 720 where
    the video has no size yet, [running] is true, and the first loop
    iteration has called the detector once and waits for it. *)
Theorem X18_start_succeeds (w : world) (n : nat) :
  ∃ w', run [ settle (length (tasks w)) (fulfilled_stream n);
              settle (length (tasks w)) fulfilled ] (startCamera w) = Some w'
    ∧ running w' = true
    ∧ stream w' = object (next_stream w)
    ∧ srcObject w' = Some (next_stream w)
    ∧ overlay_canvas w' =
        {| width := or_default (videoSize w).1 1280;
           height := or_default (videoSize w).2 720;
           painted := [] |}
    ∧ tasks w' = tasks w ++ [loop_detect (performance_now w)]
    ∧ log w' = log (startCamera w) ++ [video_play; human_detect video].
Proof.
  destruct (startCamera_state w) as (Ht & Hr & Hs & Hf & Hn & Hv & Hp & _).
  destruct (start_path_success _ _ n Ht) as (w' & Hh & H1 & H2 & H3 & H4 & H5 & H6).
  exists w'. rewrite Hn in H2, H3. rewrite Hv in H4. rewrite Hp in H5. done.
Qed.

(** ** [init] *)

Lemma handle_settle_first (w : world) (t : task) (o : outcome) :
  tasks w = [t] → handle (settle 0 o) w = resume t o (set_tasks [] w).
Proof. intros H. exact (handle_settle_last w [] t o H). Qed.

Lemma script_state (w0 : world) :
  pristine w0 →
  tasks (script w0) = [init_load]
  ∧ log (script w0) = [localStorage_getItem "theme"; new_Human; human_load]
  ∧ tracks (script w0) = ∅
  ∧ next_stream (script w0) = next_stream w0.
Proof.
  intros [Ht Hf Htr Hlog]. unfold script, init. simpl.
  destruct (localStorage w0 !! "theme") as [t |]; [case_decide |];
    simpl; by rewrite Ht, Hlog, Htr.
Qed.

Lemma listCameras_options_indep (ds : list device) (w w' : world) :
  options (select (listCameras_devices ds w))
    = options (select (listCameras_devices ds w')).
Proof.
  unfold listCameras_devices. cbv zeta.
  destruct (length _ =? 0)%nat; [done |]. by rewrite !append_options_eq.
Qed.

Lemma init_path_fails (w1 : world) :
  tasks w1 = [init_load] →
  (∃ w', handle (settle 0 rejected) w1 = Some w'
     ∧ tasks w' = []
     ∧ log w' = log w1
         ++ [ console_error "Model load error:";
              alert "Failed to load AI models. Check your internet and refresh." ])
  ∧ (∃ w', run [settle 0 fulfilled; settle 0 rejected] w1 = Some w'
       ∧ tasks w' = []
       ∧ log w' = log w1
           ++ [ human_warmup; console_error "Model load error:";
                alert "Failed to load AI models. Check your internet and refresh." ]).
Proof.
  intros Ht. split.
  - rewrite (handle_settle_first _ _ _ Ht). simpl.
    eexists. split; [reflexivity |]. simpl. by rewrite <- app_assoc.
  - eexists. split.
    + erewrite run_step; [| rewrite (handle_settle_first _ _ _ Ht); reflexivity].
      erewrite run_step; [reflexivity |].
      by rewrite (handle_settle_first _ init_warmup).
    + simpl. by rewrite <- !app_assoc.
Qed.

Lemma listCameras_devices_frame (ds : list device) (w : world) :
  ∃ s, listCameras_devices ds w = set_select s w.
Proof.
  unfold listCameras_devices. cbv zeta.
  destruct (length _ =? 0)%nat; [eexists; reflexivity |].
  match goal with
  | |- context [foldl _ ?w ?os] => destruct (append_options_frame os w) as [s ->]
  end.
  by exists s.
Qed.

Lemma init_path_completes (w1 : world) (n : nat) (ds : list device) :
  tasks w1 = [init_load] →
  (∃ w', run [ settle 0 fulfilled; settle 0 fulfilled;
               settle 0 (fulfilled_stream n); settle 0 (fulfilled_devices ds) ] w1
         = Some w'
     ∧ options (select w') = options (select (listCameras_devices ds w1))
     ∧ tasks w' = []
     ∧ tracks w' = alter (fmap (λ _, false)) (next_stream w1)
                     (<[next_stream w1 := replicate n true]> (tracks w1))
     ∧ log w' = log w1 ++ [human_warmup; getUserMedia any_camera]
         ++ (track_stop (next_stream w1) <$> seq 0 n) ++ [enumerateDevices])
  ∧ (∃ w', run [ settle 0 fulfilled; settle 0 fulfilled;
                 settle 0 rejected; settle 0 (fulfilled_devices ds) ] w1
           = Some w'
       ∧ options (select w') = options (select (listCameras_devices ds w1))
       ∧ tasks w' = []
       ∧ tracks w' = tracks w1
       ∧ log w' = log w1 ++ [human_warmup; getUserMedia any_camera; enumerateDevices]).
Proof.
  intros Ht. split.
  - eexists. split.
    + erewrite run_step; [| rewrite (handle_settle_first _ _ _ Ht); reflexivity].
      erewrite run_step;
        [| rewrite (handle_settle_first _ init_warmup); reflexivity].
      erewrite run_step;
        [| rewrite (handle_settle_first _ init_getUserMedia); reflexivity].
      erewrite run_step; [reflexivity |].
      by rewrite (handle_settle_first _ listCameras_enumerateDevices).
    + split; [apply listCameras_options_indep |].
      match goal with
      | |- context [listCameras_devices ds ?w] =>
          destruct (listCameras_devices_frame ds w) as [s ->]
      end.
      simpl. rewrite lookup_insert_eq. simpl. rewrite length_replicate.
      by rewrite <- !app_assoc.
  - eexists. split.
    + erewrite run_step; [| rewrite (handle_settle_first _ _ _ Ht); reflexivity].
      erewrite run_step;
        [| rewrite (handle_settle_first _ init_warmup); reflexivity].
      erewrite run_step;
        [| rewrite (handle_settle_first _ init_getUserMedia); reflexivity].
      erewrite run_step; [reflexivity |].
      by rewrite (handle_settle_first _ listCameras_enumerateDevices).
    + split; [apply listCameras_options_indep |].
      match goal with
      | |- context [listCameras_devices ds ?w] =>
          destruct (listCameras_devices_frame ds w) as [s ->]
      end.
      simpl. by rewrite <- !app_assoc.
Qed.

(** X19. When the models fail to load or to warm up, [init] stops there:
    the user is told, and the script neither asks for the camera nor lists
    the devices, and leaves nothing suspended. *)
Theorem X19_init_stops_without_models (w0 : world) :
  pristine w0 →
  (∃ w', handle (settle 0 rejected) (script w0) = Some w'
     ∧ tasks w' = []
     ∧ log w' = [ localStorage_getItem "theme"; new_Human; human_load;
                  console_error "Model load error:";
                  alert "Failed to load AI models. Check your internet and refresh." ])
  ∧ (∃ w', run [settle 0 fulfilled; settle 0 rejected] (script w0) = Some w'
       ∧ tasks w' = []
       ∧ log w' = [ localStorage_getItem "theme"; new_Human; human_load;
                    human_warmup; console_error "Model load error:";
                    alert "Failed to load AI models. Check your internet and refresh." ]).
Proof.
  intros (Ht & Hlog & _)%script_state.
  destruct (init_path_fails _ Ht) as [(w1 & H1 & Ht1 & Hl1) (w2 & H2 & Ht2 & Hl2)].
  rewrite Hlog in Hl1, Hl2. split; [by exists w1 | by exists w2].
Qed.

(** X20. With the models ready, [init] asks for any camera once, only to
    unlock the device labels: every track of the stream it gets is stopped
    at once, so no stream is live afterwards; and the cameras are listed in
    the select whether the permission was granted or denied. *)
Theorem X20_init_lists_cameras (w0 : world) (n : nat) (ds : list device) :
  pristine w0 →
  (∃ w', run [ settle 0 fulfilled; settle 0 fulfilled;
               settle 0 (fulfilled_stream n); settle 0 (fulfilled_devices ds) ]
           (script w0) = Some w'
     ∧ options (select w') = options (select (listCameras_devices ds w0))
     ∧ tasks w' = []
     ∧ (∀ s, ¬ live w' s)
     ∧ log w' = [ localStorage_getItem "theme"; new_Human; human_load;
                  human_warmup; getUserMedia any_camera ]
         ++ (track_stop (next_stream w0) <$> seq 0 n) ++ [enumerateDevices])
  ∧ (∃ w', run [ settle 0 fulfilled; settle 0 fulfilled;
                 settle 0 rejected; settle 0 (fulfilled_devices ds) ]
             (script w0) = Some w'
       ∧ options (select w') = options (select (listCameras_devices ds w0))
       ∧ tasks w' = []
       ∧ (∀ s, ¬ live w' s)
       ∧ log w' = [ localStorage_getItem "theme"; new_Human; human_load;
                    human_warmup; getUserMedia any_camera; enumerateDevices ]).
Proof.
  intros (Ht & Hlog & Htr & Hn)%script_state.
  destruct (init_path_completes _ n ds Ht)
    as [(w1 & H1 & Ho1 & Ht1 & Htr1 & Hl1) (w2 & H2 & Ho2 & Ht2 & Htr2 & Hl2)].
  rewrite Hlog in Hl1, Hl2. rewrite Hn in Hl1.
  rewrite (listCameras_options_indep ds _ w0) in Ho1, Ho2.
  split.
  - exists w1. do 3 (split; [done |]). split; [| done].
    intros s (ts & Hts & Htrue). rewrite Htr1, Htr in Hts.
    destruct (decide (s = next_stream (script w0))) as [-> | Hne].
    + rewrite lookup_alter_eq, lookup_insert_eq in Hts. simpl in Hts.
      injection Hts as <-. apply list_elem_of_fmap in Htrue as (? & ? & _). done.
    + by rewrite lookup_alter_ne, lookup_insert_ne, lookup_empty in Hts.
  - exists w2. do 3 (split; [done |]). split; [| done].
    intros s (ts & Hts & _). by rewrite Htr2, Htr, lookup_empty in Hts.
Qed.

(** ** What an iteration and a snapshot leave alone *)

Lemma late_frame (w : world) (id : positive) :
  running w = false →
  id ∈ frames w →
  ∃ w', handle (animation_frame id) w = Some w'
        ∧ running w' = false
        ∧ tasks w' = tasks w
        ∧ log w' = log w.
Proof.
  intros Hr Hin. eexists. split.
  - cbn [handle]. rewrite decide_True by exact Hin. reflexivity.
  - unfold loop. simpl. rewrite Hr. done.
Qed.

(** X21. A detection that settles after [stopCamera] has run is still
    painted, and the iteration still requests one more frame and records
    it in [rafId]; when that frame fires, [loop] returns at its guard: the
    detector is not called and nothing is suspended. *)
Theorem X21_late_detection_after_stop (t0 : Q) (r : result) (w : world) :
  running w = false →
  ∃ w1 w2,
    resume (loop_detect t0) (fulfilled_result r) w = Some w1
    ∧ painted (overlay_canvas w1) = [draw_canvas; draw_face (faces_of r) false]
    ∧ frames w1 = frames w ++ [next_frame w]
    ∧ rafId w1 = Some (next_frame w)
    ∧ handle (animation_frame (next_frame w)) w1 = Some w2
    ∧ running w2 = false
    ∧ tasks w2 = tasks w
    ∧ log w2 = log w1.
Proof.
  intros Hr.
  destruct (loop_resume_session t0 r w) as (Hf & Hraf & Ht & _).
  assert (running (loop_resume t0 r w) = false) as Hr1.
  { unfold loop_resume.
    destruct (summarize_frame r (draw_overlays r w)) as (t & s & e & ->). done. }
  assert (painted (overlay_canvas (loop_resume t0 r w))
          = [draw_canvas; draw_face (faces_of r) false]) as Hp.
  { unfold loop_resume.
    destruct (summarize_frame r (draw_overlays r w)) as (t & s & e & ->).
    simpl. unfold covers. simpl. by rewrite !Z.leb_refl. }
  assert (next_frame w ∈ frames (loop_resume t0 r w)) as Hin.
  { rewrite Hf. apply elem_of_app. right. apply list_elem_of_here. }
  assert (resume (loop_detect t0) (fulfilled_result r) w
          = Some (loop_resume t0 r w)) as Hres by reflexivity.
  revert Hres Hf Hraf Ht Hr1 Hp Hin. generalize (loop_resume t0 r w) as w1.
  intros w1 Hres Hf Hraf Ht Hr1 Hp Hin.
  destruct (late_frame w1 (next_frame w) Hr1 Hin) as (w2 & Hh & Hr2 & Ht2 & Hl2).
  exists w1, w2.
  split; [exact Hres |]. split; [exact Hp |]. split; [exact Hf |].
  split; [exact Hraf |]. split; [exact Hh |]. split; [exact Hr2 |].
  split; [by rewrite Ht2 | exact Hl2].
Qed.

(** X22. A loop iteration resumed with a result changes what the page
    shows and nothing of the control state: [running], [stream], the
    tracks, the suspended tasks, the camera select, the mirror box, the
    theme, the transforms and the storage are as before; it writes the text
    of the badge, the top mood, the faces counter and the fps text only,
    and the width of the three bars only. *)
Theorem X22_iteration_only_paints
    (t0 : Q) (r : result) (w : world) (e : elem) :
  running (loop_resume t0 r w) = running w
  ∧ stream (loop_resume t0 r w) = stream w
  ∧ tracks (loop_resume t0 r w) = tracks w
  ∧ tasks (loop_resume t0 r w) = tasks w
  ∧ select (loop_resume t0 r w) = select w
  ∧ checked (loop_resume t0 r w) = checked w
  ∧ data_theme (loop_resume t0 r w) = data_theme w
  ∧ style_transform (loop_resume t0 r w) = style_transform w
  ∧ localStorage (loop_resume t0 r w) = localStorage w
  ∧ (e ∈ [moodBadge; topMood; facesText; fpsText]
     ∨ textContent (loop_resume t0 r w) e = textContent w e)
  ∧ (e ∈ [topConf; facesBar; fpsBar]
     ∨ style_width (loop_resume t0 r w) e = style_width w e).
Proof.
  assert (∀ e, e ∈ [moodBadge; topMood; facesText]
               ∨ textContent (summarize r (draw_overlays r w)) e = textContent w e)
    as Htext.
  { intros x. unfold summarize. rewrite renderEmotions_eq.
    destruct (negb (length _ =? 0)%nat); [destruct (sort by_score _) |];
      destruct x; first [by right | left; set_solver]. }
  assert (∀ e, e ∈ [topConf; facesBar]
               ∨ style_width (summarize r (draw_overlays r w)) e = style_width w e)
    as Hwidth.
  { intros x. unfold summarize. rewrite renderEmotions_eq.
    destruct (negb (length _ =? 0)%nat); [destruct (sort by_score _) |];
      destruct x; first [by right | left; set_solver]. }
  unfold loop_resume.
  destruct (summarize_frame r (draw_overlays r w)) as (t & s & el & Heq).
  rewrite Heq in *. simpl in *.
  do 9 (split; [done |]). split.
  - destruct (Htext e) as [Hin | He].
    { left. rewrite !elem_of_cons in Hin. rewrite !elem_of_cons. tauto. }
    destruct e; first [by right | left; set_solver].
  - destruct (Hwidth e) as [Hin | He].
    { left. rewrite !elem_of_cons in Hin. rewrite !elem_of_cons. tauto. }
    destruct e; first [by right | left; set_solver].
Qed.

(** X23. The downloaded image does not depend on the mirror: whatever the
    mirror box is set to and applied, [snapshot] hands out the same file,
    drawn from the video and the overlay as they are. *)
Theorem X23_snapshot_ignores_mirror (b : bool) (w : world) :
  log (snapshot (applyMirror (set_checked b w))) = log (snapshot w).
Proof. unfold snapshot. simpl. by destruct (els w video), (els w overlay). Qed.

(** ** Failures that pass in silence *)

(** X24. When [enumerateDevices] rejects, [listCameras] only warns on the
    console: the camera select keeps the options and the selection it had,
    nothing is alerted, and nothing stays suspended. *)
Theorem X24_enumerate_failure_only_warns (w : world) :
  ∃ w', handle (settle (length (tasks w)) rejected) (listCameras w) = Some w'
    ∧ select w' = select w
    ∧ tasks w' = tasks w
    ∧ running w' = running w ∧ stream w' = stream w
    ∧ log w' = log w ++ [enumerateDevices; console_warn "enumerateDevices failed"].
Proof.
  assert (tasks (listCameras w) = tasks w ++ [listCameras_enumerateDevices]) as Ht
    by reflexivity.
  rewrite (handle_settle_last _ _ _ _ Ht). simpl.
  eexists. split; [reflexivity |]. simpl. by rewrite <- app_assoc.
Qed.

(** X25. [snapshot] only hands out a download: it appends at most one call
    to the log, none when the video or the overlay element is missing, and
    leaves the session, the pending frames, the suspended tasks, the overlay
    canvas, the tracks and the storage as they were; it does not ask whether
    a camera is running. *)
Theorem X25_snapshot_only_downloads (w : world) :
  (∃ calls, log (snapshot w) = log w ++ calls
            ∧ (length calls ≤ 1)%nat
            ∧ (els w video = false ∨ els w overlay = false → calls = [])
            ∧ (els w video = true → els w overlay = true → length calls = 1%nat))
  ∧ running (snapshot w) = running w
  ∧ stream (snapshot w) = stream w
  ∧ rafId (snapshot w) = rafId w
  ∧ frames (snapshot w) = frames w
  ∧ tasks (snapshot w) = tasks w
  ∧ overlay_canvas (snapshot w) = overlay_canvas w
  ∧ tracks (snapshot w) = tracks w
  ∧ localStorage (snapshot w) = localStorage w.
Proof.
  unfold snapshot.
  destruct (els w video) eqn:Hv, (els w overlay) eqn:Ho; simpl.
  - split; [| done]. eexists. split; [reflexivity |].
    split; [simpl; lia |]. split; [| done]. by intros [? | ?].
  - split; [| done]. exists []. rewrite app_nil_r. repeat split; simpl; [lia | done].
  - split; [| done]. exists []. rewrite app_nil_r. repeat split; simpl; [lia | done].
  - split; [| done]. exists []. rewrite app_nil_r. repeat split; simpl; [lia | done].
Qed.

(** X26. A detection that rejects ends the loop in silence: the iteration
    waiting for it is gone and no frame is requested, nothing is logged or
    alerted, while [running] stays as it was and the stream and its tracks
    stay live. *)
Theorem X26_failed_detection_ends_the_loop
    (w : world) (l : list task) (t0 : Q) :
  tasks w = l ++ [loop_detect t0] →
  ∃ w', handle (settle (length l) rejected) w = Some w'
    ∧ tasks w' = l
    ∧ frames w' = frames w
    ∧ rafId w' = rafId w
    ∧ running w' = running w
    ∧ stream w' = stream w
    ∧ tracks w' = tracks w
    ∧ log w' = log w.
Proof.
  intros Ht. rewrite (handle_settle_last _ _ _ _ Ht). simpl.
  eexists. split; [reflexivity |]. done.
Qed.

End Host.

(** * The theorems at work on [page0] *)

Lemma C1_badge_shows_top_emotion_witness :
  faces_of one_face = Some [ {| emotions := Some [ {| emotion := "sad"; score := 1 # 4 |};
                                                   {| emotion := "happy"; score := 3 # 5 |};
                                                   {| emotion := "angry"; score := 3 # 20 |} ] |} ]
  ∧ ∃ top n,
      top_of top [ {| emotion := "sad"; score := 1 # 4 |};
                   {| emotion := "happy"; score := 3 # 5 |};
                   {| emotion := "angry"; score := 3 # 20 |} ]
      ∧ 0 ≤ n ≤ 1000
      ∧ textContent (loop_resume ratio_toString 0 one_face page0) moodBadge =
          "Mood: " +:+ emotion top +:+ " (" +:+
          digits (n / 10) +:+ "." +:+ digits (n mod 10) +:+ "%)"
      ∧ textContent (loop_resume ratio_toString 0 one_face page0) moodBadge =
          "Mood: happy (60.0%)"
      ∧ textContent (loop_resume ratio_toString 0 one_face page0) topMood = emotion top
      ∧ style_width (loop_resume ratio_toString 0 one_face page0) topConf =
          digits (n / 10) +:+ "." +:+ digits (n mod 10) +:+ "%".
Proof.
  split; [reflexivity |].
  assert (∀ e, e ∈ [ {| emotion := "sad"; score := 1 # 4 |};
                     {| emotion := "happy"; score := 3 # 5 |};
                     {| emotion := "angry"; score := 3 # 20 |} ]
               → (0 <= score e)%Q ∧ (score e <= 1)%Q) as Hscores.
  { intros e Hin. rewrite !elem_of_cons in Hin.
    destruct Hin as [-> | [-> | [-> | Hin]]];
      [| | | by apply elem_of_nil in Hin];
      split; unfold Qle; simpl; lia. }
  destruct (C1_badge_shows_top_emotion ratio_toString 0 one_face page0
              {| emotions := Some [ {| emotion := "sad"; score := 1 # 4 |};
                                    {| emotion := "happy"; score := 3 # 5 |};
                                    {| emotion := "angry"; score := 3 # 20 |} ] |} []
              [ {| emotion := "sad"; score := 1 # 4 |};
                {| emotion := "happy"; score := 3 # 5 |};
                {| emotion := "angry"; score := 3 # 20 |} ]
              eq_refl eq_refl ltac:(discriminate))
    as (top & Htop & _ & Hm & _ & Hfmt).
  destruct (Hscores top (proj1 Htop)) as [H0 H1].
  destruct (Hfmt H0 H1) as (n & Hn & _ & Hb & Hc).
  exists top, n. split; [exact Htop |]. split; [exact Hn |].
  split; [exact Hb |]. split; [vm_compute; reflexivity |].
  split; [exact Hm | exact Hc].
Defined.

Lemma C2_detect_once_then_clear_witness :
  running (set_running true page0) = true
  ∧ log (loop (set_running true page0)) = [human_detect video]
  ∧ painted (overlay_canvas (loop_resume ratio_toString 0 one_face (set_running true page0)))
      = [draw_canvas; draw_face (faces_of one_face) false].
Proof.
  split; [reflexivity |].
  destruct (C2_detect_once_then_clear ratio_toString (set_running true page0)
              one_face (set_running true page0))
    as (Hlog & _ & _ & _ & Hpainted); [reflexivity |].
  split; [exact Hlog | exact Hpainted].
Defined.

Lemma C5_storage_holds_only_the_theme_witness :
  pristine page0
  ∧ ∃ w, run ratio_toString
           [click themeToggle; keydown "s"; keydown "T"] (script page0) = Some w
         ∧ ∃ values : list string,
             length values = 2%nat
             ∧ Forall (λ v, v = "dark" ∨ v = "light") values
             ∧ storage_calls (log w) =
                 localStorage_getItem "theme" :: (localStorage_setItem "theme" <$> values)
             ∧ localStorage w !! "theme" =
                 match last values with
                 | Some v => Some v
                 | None => localStorage page0 !! "theme"
                 end.
Proof.
  assert (pristine page0) as Hp by (split; reflexivity).
  split; [exact Hp |].
  eexists.
  assert (∀ A B : Prop, A → (A → B) → A ∧ B) as Hcut by tauto.
  apply Hcut; [vm_compute; reflexivity |]. intros Hrun.
  exact (proj1 (C5_storage_holds_only_the_theme ratio_toString page0
                  [click themeToggle; keydown "s"; keydown "T"] _ Hp Hrun)).
Defined.

Lemma C9_no_face_empty_state_witness :
  default [] (faces_of no_faces) = []
  ∧ emotions_el (loop_resume ratio_toString 0 no_faces page0) =
      {| markup := "<div class=" +:+ String "034"%char "muted" +:+
                   String "034"%char ">No face detected.</div>";
         rows := [] |}
  ∧ textContent (loop_resume ratio_toString 0 no_faces page0) moodBadge = "Mood: —"
  ∧ textContent (loop_resume ratio_toString 0 no_faces page0) topMood = "—"
  ∧ style_width (loop_resume ratio_toString 0 no_faces page0) topConf = "0%".
Proof.
  split; [reflexivity |].
  apply (C9_no_face_empty_state ratio_toString 0 no_faces page0).
  left. reflexivity.
Defined.

(** * The further properties at work *)

Lemma X4_theme_survives_reload_witness :
  localStorage (set_localStorage (localStorage (toggle_theme page0)) page0)
    = localStorage (toggle_theme page0)
  ∧ data_theme (script (set_localStorage (localStorage (toggle_theme page0)) page0))
    = data_theme (toggle_theme page0).
Proof.
  split; [reflexivity |].
  apply (X4_theme_survives_reload page0
           (set_localStorage (localStorage (toggle_theme page0)) page0)).
  reflexivity.
Defined.

Lemma X5_one_row_per_emotion_witness :
  faces_of one_face = Some [ {| emotions := Some [ {| emotion := "sad"; score := 1 # 4 |};
                                                   {| emotion := "happy"; score := 3 # 5 |};
                                                   {| emotion := "angry"; score := 3 # 20 |} ] |} ]
  ∧ length (rows (emotions_el (loop_resume ratio_toString 0 one_face page0))) = 3%nat.
Proof.
  split; [reflexivity |].
  refine (proj2 (X5_one_row_per_emotion ratio_toString 0 one_face page0
                   {| emotions := Some [ {| emotion := "sad"; score := 1 # 4 |};
                                         {| emotion := "happy"; score := 3 # 5 |};
                                         {| emotion := "angry"; score := 3 # 20 |} ] |} []
                   [ {| emotion := "sad"; score := 1 # 4 |};
                     {| emotion := "happy"; score := 3 # 5 |};
                     {| emotion := "angry"; score := 3 # 20 |} ]
                   eq_refl eq_refl _)).
  discriminate.
Defined.

Lemma X6_faces_counter_and_bar_witness :
  Z.of_nat (length (default [] (faces_of one_face))) < 2 ^ 32
  ∧ textContent (loop_resume ratio_toString 0 one_face page0) facesText = "1"
  ∧ style_width (loop_resume ratio_toString 0 one_face page0) facesBar = "20%".
Proof.
  split; [reflexivity |].
  apply (X6_faces_counter_and_bar ratio_toString 0 one_face page0). reflexivity.
Defined.

Lemma X7_no_elapsed_time_witness :
  (performance_now page0 == 0)%Q
  ∧ textContent (loop_resume ratio_toString 0 one_face page0) fpsText = "Infinity fps"
  ∧ style_width (loop_resume ratio_toString 0 one_face page0) fpsBar = "100%".
Proof.
  split; [reflexivity |].
  apply (X7_no_elapsed_time ratio_toString 0 one_face page0). reflexivity.
Defined.

Lemma X8_pct_one_decimal_witness :
  (0 <= 3458764513820541 # 2305843009213693952)%Q
  ∧ (3458764513820541 # 2305843009213693952 <= 1)%Q
  ∧ pct ratio_toString (Fin (3458764513820541 # 2305843009213693952)) = "0.1%".
Proof.
  assert (0 <= 3458764513820541 # 2305843009213693952)%Q as H0
    by (unfold Qle; simpl; lia).
  assert (3458764513820541 # 2305843009213693952 <= 1)%Q as H1
    by (unfold Qle; simpl; lia).
  split; [exact H0 |]. split; [exact H1 |].
  exact (proj1 (X8_pct_one_decimal ratio_toString
                  (3458764513820541 # 2305843009213693952) H0 H1)).
Defined.

Lemma X9_ties_go_to_the_first_witness :
  ∃ pre top post,
    [ {| emotion := "sad"; score := 1 # 4 |};
      {| emotion := "happy"; score := 3 # 5 |};
      {| emotion := "neutral"; score := 6 # 10 |} ] = pre ++ top :: post
    ∧ (∀ e, e ∈ pre → (score e < score top)%Q)
    ∧ (∀ e, e ∈ post → (score e <= score top)%Q)
    ∧ textContent
        (loop_resume ratio_toString 0
           {| faces_of :=
                Some [ {| emotions :=
                            Some [ {| emotion := "sad"; score := 1 # 4 |};
                                   {| emotion := "happy"; score := 3 # 5 |};
                                   {| emotion := "neutral"; score := 6 # 10 |} ] |} ] |}
           page0) topMood = emotion top.
Proof.
  eapply (X9_ties_go_to_the_first ratio_toString 0 _ page0);
    [reflexivity | reflexivity | discriminate].
Defined.

Lemma X10_stopCamera_releases_witness :
  rafId page_streaming = Some 2%positive
  ∧ stream page_streaming = object 0
  ∧ tracks page_streaming !! 0%nat = Some [true; true]
  ∧ frames (stopCamera page_streaming) = [1%positive]
  ∧ tracks (stopCamera page_streaming) !! 0%nat = Some [false; false]
  ∧ log (stopCamera page_streaming)
      = [cancelAnimationFrame 2; track_stop 0 0; track_stop 0 1].
Proof.
  assert (tracks page_streaming !! 0%nat = Some [true; true]) as Ht
    by (vm_compute; reflexivity).
  destruct (X10_stopCamera_releases page_streaming 2%positive 0%nat [true; true]
              eq_refl eq_refl Ht)
    as (_ & _ & Htracks & _ & Hlog & _).
  split; [reflexivity |]. split; [reflexivity |]. split; [exact Ht |].
  split; [vm_compute; reflexivity |]. split; [exact Htracks | exact Hlog].
Defined.

Lemma X11_stop_is_final_until_start_witness :
  ∃ w w',
    run ratio_toString
      [keydown "s"; settle 1 (fulfilled_stream 1); settle 1 fulfilled]
      (script page0) = Some w
    ∧ tasks w = [init_load; loop_detect 0]
    ∧ run ratio_toString
        [settle 1 (fulfilled_result one_face); animation_frame 1;
         change_mirror; click snapBtn]
        (stopCamera w) = Some w'
    ∧ running w' = false
    ∧ truthy (stream w') = false
    ∧ detections (log w') = detections (log (stopCamera w)).
Proof.
  eexists _, _. split; [vm_compute; reflexivity |].
  split; [vm_compute; reflexivity |].
  assert (∀ A B : Prop, A → (A → B) → A ∧ B) as Hcut by tauto.
  apply Hcut; [vm_compute; reflexivity |]. intros Hrun.
  eapply (X11_stop_is_final_until_start ratio_toString);
    [ | | exact Hrun]; repeat constructor.
Defined.

Lemma X12_one_session_on_orderly_runs_witness :
  pristine page0
  ∧ orderly ratio_toString
      [ keydown "s"; settle 1 (fulfilled_stream 1); settle 1 fulfilled;
        settle 1 (fulfilled_result one_face); click startBtn;
        settle 1 (fulfilled_stream 1); settle 1 fulfilled ]
      (script page0)
  ∧ ∃ w, run ratio_toString
           [ keydown "s"; settle 1 (fulfilled_stream 1); settle 1 fulfilled;
             settle 1 (fulfilled_result one_face); click startBtn;
             settle 1 (fulfilled_stream 1); settle 1 fulfilled ]
           (script page0) = Some w
         ∧ (length (frames w) ≤ 1)%nat
         ∧ (∀ s1 s2, live w s1 → live w s2 → s1 = s2)
         ∧ (∀ s, live w s → stream w = object s).
Proof.
  assert (pristine page0) as Hp by (split; reflexivity).
  assert (orderly ratio_toString
            [ keydown "s"; settle 1 (fulfilled_stream 1); settle 1 fulfilled;
              settle 1 (fulfilled_result one_face); click startBtn;
              settle 1 (fulfilled_stream 1); settle 1 fulfilled ]
            (script page0)) as Ho.
  { vm_compute. repeat split; try (intros H; discriminate H);
      intros _; repeat constructor. }
  split; [exact Hp |]. split; [exact Ho |].
  eexists.
  assert (∀ A B : Prop, A → (A → B) → A ∧ B) as Hcut by tauto.
  apply Hcut; [vm_compute; reflexivity |]. intros Hrun.
  exact (X12_one_session_on_orderly_runs ratio_toString page0 _ _ Hp Ho Hrun).
Defined.

Lemma X13_camera_off_until_started_witness :
  pristine page0
  ∧ ∃ w, run ratio_toString
           [ settle 0 fulfilled; settle 0 fulfilled; settle 0 (fulfilled_stream 2);
             click stopBtn; keydown "c"; change_mirror ]
           (script page0) = Some w
         ∧ running w = false
         ∧ detections (log w) = []
         ∧ ∀ s, ¬ live w s.
Proof.
  assert (pristine page0) as Hp by (split; reflexivity).
  split; [exact Hp |]. eexists.
  assert (∀ A B : Prop, A → (A → B) → A ∧ B) as Hcut by tauto.
  apply Hcut; [vm_compute; reflexivity |]. intros Hrun.
  eapply (X13_camera_off_until_started ratio_toString page0);
    [exact Hp | | exact Hrun]; repeat constructor.
Defined.

Lemma X14_start_uses_the_first_camera_witness :
  filter (λ d, kind d = "videoinput")
    [ {| kind := "audioinput"; deviceId := "a1"; label := "Microphone" |};
      {| kind := "videoinput"; deviceId := "v1"; label := "Front" |};
      {| kind := "videoinput"; deviceId := "v2"; label := EmptyString |} ]
  = [ {| kind := "videoinput"; deviceId := "v1"; label := "Front" |};
      {| kind := "videoinput"; deviceId := "v2"; label := EmptyString |} ]
  ∧ select_value
      (select (listCameras_devices ratio_toString
         [ {| kind := "audioinput"; deviceId := "a1"; label := "Microphone" |};
           {| kind := "videoinput"; deviceId := "v1"; label := "Front" |};
           {| kind := "videoinput"; deviceId := "v2"; label := EmptyString |} ]
         page0)) = "v1".
Proof.
  split; [reflexivity |].
  refine (proj1 (X14_start_uses_the_first_camera ratio_toString
           [ {| kind := "audioinput"; deviceId := "a1"; label := "Microphone" |};
             {| kind := "videoinput"; deviceId := "v1"; label := "Front" |};
             {| kind := "videoinput"; deviceId := "v2"; label := EmptyString |} ]
           page0
           {| kind := "videoinput"; deviceId := "v1"; label := "Front" |}
           [ {| kind := "videoinput"; deviceId := "v2"; label := EmptyString |} ]
           _)).
  reflexivity.
Defined.

Lemma X15_camera_change_witness :
  options (select page_two_cameras) !! 1%nat
    = Some {| opt_value := Some "v2"; opt_text := "Camera 2"; opt_disabled := false |}
  ∧ ∃ w', handle ratio_toString (change_camera 1) page_two_cameras = Some w'
          ∧ select_value (select w') = "v2"
          ∧ running w' = false
          ∧ tasks w' = [startCamera_getUserMedia].
Proof.
  split; [reflexivity |].
  destruct (X15_camera_change ratio_toString page_two_cameras 1
              {| opt_value := Some "v2"; opt_text := "Camera 2"; opt_disabled := false |}
              eq_refl eq_refl)
    as (w' & Hh & Hv & Hrest).
  assert (truthy (stream page_two_cameras) = true) as Hs by reflexivity.
  rewrite Hs in Hrest. destruct Hrest as (Hr & _ & _ & Ht & _).
  exists w'. split; [exact Hh |]. split; [exact Hv |]. split; [exact Hr | exact Ht].
Defined.

Lemma X19_init_stops_without_models_witness :
  pristine page0
  ∧ ∃ w', handle ratio_toString (settle 0 rejected) (script page0) = Some w'
          ∧ tasks w' = [].
Proof.
  assert (pristine page0) as Hp by (split; reflexivity).
  split; [exact Hp |].
  destruct (X19_init_stops_without_models ratio_toString page0 Hp)
    as [(w' & Hh & Ht & _) _].
  exists w'. split; [exact Hh | exact Ht].
Defined.

Lemma X20_init_lists_cameras_witness :
  pristine page0
  ∧ ∃ w', run ratio_toString
            [ settle 0 fulfilled; settle 0 fulfilled;
              settle 0 (fulfilled_stream 1);
              settle 0 (fulfilled_devices
                [ {| kind := "videoinput"; deviceId := "v1"; label := "Front" |} ]) ]
            (script page0) = Some w'
          ∧ tasks w' = []
          ∧ ∀ s, ¬ live w' s.
Proof.
  assert (pristine page0) as Hp by (split; reflexivity).
  split; [exact Hp |].
  destruct (X20_init_lists_cameras ratio_toString page0 1
              [ {| kind := "videoinput"; deviceId := "v1"; label := "Front" |} ] Hp)
    as [(w' & Hh & _ & Ht & Hl & _) _].
  exists w'. split; [exact Hh |]. split; [exact Ht | exact Hl].
Defined.

Lemma X21_late_detection_after_stop_witness :
  running page0 = false
  ∧ ∃ w1 w2,
      resume ratio_toString (loop_detect 0) (fulfilled_result one_face) page0 = Some w1
      ∧ rafId w1 = Some 1%positive
      ∧ handle ratio_toString (animation_frame 1) w1 = Some w2
      ∧ log w2 = log w1.
Proof.
  split; [reflexivity |].
  destruct (X21_late_detection_after_stop ratio_toString 0 one_face page0 eq_refl)
    as (w1 & w2 & H1 & _ & _ & Hraf & H2 & _ & _ & Hlog).
  exists w1, w2. split; [exact H1 |]. split; [exact Hraf |].
  split; [exact H2 | exact Hlog].
Defined.

Lemma X26_failed_detection_ends_the_loop_witness :
  ∃ w,
    run ratio_toString
      [keydown "s"; settle 1 (fulfilled_stream 1); settle 1 fulfilled]
      (script page0) = Some w
    ∧ tasks w = [init_load] ++ [loop_detect 0]
    ∧ ∃ w', handle ratio_toString (settle 1 rejected) w = Some w'
            ∧ tasks w' = [init_load]
            ∧ frames w' = frames w
            ∧ running w' = running w
            ∧ log w' = log w.
Proof.
  eexists. split; [vm_compute; reflexivity |].
  assert (∀ A B : Prop, A → (A → B) → A ∧ B) as Hcut by tauto.
  apply Hcut; [vm_compute; reflexivity |]. intros Ht.
  destruct (X26_failed_detection_ends_the_loop ratio_toString _ _ _ Ht)
    as (w' & Hh & Ht' & Hf & _ & Hr & _ & _ & Hl).
  exists w'. split; [exact Hh |]. split; [exact Ht' |]. split; [exact Hf |].
  split; [exact Hr | exact Hl].
Defined.
